(** * MCPClientManager: connection registry and fan-out query engine

    A shallow embedding of [lib/MCPClientManager.ts] and the types of
    [lib/types.ts].  The manager's private fields become a record that is
    passed explicitly; the SDK client, the transports and the timers of the
    JavaScript runtime are the environment: the SDK's answers are oracles
    (a connect or a remote call either resolves or rejects), the transports'
    hook slots and the pending [setTimeout] callbacks are part of the state.

    Every asynchronous method is run to completion as one step: the awaited
    SDK call settles without any other task of the event loop running in
    between.  Event listeners are taken not to throw and not to call back
    into the manager; the [debug] logger has no behaviour and is left out. *)

From Stdlib Require Import ZArith NArith Ascii.
From stdpp Require Import gmap strings list fin_maps pretty.

Set Warnings "-register-all".

Local Open Scope string_scope.
Local Open Scope Z_scope.
Local Open Scope list_scope.

(** ** JavaScript values *)

(** The values the manager handles without looking inside: request
    parameters, responses, items of capability lists.  Numbers are the
    integers among the doubles; objects are their own enumerable properties
    in insertion order. *)
Inductive JsVal : Type :=
| JsUndefined
| JsNull
| JsBool (b : bool)
| JsNum (z : Z)
| JsStr (s : string)
| JsArr (items : list JsVal)
| JsObj (props : list (string * JsVal)).

(** [Error] objects.  [AggregateError(errors, message)] keeps its list. *)
Inductive JsError : Type :=
| Error (message : string)
| TypeError (message : string)
| AggregateError (errors : list JsError) (message : string).

(** What a [throw] or a rejected promise carries: any value. *)
Inductive Thrown : Type :=
| ThrownError (e : JsError)
| ThrownValue (v : JsVal).

(** The settlement of an awaited SDK promise, or of an expression that may
    throw. *)
Inductive Outcome (A : Type) : Type :=
| Resolved (a : A)
| Rejected (t : Thrown).
Arguments Resolved {A} a.
Arguments Rejected {A} t.

(** How a method of the manager completes: it returns, or it throws (the
    manager only ever throws [Error] objects). *)
Inductive Completion (A : Type) : Type :=
| Return (a : A)
| Throw (e : JsError).
Arguments Return {A} a.
Arguments Throw {A} e.

(** The character U+0022, for the quotation marks of the messages. *)
Definition dquote : string := String (ascii_of_nat 34) EmptyString.

(** [!!v]: undefined, null, false, 0 and the empty string are falsy. *)
Definition truthy (v : JsVal) : bool :=
  match v with
  | JsUndefined | JsNull => false
  | JsBool b => b
  | JsNum z => negb (z =? 0)
  | JsStr s => negb (String.eqb s "")
  | JsArr _ | JsObj _ => true
  end.

(** [a || b] *)
Definition jsOr (a b : JsVal) : JsVal := if truthy a then a else b.

(** [Array.isArray(v)] *)
Definition isArray (v : JsVal) : bool :=
  match v with JsArr _ => true | _ => false end.

(** Lookup of an own property in a property list. *)
Fixpoint propGet (props : list (string * JsVal)) (k : string) : JsVal :=
  match props with
  | [] => JsUndefined
  | (k', v) :: rest => if String.eqb k' k then v else propGet rest k
  end.

(** [obj[k] = v]: an existing key keeps its place, a new key goes last. *)
Fixpoint propSet (props : list (string * JsVal)) (k : string) (v : JsVal)
  : list (string * JsVal) :=
  match props with
  | [] => [(k, v)]
  | (k', v') :: rest =>
      if String.eqb k' k then (k, v) :: rest else (k', v') :: propSet rest k v
  end.

(** [v.k] for a name [k] that is no index and not [length]: reading a
    property of undefined or null throws a TypeError, a primitive or an
    array has no such property. *)
Definition getProp (v : JsVal) (k : string) : Outcome JsVal :=
  match v with
  | JsUndefined =>
      Rejected (ThrownError (TypeError
        ("Cannot read properties of undefined (reading '" +:+ k +:+ "')")))
  | JsNull =>
      Rejected (ThrownError (TypeError
        ("Cannot read properties of null (reading '" +:+ k +:+ "')")))
  | JsObj props => Resolved (propGet props k)
  | _ => Resolved JsUndefined
  end.

(** The single-character strings of a string, for spreading it. *)
Fixpoint chars (s : string) : list JsVal :=
  match s with
  | EmptyString => []
  | String c rest => JsStr (String c EmptyString) :: chars rest
  end.

(** Index keys ["0"], ["1"], ... from [i] on. *)
Fixpoint indexed (i : N) (vs : list JsVal) : list (string * JsVal) :=
  match vs with
  | [] => []
  | v :: rest => (pretty i, v) :: indexed (N.succ i) rest
  end.

(** The own enumerable properties that [...v] copies in an object literal. *)
Definition ownProps (v : JsVal) : list (string * JsVal) :=
  match v with
  | JsObj props => props
  | JsArr items => indexed 0%N items
  | JsStr s => indexed 0%N (chars s)
  | _ => []
  end.

(** [{ ...target, ...v }] onto the properties already written. *)
Definition spread (target : list (string * JsVal)) (v : JsVal)
  : list (string * JsVal) :=
  fold_left (fun acc kv => propSet acc (fst kv) (snd kv)) (ownProps v) target.

(** [String(v)] *)
Fixpoint jsToString (v : JsVal) : string :=
  match v with
  | JsUndefined => "undefined"
  | JsNull => "null"
  | JsBool true => "true"
  | JsBool false => "false"
  | JsNum z => pretty z
  | JsStr s => s
  | JsArr items =>
      let elem x :=
        match x with JsUndefined | JsNull => "" | _ => jsToString x end in
      (fix join (l : list JsVal) : string :=
         match l with
         | [] => ""
         | [x] => elem x
         | x :: rest => elem x +:+ "," +:+ join rest
         end) items
  | JsObj _ => "[object Object]"
  end.

(** [error instanceof Error ? error : new Error(String(error))] *)
Definition typedError (t : Thrown) : JsError :=
  match t with
  | ThrownError e => e
  | ThrownValue v => Error (jsToString v)
  end.

(** A [timeout?: number] argument as the value it is. *)
Definition optNum (o : option Z) : JsVal :=
  match o with Some z => JsNum z | None => JsUndefined end.


(** ** Data model ([lib/types.ts]) *)

(** [ClientIdentifier = string] *)
Abbreviation ClientIdentifier := string.

(** Transports and timers are objects of the runtime; the model names each
    by a number that stands for its identity. *)
Abbreviation TransportRef := nat.
Abbreviation TimerHandle := nat.

(** An SDK [Client]: [new Client({ name, version }, options)].  [client_ref]
    is the identity of the object, new at every [new]. *)
Record Client : Type := {
  client_ref : nat;
  client_name : string;
  client_version : string;
  client_options : list (string * JsVal)
}.

(** [interface ClientInfo] *)
Record ClientInfo : Type := {
  client : Client;
  serverName : string;
  transport : TransportRef;
  connected : bool;
  error : option JsError
}.

(** [clientInfo.error = e] *)
Definition withError (e : option JsError) (info : ClientInfo) : ClientInfo :=
  {| client := client info; serverName := serverName info;
     transport := transport info; connected := connected info; error := e |}.

(** [clientInfo.connected = b] *)
Definition withConnected (b : bool) (info : ClientInfo) : ClientInfo :=
  {| client := client info; serverName := serverName info;
     transport := transport info; connected := b; error := error info |}.

(** [clientInfo.client = c] *)
Definition withClient (c : Client) (info : ClientInfo) : ClientInfo :=
  {| client := c; serverName := serverName info;
     transport := transport info; connected := connected info;
     error := error info |}.

(** [interface MCPClientManagerEvents]: what [this.emit] publishes. *)
Inductive Event : Type :=
| serverAdded (clientId : string) (name : string)
| connectionError (name : string) (e : JsError)
| transportError (clientId : string) (name : string) (e : JsError)
| transportClosed (clientId : string) (name : string)
| clientReconnected (clientId : string) (name : string)
| reconnectionError (clientId : string) (e : JsError)
| closeError (clientId : string) (e : JsError)
| clientRemoved (clientId : string) (name : string)
| operationError (operation : string) (clientId : string) (name : string)
    (e : JsError).

(** [interface MCPClientManagerConfig]: every field is optional. *)
Record MCPClientManagerConfig : Type := {
  defaultTimeout : option Z;
  autoReconnect : option bool;
  maxReconnectAttempts : option Z;
  reconnectDelay : option Z;
  debug : option bool
}.

(** The constructor's argument, [Partial<MCPClientManagerConfig>]: a key is
    absent ([None]) or present, and a present key may hold [undefined]. *)
Record PartialConfig : Type := {
  given_defaultTimeout : option (option Z);
  given_autoReconnect : option (option bool);
  given_maxReconnectAttempts : option (option Z);
  given_reconnectDelay : option (option Z);
  given_debug : option (option bool)
}.

Definition DEFAULT_MANAGER_CONFIG : MCPClientManagerConfig :=
  {| defaultTimeout := Some 30000;
     autoReconnect := Some false;
     maxReconnectAttempts := Some 3;
     reconnectDelay := Some 5000;
     debug := Some false |}.

Definition DEFAULT_CLIENT_CONFIG : list (string * JsVal) :=
  [("capabilities",
    JsObj [("prompts", JsObj []); ("resources", JsObj []); ("tools", JsObj [])])].

(** One key of [{ ...DEFAULT_MANAGER_CONFIG, ...config }]. *)
Definition overridden {A : Type} (default : A) (given : option A) : A :=
  match given with Some v => v | None => default end.

(** [this.config = { ...DEFAULT_MANAGER_CONFIG, ...config }] *)
Definition mergeConfig (given : PartialConfig) : MCPClientManagerConfig :=
  {| defaultTimeout :=
       overridden (defaultTimeout DEFAULT_MANAGER_CONFIG) (given_defaultTimeout given);
     autoReconnect :=
       overridden (autoReconnect DEFAULT_MANAGER_CONFIG) (given_autoReconnect given);
     maxReconnectAttempts :=
       overridden (maxReconnectAttempts DEFAULT_MANAGER_CONFIG)
         (given_maxReconnectAttempts given);
     reconnectDelay :=
       overridden (reconnectDelay DEFAULT_MANAGER_CONFIG) (given_reconnectDelay given);
     debug := overridden (debug DEFAULT_MANAGER_CONFIG) (given_debug given) |}.

(** [config = {}], the default of the constructor's parameter. *)
Definition noConfig : PartialConfig :=
  {| given_defaultTimeout := None; given_autoReconnect := None;
     given_maxReconnectAttempts := None; given_reconnectDelay := None;
     given_debug := None |}.

(** ** The [Map] and the [Set] of the manager *)

(** A JavaScript [Map] keeps its entries in insertion order, and the fan-out
    loops iterate in that order: an association list with unique keys. *)
Section JsMap.
Context {V : Type}.

(** [map.get(k)] *)
Fixpoint mapGet (m : list (string * V)) (k : string) : option V :=
  match m with
  | [] => None
  | (k', v) :: rest => if String.eqb k' k then Some v else mapGet rest k
  end.

(** [map.set(k, v)]: a present key keeps its position. *)
Fixpoint mapSet (m : list (string * V)) (k : string) (v : V)
  : list (string * V) :=
  match m with
  | [] => [(k, v)]
  | (k', v') :: rest =>
      if String.eqb k' k then (k, v) :: rest else (k', v') :: mapSet rest k v
  end.

(** [map.delete(k)], the map that is left. *)
Definition mapDelete (m : list (string * V)) (k : string) : list (string * V) :=
  filter (fun kv => fst kv ≠ k) m.

(** [map.has(k)], also the boolean that [map.delete(k)] returns. *)
Definition mapHas (m : list (string * V)) (k : string) : bool :=
  match mapGet m k with Some _ => true | None => false end.
End JsMap.

(** [set.has(x)] on a [Set<string>] kept in insertion order. *)
Definition setHas (s : list string) (x : string) : bool :=
  existsb (String.eqb x) s.

(** [set.add(x)] *)
Definition setAdd (s : list string) (x : string) : list string :=
  if setHas s x then s else s ++ [x].

(** [set.delete(x)] *)
Definition setDelete (s : list string) (x : string) : list string :=
  filter (fun y => y ≠ x) s.

(** ** The environment *)

(** The SDK and the transports, as far as the manager sees them.  A
    [Client] is made anew for every connect, so successive attempts on one
    transport can settle differently. *)
Record Sdk : Type := {
  (** [await client.connect(transport)] *)
  sdk_connect : Client → TransportRef → Outcome unit;
  (** [await client.<method>(params)] for the six remote operations *)
  sdk_request : Client → string → JsVal → Outcome JsVal;
  (** [transport.close()]: [Some t] when the call itself throws [t] *)
  sdk_close : TransportRef → option Thrown
}.

(** ** The manager *)

(** The private fields of [class MCPClientManager].  [nextClientId] is a
    JavaScript number that only ever counts up from 1 by 1; it is modelled
    exactly, as a natural number. *)
Record Manager : Type := {
  clients : list (ClientIdentifier * ClientInfo);
  serverNames : list string;
  nextClientId : N;
  config : MCPClientManagerConfig;
  reconnectTimers : gmap ClientIdentifier TimerHandle
}.

(** [new MCPClientManager(config)] *)
Definition newManager (given : PartialConfig) : Manager :=
  {| clients := []; serverNames := []; nextClientId := 1%N;
     config := mergeConfig given; reconnectTimers := ∅ |}.

(** ** Fan-out query engine *)

(** One remote call of a fan-out pass: the record it went to, the SDK
    method and the request object. *)
Record Call : Type := {
  call_client : ClientIdentifier;
  call_method : string;
  call_params : JsVal
}.

(** A finished query: how it completed, the events it emitted, the remote
    calls it made, both in order, and the [clients] map it leaves. *)
Record Run (A : Type) : Type := {
  outcome : Completion A;
  emitted : list Event;
  invoked : list Call;
  store : list (ClientIdentifier * ClientInfo)
}.
Arguments outcome {A} r.
Arguments emitted {A} r.
Arguments invoked {A} r.
Arguments store {A} r.

(** Sequencing of expressions that may throw. *)
Definition andThen {A B : Type} (o : Outcome A) (k : A → Outcome B) : Outcome B :=
  match o with
  | Resolved a => k a
  | Rejected t => Rejected t
  end.

(** [Array.isArray(v) ? v : nothing] *)
Definition arrayItems (v : JsVal) : option (list JsVal) :=
  match v with JsArr items => Some items | _ => None end.

(** [Array.isArray(response.field)] and the array, as [listPrompts] and
    [listResources] test it: the property read throws on a missing
    response. *)
Definition listed (field : string) (response : JsVal)
  : Outcome (option (list JsVal)) :=
  andThen (getProp response field) (fun v => Resolved (arrayItems v)).

(** [response && Array.isArray(response.field)], as [listTools] tests it. *)
Definition listedGuarded (field : string) (response : JsVal)
  : Outcome (option (list JsVal)) :=
  if truthy response then listed field response else Resolved None.

(** The local variables of an aggregating query while it loops, and the
    entries of [this.clients] as the loop leaves them. *)
Record Pass : Type := {
  allItems : list JsVal;
  errors : list (ClientIdentifier * JsError);
  pass_emitted : list Event;
  pass_invoked : list Call;
  pass_store : list (ClientIdentifier * ClientInfo)
}.

Definition emptyPass : Pass :=
  {| allItems := []; errors := []; pass_emitted := []; pass_invoked := [];
     pass_store := [] |}.

Section FanOut.
Context (sdk : Sdk).

(** The [try] block of an aggregating loop: the remote call, then the
    look at the response. *)
Definition tryList (operation : string) (params : JsVal)
    (found : JsVal → Outcome (option (list JsVal))) (info : ClientInfo)
  : Outcome (option (list JsVal)) :=
  andThen (sdk_request sdk (client info) operation params) found.

(** The body of [for (const [id, clientInfo] of this.clients.entries())]
    in [listPrompts], [listResources] and [listTools]. *)
Definition aggregateStep (operation : string) (params : JsVal)
    (found : JsVal → Outcome (option (list JsVal)))
    (p : Pass) (entry : ClientIdentifier * ClientInfo) : Pass :=
  let (id, clientInfo) := entry in
  if negb (connected clientInfo) then
    (* continue: skip disconnected clients *)
    {| allItems := allItems p; errors := errors p;
       pass_emitted := pass_emitted p; pass_invoked := pass_invoked p;
       pass_store := pass_store p ++ [entry] |}
  else
    let call := {| call_client := id; call_method := operation;
                   call_params := params |} in
    match tryList operation params found clientInfo with
    | Resolved (Some items) =>
        {| allItems := allItems p ++ items; errors := errors p;
           pass_emitted := pass_emitted p;
           pass_invoked := pass_invoked p ++ [call];
           pass_store := pass_store p ++ [entry] |}
    | Resolved None =>
        {| allItems := allItems p; errors := errors p;
           pass_emitted := pass_emitted p;
           pass_invoked := pass_invoked p ++ [call];
           pass_store := pass_store p ++ [entry] |}
    | Rejected t =>
        let e := typedError t in
        {| allItems := allItems p;
           errors := errors p ++ [(id, e)];
           pass_emitted :=
             pass_emitted p ++ [operationError operation id (serverName clientInfo) e];
           pass_invoked := pass_invoked p ++ [call];
           pass_store := pass_store p ++ [(id, withError (Some e) clientInfo)] |}
    end.

(** An aggregating query after its parameters are fixed: the loop, then
    [if (errors.length > 0 && all.length === 0) throw new AggregateError(
    errors.map(e => e.error), failed); return all]. *)
Definition aggregate (operation : string) (params : JsVal)
    (found : JsVal → Outcome (option (list JsVal))) (failed : string)
    (m : Manager) : Run (list JsVal) :=
  let p := fold_left (aggregateStep operation params found) (clients m) emptyPass in
  {| outcome :=
       if (0 <? length (errors p))%nat && (length (allItems p) =? 0)%nat
       then Throw (AggregateError (map snd (errors p)) failed)
       else Return (allItems p);
     emitted := pass_emitted p;
     invoked := pass_invoked p;
     store := pass_store p |}.

(** [timeout || this.config.defaultTimeout] *)
Definition effectiveTimeout (m : Manager) (timeout : option Z) : JsVal :=
  jsOr (optNum timeout) (optNum (defaultTimeout (config m))).

Definition listPrompts (m : Manager) (timeout : option Z) : Run (list JsVal) :=
  aggregate "listPrompts" (JsObj [("timeout", effectiveTimeout m timeout)])
    (listed "prompts") "Failed to list prompts from all clients" m.

Definition listResources (m : Manager) (timeout : option Z) : Run (list JsVal) :=
  aggregate "listResources" (JsObj [("timeout", effectiveTimeout m timeout)])
    (listed "resources") "Failed to list resources from all clients" m.

Definition listTools (m : Manager) (timeout : option Z) : Run (list JsVal) :=
  aggregate "listTools" (JsObj [("timeout", effectiveTimeout m timeout)])
    (listedGuarded "tools") "Failed to list tools from all clients" m.

(** The [try] block of a first-responder loop: the remote call, then what
    is made of the response before it is returned. *)
Definition tryFirst (operation : string) (params : JsVal)
    (shape : JsVal → Outcome JsVal) (info : ClientInfo) : Outcome JsVal :=
  andThen (sdk_request sdk (client info) operation params) shape.

(** The loop of [getPrompt], [readResource] and [callTool] with its local
    [errors], and the [throw new AggregateError(errors.map(e => e.error),
    notFound)] after it.  A [return] inside the loop ends the method. *)
Fixpoint firstResponder (operation : string) (params : JsVal)
    (shape : JsVal → Outcome JsVal) (notFound : string)
    (entries : list (ClientIdentifier * ClientInfo))
    (errs : list (ClientIdentifier * JsError))
    (events : list Event) (made : list Call)
  : Completion JsVal * list Event * list Call :=
  match entries with
  | [] => (Throw (AggregateError (map snd errs) notFound), events, made)
  | (id, clientInfo) :: rest =>
      if negb (connected clientInfo) then
        firstResponder operation params shape notFound rest errs events made
      else
        let call := {| call_client := id; call_method := operation;
                       call_params := params |} in
        match tryFirst operation params shape clientInfo with
        | Resolved v => (Return v, events, made ++ [call])
        | Rejected t =>
            let e := typedError t in
            firstResponder operation params shape notFound rest
              (errs ++ [(id, e)])
              (events ++ [operationError operation id (serverName clientInfo) e])
              (made ++ [call])
        end
  end.

Definition firstOf (operation : string) (params : JsVal)
    (shape : JsVal → Outcome JsVal) (notFound : string) (m : Manager)
  : Run JsVal :=
  let '(r, events, made) :=
    firstResponder operation params shape notFound (clients m) [] [] [] in
  {| outcome := r; emitted := events; invoked := made; store := clients m |}.

(** The timeout that [getPrompt] leaves in [args]:
    [if (timeout) args.timeout = timeout; else if
    (this.config.defaultTimeout && !args.timeout) args.timeout =
    this.config.defaultTimeout]. *)
Definition promptArgs (m : Manager) (args : list (string * JsVal))
    (timeout : option Z) : list (string * JsVal) :=
  if truthy (optNum timeout) then propSet args "timeout" (optNum timeout)
  else if truthy (optNum (defaultTimeout (config m)))
          && negb (truthy (propGet args "timeout"))
  then propSet args "timeout" (optNum (defaultTimeout (config m)))
  else args.

(** [{ name: promptName, ...args }] *)
Definition promptRequest (m : Manager) (promptName : string)
    (args : list (string * JsVal)) (timeout : option Z) : JsVal :=
  JsObj (spread [("name", JsStr promptName)] (JsObj (promptArgs m args timeout))).

Definition getPrompt (m : Manager) (promptName : string)
    (args : list (string * JsVal)) (timeout : option Z) : Run JsVal :=
  firstOf "getPrompt" (promptRequest m promptName args timeout) Resolved
    ("Prompt " +:+ dquote +:+ promptName +:+ dquote +:+ " not found in any client")
    m.

(** [options], with [timeout] only [if (timeout ||
    this.config.defaultTimeout)]. *)
Definition resourceOptions (m : Manager) (timeout : option Z)
  : list (string * JsVal) :=
  if truthy (effectiveTimeout m timeout)
  then [("timeout", effectiveTimeout m timeout)] else [].

(** [{ uri: resourceUri, ...options }] *)
Definition resourceRequest (m : Manager) (resourceUri : string)
    (timeout : option Z) : JsVal :=
  JsObj (spread [("uri", JsStr resourceUri)] (JsObj (resourceOptions m timeout))).

Definition readResource (m : Manager) (resourceUri : string)
    (timeout : option Z) : Run JsVal :=
  firstOf "readResource" (resourceRequest m resourceUri timeout) Resolved
    ("Resource " +:+ dquote +:+ resourceUri +:+ dquote +:+ " not found in any client")
    m.

(** [toolRequest]: [{ name, arguments }], and [_meta.timeout] only [if
    (timeout || this.config.defaultTimeout)]. *)
Definition toolRequest (m : Manager) (toolName : string)
    (args : list (string * JsVal)) (timeout : option Z) : JsVal :=
  let request := [("name", JsStr toolName); ("arguments", JsObj args)] in
  if truthy (effectiveTimeout m timeout)
  then JsObj (propSet request "_meta"
                (JsObj (propSet (ownProps (jsOr (propGet request "_meta") (JsObj [])))
                          "timeout" (effectiveTimeout m timeout))))
  else JsObj request.

(** [{ result: result.result, ...result }] *)
Definition toolResponse (result : JsVal) : Outcome JsVal :=
  andThen (getProp result "result")
    (fun r => Resolved (JsObj (spread [("result", r)] result))).

Definition callTool (m : Manager) (toolName : string)
    (args : list (string * JsVal)) (timeout : option Z) : Run JsVal :=
  firstOf "callTool" (toolRequest m toolName args timeout) toolResponse
    ("Tool " +:+ dquote +:+ toolName +:+ dquote +:+ " not found in any client")
    m.
End FanOut.

(** ** Lifecycle manager *)

(** A hook slot of a transport ([transport.onerror], [transport.onclose]):
    undefined, a handler of somebody else, or the closure that
    [setupTransportErrorHandling] installs, which captures [clientId] and
    [serverName]. *)
Inductive Hook : Type :=
| NoHook
| ForeignHook
| ManagerHook (clientId : ClientIdentifier) (name : string).

Record TransportHooks : Type := {
  onerror : Hook;
  onclose : Hook
}.

(** The manager together with the objects of the runtime it works on: the
    hook slots of the transports it was given (a transport that is not in
    the map has both slots undefined), the callbacks that [setTimeout] holds
    with the [clientId] and [attemptCount] they capture, the identities the
    next timer and the next [Client] get, and everything emitted so far. *)
Record World : Type := {
  manager : Manager;
  transports : gmap TransportRef TransportHooks;
  timers : gmap TimerHandle (ClientIdentifier * Z);
  nextTimer : TimerHandle;
  nextClient : nat;
  published : list Event
}.

Definition setClients (cs : list (ClientIdentifier * ClientInfo)) (m : Manager)
  : Manager :=
  {| clients := cs; serverNames := serverNames m;
     nextClientId := nextClientId m; config := config m;
     reconnectTimers := reconnectTimers m |}.

Definition setServerNames (names : list string) (m : Manager) : Manager :=
  {| clients := clients m; serverNames := names;
     nextClientId := nextClientId m; config := config m;
     reconnectTimers := reconnectTimers m |}.

Definition setNextClientId (n : N) (m : Manager) : Manager :=
  {| clients := clients m; serverNames := serverNames m;
     nextClientId := n; config := config m;
     reconnectTimers := reconnectTimers m |}.

Definition setReconnectTimers (ts : gmap ClientIdentifier TimerHandle)
    (m : Manager) : Manager :=
  {| clients := clients m; serverNames := serverNames m;
     nextClientId := nextClientId m; config := config m;
     reconnectTimers := ts |}.

Definition setManager (m : Manager) (w : World) : World :=
  {| manager := m; transports := transports w; timers := timers w;
     nextTimer := nextTimer w; nextClient := nextClient w;
     published := published w |}.

Definition setTransports (ts : gmap TransportRef TransportHooks) (w : World)
  : World :=
  {| manager := manager w; transports := ts; timers := timers w;
     nextTimer := nextTimer w; nextClient := nextClient w;
     published := published w |}.

Definition setTimers (ts : gmap TimerHandle (ClientIdentifier * Z)) (w : World)
  : World :=
  {| manager := manager w; transports := transports w; timers := ts;
     nextTimer := nextTimer w; nextClient := nextClient w;
     published := published w |}.

(** [this.emit(event, payload)] *)
Definition emit (e : Event) (w : World) : World :=
  {| manager := manager w; transports := transports w; timers := timers w;
     nextTimer := nextTimer w; nextClient := nextClient w;
     published := published w ++ [e] |}.

(** [new Client({ name: `${serverName}-client`, version: "1.0.0" },
    options)]: the new object and the world that has it. *)
Definition newClient (name : string) (options : list (string * JsVal))
    (w : World) : Client * World :=
  ({| client_ref := nextClient w; client_name := name +:+ "-client";
      client_version := "1.0.0"; client_options := options |},
   {| manager := manager w; transports := transports w; timers := timers w;
      nextTimer := nextTimer w; nextClient := S (nextClient w);
      published := published w |}).

(** [clearTimeout(timer)]: the callback will not run; no effect on a timer
    that has fired or was cleared. *)
Definition clearTimeout (timer : TimerHandle) (w : World) : World :=
  setTimers (delete timer (timers w)) w.

(** [setTimeout(callback, delay)] for the callback of [scheduleReconnect]:
    the new handle and the world in which the callback is pending.  When it
    runs is up to the runtime. *)
Definition setTimeout (clientId : ClientIdentifier) (attemptCount : Z)
    (w : World) : TimerHandle * World :=
  (nextTimer w,
   {| manager := manager w; transports := transports w;
      timers := <[nextTimer w := (clientId, attemptCount)]> (timers w);
      nextTimer := S (nextTimer w); nextClient := nextClient w;
      published := published w |}).

(** The two slots of a transport. *)
Definition hooksOf (w : World) (t : TransportRef) : TransportHooks :=
  default {| onerror := NoHook; onclose := NoHook |} (transports w !! t).

(** [x || 0] on an optional number *)
Definition orZero (x : option Z) : Z :=
  match x with Some z => z | None => 0 end.

(** Truth of an optional boolean, as [if (this.config.autoReconnect)]. *)
Definition enabled (b : option bool) : bool :=
  match b with Some true => true | _ => false end.

(** [`client-${n}`] *)
Definition clientIdOf (n : N) : ClientIdentifier := "client-" +:+ pretty n.

(** [{ ...DEFAULT_CLIENT_CONFIG, ...clientConfig }] *)
Definition mergeClientConfig (clientConfig : list (string * JsVal))
  : list (string * JsVal) :=
  spread (spread [] (JsObj DEFAULT_CLIENT_CONFIG)) (JsObj clientConfig).

Section Lifecycle.
Context (sdk : Sdk).

(** [setupTransportErrorHandling]: each handler is installed only where
    the slot is undefined. *)
Definition setupTransportErrorHandling (t : TransportRef)
    (clientId : ClientIdentifier) (name : string) (w : World) : World :=
  let h := hooksOf w t in
  let h1 :=
    match onerror h with
    | NoHook => {| onerror := ManagerHook clientId name; onclose := onclose h |}
    | _ => h
    end in
  let h2 :=
    match onclose h1 with
    | NoHook => {| onerror := onerror h1; onclose := ManagerHook clientId name |}
    | _ => h1
    end in
  setTransports (<[t := h2]> (transports w)) w.

(** [scheduleReconnect(clientId, attemptCount)].  A timer handle is an
    object or a positive number: [if (existingTimer)] holds for every
    handle the map has. *)
Definition scheduleReconnect (clientId : ClientIdentifier) (attemptCount : Z)
    (w : World) : World :=
  let w1 :=
    match reconnectTimers (manager w) !! clientId with
    | Some existingTimer => clearTimeout existingTimer w
    | None => w
    end in
  if attemptCount >=? orZero (maxReconnectAttempts (config (manager w1))) then w1
  else
    let (timer, w2) := setTimeout clientId attemptCount w1 in
    setManager
      (setReconnectTimers (<[clientId := timer]> (reconnectTimers (manager w2)))
         (manager w2)) w2.

(** [reconnectClient(clientId)].  The record is an object shared with the
    map: writing its fields is writing the entry, which keeps its place. *)
Definition reconnectClient (clientId : ClientIdentifier) (w : World)
  : bool * World :=
  match mapGet (clients (manager w)) clientId with
  | None => (false, w)
  | Some clientInfo =>
      if connected clientInfo then (true, w)
      else
        let (c, w1) := newClient (serverName clientInfo) DEFAULT_CLIENT_CONFIG w in
        let w2 :=
          setupTransportErrorHandling (transport clientInfo) clientId
            (serverName clientInfo) w1 in
        match sdk_connect sdk c (transport clientInfo) with
        | Resolved _ =>
            let updated :=
              withError None (withConnected true (withClient c clientInfo)) in
            let w3 :=
              setManager
                (setClients (mapSet (clients (manager w2)) clientId updated)
                   (manager w2)) w2 in
            (true, emit (clientReconnected clientId (serverName clientInfo)) w3)
        | Rejected t =>
            (false, emit (reconnectionError clientId (typedError t)) w2)
        end
  end.

(** The callback that [scheduleReconnect] hands to [setTimeout].  Its
    [catch] is for a [reconnectClient] that throws, which it never does. *)
Definition reconnectCallback (clientId : ClientIdentifier) (attemptCount : Z)
    (w : World) : World :=
  let (success, w1) := reconnectClient clientId w in
  if negb success && enabled (autoReconnect (config (manager w1)))
  then scheduleReconnect clientId (attemptCount + 1) w1
  else w1.

(** The [transport.onerror] closure of [setupTransportErrorHandling]. *)
Definition onerrorHandler (clientId : ClientIdentifier) (name : string)
    (e : JsError) (w : World) : World :=
  match mapGet (clients (manager w)) clientId with
  | Some clientInfo =>
      let w1 :=
        setManager
          (setClients
             (mapSet (clients (manager w)) clientId (withError (Some e) clientInfo))
             (manager w)) w in
      emit (transportError clientId name e) w1
  | None => w
  end.

(** The [transport.onclose] closure of [setupTransportErrorHandling]. *)
Definition oncloseHandler (clientId : ClientIdentifier) (name : string)
    (w : World) : World :=
  match mapGet (clients (manager w)) clientId with
  | Some clientInfo =>
      let w1 :=
        setManager
          (setClients
             (mapSet (clients (manager w)) clientId (withConnected false clientInfo))
             (manager w)) w in
      let w2 := emit (transportClosed clientId name) w1 in
      if enabled (autoReconnect (config (manager w2)))
      then scheduleReconnect clientId 0 w2
      else w2
  | None => w
  end.

(** [addServer(transport, serverName, clientConfig)] *)
Definition addServer (t : TransportRef) (name : string)
    (clientConfig : list (string * JsVal)) (w : World)
  : Completion ClientIdentifier * World :=
  if setHas (serverNames (manager w)) name then
    (Throw (Error ("Server " +:+ dquote +:+ name +:+ dquote
                   +:+ " already exists. Each server must have a unique name.")),
     w)
  else
    (* const clientId = `client-${this.nextClientId++}` *)
    let clientId := clientIdOf (nextClientId (manager w)) in
    let w1 :=
      setManager (setNextClientId (N.succ (nextClientId (manager w))) (manager w)) w in
    let mergedConfig := mergeClientConfig clientConfig in
    let (c, w2) := newClient name mergedConfig w1 in
    let w3 := setupTransportErrorHandling t clientId name w2 in
    match sdk_connect sdk c t with
    | Resolved _ =>
        let clientInfo :=
          {| client := c; serverName := name; transport := t;
             connected := true; error := None |} in
        let w4 :=
          setManager
            (setServerNames (setAdd (serverNames (manager w3)) name)
               (setClients (mapSet (clients (manager w3)) clientId clientInfo)
                  (manager w3))) w3 in
        (Return clientId, emit (serverAdded clientId name) w4)
    | Rejected e =>
        (Throw (typedError e), emit (connectionError name (typedError e)) w3)
    end.

(** [removeClient(id)] *)
Definition removeClient (id : ClientIdentifier) (w : World) : bool * World :=
  match mapGet (clients (manager w)) id with
  | None => (false, w)
  | Some clientInfo =>
      let w1 :=
        match reconnectTimers (manager w) !! id with
        | Some reconnectTimer =>
            let w' := clearTimeout reconnectTimer w in
            setManager
              (setReconnectTimers (delete id (reconnectTimers (manager w')))
                 (manager w')) w'
        | None => w
        end in
      let w2 :=
        setManager
          (setServerNames (setDelete (serverNames (manager w1)) (serverName clientInfo))
             (manager w1)) w1 in
      let w3 :=
        if connected clientInfo then
          match sdk_close sdk (transport clientInfo) with
          | Some t => emit (closeError id (typedError t)) w2
          | None => w2
          end
        else w2 in
      let result := mapHas (clients (manager w3)) id in
      let w4 :=
        setManager (setClients (mapDelete (clients (manager w3)) id) (manager w3)) w3 in
      if result
      then (true, emit (clientRemoved id (serverName clientInfo)) w4)
      else (false, w4)
  end.

(** [isClientHealthy(clientId)] *)
Definition isClientHealthy (clientId : ClientIdentifier) (w : World) : bool :=
  match mapGet (clients (manager w)) clientId with
  | Some clientInfo =>
      connected clientInfo
      && match error clientInfo with None => true | Some _ => false end
  | None => false
  end.

(** [hasServer(serverName)] *)
Definition hasServer (name : string) (w : World) : bool :=
  setHas (serverNames (manager w)) name.

(** [listClientIds()] *)
Definition listClientIds (w : World) : list ClientIdentifier :=
  map fst (clients (manager w)).
End Lifecycle.

(** ** Targeted single-client queries *)

Section Targeted.
Context (sdk : Sdk).

(** [getClientTools], [getClientResources] and [getClientPrompts] after
    their names are fixed: the event names the method of the manager, the
    remote call the method of the SDK. *)
Definition clientList (operation method : string)
    (found : JsVal → Outcome (option (list JsVal)))
    (m : Manager) (clientId : ClientIdentifier) (timeout : option Z)
  : Run (list JsVal) :=
  match mapGet (clients m) clientId with
  | None =>
      {| outcome :=
           Throw (Error ("Client with ID " +:+ dquote +:+ clientId +:+ dquote
                         +:+ " not found"));
         emitted := []; invoked := []; store := clients m |}
  | Some clientInfo =>
      if negb (connected clientInfo) then
        {| outcome :=
             Throw (Error ("Client with ID " +:+ dquote +:+ clientId +:+ dquote
                           +:+ " is not connected"));
           emitted := []; invoked := []; store := clients m |}
      else
        let params := JsObj [("timeout", effectiveTimeout m timeout)] in
        let call := {| call_client := clientId; call_method := method;
                       call_params := params |} in
        match tryList sdk method params found clientInfo with
        | Resolved (Some items) =>
            {| outcome := Return items; emitted := []; invoked := [call];
               store := clients m |}
        | Resolved None =>
            {| outcome := Return []; emitted := []; invoked := [call];
               store := clients m |}
        | Rejected t =>
            let e := typedError t in
            {| outcome := Throw e;
               emitted := [operationError operation clientId (serverName clientInfo) e];
               invoked := [call];
               store := mapSet (clients m) clientId (withError (Some e) clientInfo) |}
        end
  end.

Definition getClientTools :=
  clientList "getClientTools" "listTools" (listedGuarded "tools").

Definition getClientResources :=
  clientList "getClientResources" "listResources" (listed "resources").

Definition getClientPrompts :=
  clientList "getClientPrompts" "listPrompts" (listed "prompts").
End Targeted.

(** ** The manager under its callers and its runtime *)

(** The three aggregating queries. *)
Inductive Aggregating : Type :=
| ListPrompts
| ListResources
| ListTools.

(** The three first-responder queries with their target. *)
Inductive FirstResponder : Type :=
| GetPrompt (promptName : string) (args : list (string * JsVal))
| ReadResource (resourceUri : string)
| CallTool (toolName : string) (args : list (string * JsVal)).

(** The three targeted queries. *)
Inductive Targeted : Type :=
| GetClientTools
| GetClientResources
| GetClientPrompts.

(** What can happen to a manager: a caller invokes a method, a transport
    invokes one of its hooks, the runtime runs a pending timer. *)
Inductive Task : Type :=
| AddServer (t : TransportRef) (name : string)
    (clientConfig : list (string * JsVal))
| ReconnectClient (id : ClientIdentifier)
| RemoveClient (id : ClientIdentifier)
| Aggregate (q : Aggregating) (timeout : option Z)
| First (q : FirstResponder) (timeout : option Z)
| Target (q : Targeted) (id : ClientIdentifier) (timeout : option Z)
| TransportError (t : TransportRef) (e : JsError)
| TransportClose (t : TransportRef)
| TimerFires (timer : TimerHandle).

(** The world after a query: the records it wrote to and its events. *)
Definition settle {A : Type} (r : Run A) (w : World) : World :=
  {| manager := setClients (store r) (manager w);
     transports := transports w; timers := timers w;
     nextTimer := nextTimer w; nextClient := nextClient w;
     published := published w ++ emitted r |}.

Section Tasks.
Context (sdk : Sdk).

Definition runAggregating (q : Aggregating) (m : Manager) (timeout : option Z)
  : Run (list JsVal) :=
  match q with
  | ListPrompts => listPrompts sdk m timeout
  | ListResources => listResources sdk m timeout
  | ListTools => listTools sdk m timeout
  end.

Definition runFirst (q : FirstResponder) (m : Manager) (timeout : option Z)
  : Run JsVal :=
  match q with
  | GetPrompt promptName args => getPrompt sdk m promptName args timeout
  | ReadResource resourceUri => readResource sdk m resourceUri timeout
  | CallTool toolName args => callTool sdk m toolName args timeout
  end.

Definition runTargeted (q : Targeted) (m : Manager) (id : ClientIdentifier)
    (timeout : option Z) : Run (list JsVal) :=
  match q with
  | GetClientTools => getClientTools sdk m id timeout
  | GetClientResources => getClientResources sdk m id timeout
  | GetClientPrompts => getClientPrompts sdk m id timeout
  end.

(** One task, run to completion. *)
Definition run (task : Task) (w : World) : World :=
  match task with
  | AddServer t name clientConfig => snd (addServer sdk t name clientConfig w)
  | ReconnectClient id => snd (reconnectClient sdk id w)
  | RemoveClient id => snd (removeClient sdk id w)
  | Aggregate q timeout => settle (runAggregating q (manager w) timeout) w
  | First q timeout => settle (runFirst q (manager w) timeout) w
  | Target q id timeout => settle (runTargeted q (manager w) id timeout) w
  | TransportError t e =>
      match onerror (hooksOf w t) with
      | ManagerHook clientId name => onerrorHandler clientId name e w
      | _ => w
      end
  | TransportClose t =>
      match onclose (hooksOf w t) with
      | ManagerHook clientId name => oncloseHandler clientId name w
      | _ => w
      end
  | TimerFires timer =>
      match timers w !! timer with
      | Some (clientId, attemptCount) =>
          reconnectCallback sdk clientId attemptCount
            (setTimers (delete timer (timers w)) w)
      | None => w
      end
  end.

(** Tasks one after the other. *)
Definition runAll (tasks : list Task) (w : World) : World :=
  fold_left (fun w task => run task w) tasks w.
End Tasks.

(** The world of a manager that was just constructed; the transports its
    callers hold may have handlers of their own. *)
Definition newWorld (given : PartialConfig)
    (ts : gmap TransportRef TransportHooks) : World :=
  {| manager := newManager given; transports := ts; timers := ∅;
     nextTimer := 1%nat; nextClient := 0%nat; published := [] |}.

(** The worlds a manager can be in. *)
Inductive reachable (sdk : Sdk) : World → Prop :=
| reachable_new given ts : reachable sdk (newWorld given ts)
| reachable_run task w : reachable sdk w → reachable sdk (run sdk task w).


(** ** Query helpers of the manager *)

(** What [getClientInfo] returns: the record without its client. *)
Record ClientView : Type := {
  view_serverName : string;
  view_transport : TransportRef;
  view_connected : bool;
  view_error : option JsError
}.

(** [listServerNames()]: [Array.from(this.serverNames)] *)
Definition listServerNames (w : World) : list string :=
  serverNames (manager w).

(** [getClientInfo(id)] *)
Definition getClientInfo (id : ClientIdentifier) (w : World) : option ClientView :=
  match mapGet (clients (manager w)) id with
  | None => None
  | Some clientInfo =>
      Some {| view_serverName := serverName clientInfo;
              view_transport := transport clientInfo;
              view_connected := connected clientInfo;
              view_error := error clientInfo |}
  end.

(** The loop of [getClientIdByServerName]: the first entry with the name. *)
Fixpoint firstNamed (name : string) (entries : list (ClientIdentifier * ClientInfo))
  : option ClientIdentifier :=
  match entries with
  | [] => None
  | (id, info) :: rest =>
      if String.eqb (serverName info) name then Some id else firstNamed name rest
  end.

(** [getClientIdByServerName(serverName)] *)
Definition getClientIdByServerName (name : string) (w : World)
  : option ClientIdentifier :=
  firstNamed name (clients (manager w)).

(** [getClient(id)], private *)
Definition getClient (id : ClientIdentifier) (w : World) : option Client :=
  match mapGet (clients (manager w)) id with
  | Some clientInfo => Some (client clientInfo)
  | None => None
  end.
(** ** Vocabulary of the statements *)

(** The records a fan-out query is about: the connected ones, in the order
    of the map. *)
Definition connectedEntries (m : Manager) : list (ClientIdentifier * ClientInfo) :=
  filter (λ entry, connected entry.2) (clients m).

(** The error a failed attempt is recorded with. *)
Definition failure {A : Type} (o : Outcome A) : option JsError :=
  match o with
  | Rejected t => Some (typedError t)
  | Resolved _ => None
  end.

(** The items an attempt of an aggregating query contributes. *)
Definition gathered (o : Outcome (option (list JsVal))) : list JsVal :=
  match o with
  | Resolved (Some items) => items
  | _ => []
  end.

(** The entries whose attempt failed, each with its error, in order. *)
Definition failuresOf {A : Type} (answer : ClientInfo → Outcome A)
    (entries : list (ClientIdentifier * ClientInfo))
  : list (ClientIdentifier * ClientInfo * JsError) :=
  omap (λ entry, (λ e, (entry, e)) <$> failure (answer entry.2)) entries.

(** The [operationError] event of a failure. *)
Definition reported (operation : string)
    (f : ClientIdentifier * ClientInfo * JsError) : Event :=
  operationError operation f.1.1 (serverName f.1.2) f.2.

(** The remote call made at an entry. *)
Definition callTo (operation : string) (params : JsVal)
    (entry : ClientIdentifier * ClientInfo) : Call :=
  {| call_client := entry.1; call_method := operation; call_params := params |}.

(** What an aggregating loop does to an entry of the map. *)
Definition afterAttempt {A : Type} (answer : ClientInfo → Outcome A)
    (entry : ClientIdentifier * ClientInfo) : ClientIdentifier * ClientInfo :=
  if connected entry.2 then
    match failure (answer entry.2) with
    | Some e => (entry.1, withError (Some e) entry.2)
    | None => entry
    end
  else entry.

Definition aggregatingName (q : Aggregating) : string :=
  match q with
  | ListPrompts => "listPrompts"
  | ListResources => "listResources"
  | ListTools => "listTools"
  end.

Definition aggregatingFound (q : Aggregating)
  : JsVal → Outcome (option (list JsVal)) :=
  match q with
  | ListPrompts => listed "prompts"
  | ListResources => listed "resources"
  | ListTools => listedGuarded "tools"
  end.

Definition aggregatingFailed (q : Aggregating) : string :=
  match q with
  | ListPrompts => "Failed to list prompts from all clients"
  | ListResources => "Failed to list resources from all clients"
  | ListTools => "Failed to list tools from all clients"
  end.

(** The request object of an aggregating query. *)
Definition aggregatingParams (m : Manager) (timeout : option Z) : JsVal :=
  JsObj [("timeout", effectiveTimeout m timeout)].

(** The attempt of an aggregating query at one record: its [try] block. *)
Definition listAnswer (sdk : Sdk) (q : Aggregating) (m : Manager)
    (timeout : option Z) (info : ClientInfo) : Outcome (option (list JsVal)) :=
  tryList sdk (aggregatingName q) (aggregatingParams m timeout)
    (aggregatingFound q) info.

(** The union of what the connected records list, in visiting order. *)
Definition unionOf (sdk : Sdk) (q : Aggregating) (m : Manager)
    (timeout : option Z) : list JsVal :=
  concat (map (λ entry, gathered (listAnswer sdk q m timeout entry.2))
            (connectedEntries m)).

Definition firstName (q : FirstResponder) : string :=
  match q with
  | GetPrompt _ _ => "getPrompt"
  | ReadResource _ => "readResource"
  | CallTool _ _ => "callTool"
  end.

(** The name a first-responder query looks for. *)
Definition targetOf (q : FirstResponder) : string :=
  match q with
  | GetPrompt promptName _ => promptName
  | ReadResource resourceUri => resourceUri
  | CallTool toolName _ => toolName
  end.

Definition targetKind (q : FirstResponder) : string :=
  match q with
  | GetPrompt _ _ => "Prompt"
  | ReadResource _ => "Resource"
  | CallTool _ _ => "Tool"
  end.

(** The message of the aggregate error of a first-responder query. *)
Definition notFoundIn (q : FirstResponder) : string :=
  targetKind q +:+ " " +:+ dquote +:+ targetOf q +:+ dquote
  +:+ " not found in any client".

Definition firstParams (m : Manager) (q : FirstResponder) (timeout : option Z)
  : JsVal :=
  match q with
  | GetPrompt promptName args => promptRequest m promptName args timeout
  | ReadResource resourceUri => resourceRequest m resourceUri timeout
  | CallTool toolName args => toolRequest m toolName args timeout
  end.

Definition firstShape (q : FirstResponder) : JsVal → Outcome JsVal :=
  match q with
  | CallTool _ _ => toolResponse
  | _ => Resolved
  end.

(** The attempt of a first-responder query at one record: its [try]
    block. *)
Definition firstAnswer (sdk : Sdk) (q : FirstResponder) (m : Manager)
    (timeout : option Z) (info : ClientInfo) : Outcome JsVal :=
  tryFirst sdk (firstName q) (firstParams m q timeout) (firstShape q) info.

(** The timeout a request of a fan-out query carries. *)
Definition timeoutOfList (params : JsVal) : JsVal :=
  propGet (ownProps params) "timeout".

Definition timeoutOfFirst (q : FirstResponder) (params : JsVal) : JsVal :=
  match q with
  | CallTool _ _ => propGet (ownProps (propGet (ownProps params) "_meta")) "timeout"
  | _ => propGet (ownProps params) "timeout"
  end.

(** ** Vocabulary of the lifecycle statements *)

(** The handshake of [addServer(t, name, clientConfig)] in the world [w]:
    the connect of the client it makes. *)
Definition handshake (sdk : Sdk) (t : TransportRef) (name : string)
    (clientConfig : list (string * JsVal)) (w : World) : Outcome unit :=
  sdk_connect sdk (newClient name (mergeClientConfig clientConfig) w).1 t.

(** The connect that [reconnectClient] attempts for a record: a client
    made for it, on the transport the record has. *)
Definition reconnection (sdk : Sdk) (info : ClientInfo) (w : World) : Outcome unit :=
  sdk_connect sdk (newClient (serverName info) DEFAULT_CLIENT_CONFIG w).1
    (transport info).

(** The message of the error for a name that is taken. *)
Definition alreadyExists (name : string) : string :=
  "Server " +:+ dquote +:+ name +:+ dquote
  +:+ " already exists. Each server must have a unique name.".

(** [id] is one of the identifiers handed out so far. *)
Definition issued (n : N) (id : ClientIdentifier) : Prop :=
  ∃ k, id = clientIdOf k ∧ (k < n)%N.

(** The reconnect timers of the runtime are the ones the manager keeps:
    a pending callback for a record is the timer that [reconnectTimers] has
    for it, and its attempt is one that may still be made. *)
Definition tracked (w : World) : Prop :=
  ∀ h id a,
    timers w !! h = Some (id, a) →
    reconnectTimers (manager w) !! id = Some h
    ∧ (0 ≤ a < orZero (maxReconnectAttempts (config (manager w))))%Z.

(** What holds of every world a manager can be in. *)
Record consistent (w : World) : Prop := {
  keys_distinct : NoDup (map fst (clients (manager w)));
  keys_issued :
    Forall (issued (nextClientId (manager w))) (map fst (clients (manager w)));
  clients_made :
    Forall (λ entry : ClientIdentifier * ClientInfo,
              (client_ref (client entry.2) < nextClient w)%nat)
      (clients (manager w));
  timers_tracked : tracked w
}.

(** At most one reconnect timer is pending for the record. *)
Definition atMostOnePending (w : World) (id : ClientIdentifier) : Prop :=
  ∀ h1 h2 a1 a2,
    timers w !! h1 = Some (id, a1) → timers w !! h2 = Some (id, a2) → h1 = h2.

(** No reconnect timer is pending for the record. *)
Definition nonePending (w : World) (id : ClientIdentifier) : Prop :=
  ∀ h a, timers w !! h ≠ Some (id, a).

(** The reconnect attempts that the pending timer of the record and its
    successors can still make: [maxReconnectAttempts - attemptCount], and
    none without a pending timer. *)
Definition attemptsLeft (w : World) (id : ClientIdentifier) : nat :=
  match reconnectTimers (manager w) !! id with
  | Some h =>
      match timers w !! h with
      | Some (id', a) =>
          if bool_decide (id' = id)
          then Z.to_nat (orZero (maxReconnectAttempts (config (manager w))) - a)
          else 0%nat
      | None => 0%nat
      end
  | None => 0%nat
  end.

(** The task is the reconnect timer of the record going off. *)
Definition firesFor (id : ClientIdentifier) (task : Task) (w : World) : bool :=
  match task with
  | TimerFires h =>
      match timers w !! h with
      | Some (id', _) => bool_decide (id' = id)
      | None => false
      end
  | _ => false
  end.

(** The task is a disconnect of the record: a transport runs the
    [onclose] handler that was installed for it. *)
Definition disconnects (id : ClientIdentifier) (task : Task) (w : World) : bool :=
  match task with
  | TransportClose t =>
      match onclose (hooksOf w t) with
      | ManagerHook id' _ => bool_decide (id' = id)
      | _ => false
      end
  | _ => false
  end.

(** How often the reconnect timer of the record goes off during the
    tasks. *)
Fixpoint firings (sdk : Sdk) (id : ClientIdentifier) (tasks : list Task)
    (w : World) : nat :=
  match tasks with
  | [] => 0%nat
  | task :: rest =>
      ((if firesFor id task w then 1 else 0) + firings sdk id rest (run sdk task w))%nat
  end.

(** None of the tasks is a disconnect of the record. *)
Fixpoint undisturbed (sdk : Sdk) (id : ClientIdentifier) (tasks : list Task)
    (w : World) : bool :=
  match tasks with
  | [] => true
  | task :: rest =>
      negb (disconnects id task w) && undisturbed sdk id rest (run sdk task w)
  end.

(** The registry part of [consistent], on the three fields it is about. *)
Definition registry (cs : list (ClientIdentifier * ClientInfo)) (n : N) (c : nat)
  : Prop :=
  NoDup (map fst cs)
  ∧ Forall (issued n) (map fst cs)
  ∧ Forall (λ entry : ClientIdentifier * ClientInfo,
              (client_ref (client entry.2) < c)%nat) cs.

Definition registryOf (w : World) : Prop :=
  registry (clients (manager w)) (nextClientId (manager w)) (nextClient w).

(** The timers, the manager's map of them and the configuration are the
    same in both worlds. *)
Definition sameTimers (w w' : World) : Prop :=
  timers w' = timers w
  ∧ reconnectTimers (manager w') = reconnectTimers (manager w)
  ∧ config (manager w') = config (manager w).

(** ** Sample managers and servers *)


Definition sampleClient (ref : nat) (name : string) : Client :=
  {| client_ref := ref; client_name := name +:+ "-client";
     client_version := "1.0.0"; client_options := DEFAULT_CLIENT_CONFIG |}.

Definition sampleRecord (ref : nat) (name : string) (isConnected : bool)
  : ClientInfo :=
  {| client := sampleClient ref name; serverName := name; transport := ref;
     connected := isConnected; error := None |}.

(** A manager with two connected records, [alpha] before [beta]. *)
Definition alphaBeta : Manager :=
  setClients [("client-1", sampleRecord 1 "alpha" true);
              ("client-2", sampleRecord 2 "beta" true)]
    (setServerNames ["alpha"; "beta"] (setNextClientId 3%N (newManager noConfig))).

(** [alpha] answers every list request with an empty list, every other
    remote call of the two servers is rejected. *)
Definition emptyAlpha : Sdk :=
  {| sdk_connect := λ _ _, Resolved ();
     sdk_request := λ c method _,
       if (client_ref c =? 1)%nat then
         if String.eqb method "listPrompts" then Resolved (JsObj [("prompts", JsArr [])])
         else if String.eqb method "listResources" then Resolved (JsObj [("resources", JsArr [])])
         else if String.eqb method "listTools" then Resolved (JsObj [("tools", JsArr [])])
         else Rejected (ThrownError (Error "Method not found"))
       else Rejected (ThrownError (Error "Connection closed"));
     sdk_close := λ _, None |}.

(** Only [beta] has the tool: [alpha] rejects every call. *)
Definition betaEchoes : Sdk :=
  {| sdk_connect := λ _ _, Resolved ();
     sdk_request := λ c method _,
       if (client_ref c =? 2)%nat && String.eqb method "callTool"
       then Resolved (JsObj [("content", JsArr [JsStr "hi"])])
       else Rejected (ThrownValue (JsStr "Method not found"));
     sdk_close := λ _, None |}.

(** [alpha] connected, [beta] disconnected. *)
Definition betaDown : Manager :=
  setClients [("client-1", sampleRecord 1 "alpha" true);
              ("client-2", sampleRecord 2 "beta" false)]
    alphaBeta.

(** Both records disconnected. *)
Definition bothDown : Manager :=
  setClients [("client-1", sampleRecord 1 "alpha" false);
              ("client-2", sampleRecord 2 "beta" false)]
    alphaBeta.

(** No server can be reached: every connect is rejected. *)
Definition unreachable : Sdk :=
  {| sdk_connect := λ _ _, Rejected (ThrownValue (JsStr "ECONNREFUSED"));
     sdk_request := λ _ _ _, Rejected (ThrownError (Error "Not connected"));
     sdk_close := λ _, None |}.

(** The world of the manager [alphaBeta], the transports [1] and [2]
    carrying the hooks of their records. *)
Definition alphaBetaWorld : World :=
  {| manager := alphaBeta;
     transports :=
       {[ 1%nat := {| onerror := ManagerHook "client-1" "alpha";
                      onclose := ManagerHook "client-1" "alpha" |};
          2%nat := {| onerror := ManagerHook "client-2" "beta";
                      onclose := ManagerHook "client-2" "beta" |} ]};
     timers := ∅; nextTimer := 1%nat; nextClient := 3%nat;
     published := [serverAdded "client-1" "alpha"; serverAdded "client-2" "beta"] |}.

(** Auto-reconnect with two attempts, 100 ms apart. *)
Definition twoAttempts : PartialConfig :=
  {| given_defaultTimeout := None;
     given_autoReconnect := Some (Some true);
     given_maxReconnectAttempts := Some (Some 2%Z);
     given_reconnectDelay := Some (Some 100%Z);
     given_debug := None |}.

(** A server that accepts the first client and then is gone. *)
Definition onlyOnce : Sdk :=
  {| sdk_connect := λ c _,
       if (client_ref c =? 0)%nat then Resolved ()
       else Rejected (ThrownError (Error "Connection closed"));
     sdk_request := λ _ _ _, Rejected (ThrownError (Error "Connection closed"));
     sdk_close := λ _, None |}.

(** The record that [addServer] makes for [name] with default options,
    with the client [ref] over the transport [t]. *)
Definition sampleRecordOf (ref : nat) (name : string) (t : TransportRef)
  : ClientInfo :=
  {| client := {| client_ref := ref; client_name := name +:+ "-client";
                  client_version := "1.0.0";
                  client_options := mergeClientConfig [] |};
     serverName := name; transport := t; connected := true; error := None |}.

(** [gamma] was added over the transport [9], which then closed. *)
Definition gammaClosed : World :=
  runAll onlyOnce [AddServer 9%nat "gamma" []; TransportClose 9%nat]
    (newWorld twoAttempts ∅).

(** ** The claims that fail, as they are stated *)

Definition returns_when_one_call_succeeds : Prop :=
  ∀ sdk q m timeout entry response,
    entry ∈ connectedEntries m →
    sdk_request sdk (client entry.2) (aggregatingName q) (aggregatingParams m timeout)
      = Resolved response →
    outcome (runAggregating sdk q m timeout) = Return (unionOf sdk q m timeout).

(** ** All six fan-out queries at once *)

Inductive FanOut : Type :=
| Collect (q : Aggregating)
| Resolve (q : FirstResponder).

(** The returned array as the value it is. *)
Definition asValue (r : Run (list JsVal)) : Run JsVal :=
  {| outcome :=
       match outcome r with
       | Return items => Return (JsArr items)
       | Throw e => Throw e
       end;
     emitted := emitted r; invoked := invoked r; store := store r |}.

Definition runFanOut (sdk : Sdk) (q : FanOut) (m : Manager) (timeout : option Z)
  : Run JsVal :=
  match q with
  | Collect q => asValue (runAggregating sdk q m timeout)
  | Resolve q => runFirst sdk q m timeout
  end.

(** The timeout a request of the query carries. *)
Definition timeoutOf (q : FanOut) (params : JsVal) : JsVal :=
  match q with
  | Collect _ => timeoutOfList params
  | Resolve q => timeoutOfFirst q params
  end.

(** The timeout the caller has put into the arguments of the query
    itself: [args.timeout] of [getPrompt]. *)
Definition ownTimeout (q : FanOut) : JsVal :=
  match q with
  | Resolve (GetPrompt _ args) => propGet args "timeout"
  | _ => JsUndefined
  end.

(** The argument object of the query has each key once, as an object
    does. *)
Definition uniqueKeys (q : FanOut) : Prop :=
  match q with
  | Resolve (GetPrompt _ args) => NoDup (map fst args)
  | _ => True
  end.

Definition fanOutName (q : FanOut) : string :=
  match q with
  | Collect q => aggregatingName q
  | Resolve q => firstName q
  end.

Definition fanOutParams (m : Manager) (q : FanOut) (timeout : option Z) : JsVal :=
  match q with
  | Collect _ => aggregatingParams m timeout
  | Resolve q => firstParams m q timeout
  end.

Definition explicit_timeout_is_applied : Prop :=
  ∀ sdk q m z call,
    call ∈ invoked (runFanOut sdk q m (Some z)) →
    timeoutOf q (call_params call) = JsNum z.

Definition failed_handshake_burns_no_id : Prop :=
  ∀ sdk t name clientConfig w cause,
    hasServer name w = false →
    handshake sdk t name clientConfig w = Rejected cause →
    nextClientId (manager (addServer sdk t name clientConfig w).2)
    = nextClientId (manager w).

(** ** Vocabulary of the further statements *)

Definition targetedName (q : Targeted) : string :=
  match q with
  | GetClientTools => "getClientTools"
  | GetClientResources => "getClientResources"
  | GetClientPrompts => "getClientPrompts"
  end.

(** The aggregating query that makes the same remote call. *)
Definition aggregatingOf (q : Targeted) : Aggregating :=
  match q with
  | GetClientTools => ListTools
  | GetClientResources => ListResources
  | GetClientPrompts => ListPrompts
  end.

(** The messages of the two errors of a targeted query. *)
Definition notFoundId (id : ClientIdentifier) : string :=
  "Client with ID " +:+ dquote +:+ id +:+ dquote +:+ " not found".

Definition notConnectedId (id : ClientIdentifier) : string :=
  "Client with ID " +:+ dquote +:+ id +:+ dquote +:+ " is not connected".

(** The identifiers of the records with their server names, in the order
    of the map. *)
Definition roster (w : World) : list (ClientIdentifier * string) :=
  map (λ entry : ClientIdentifier * ClientInfo, (entry.1, serverName entry.2))
    (clients (manager w)).

(** How a task changes the roster and the registered names: not at all,
    or by the record that a successful [addServer] puts last, or by the
    record that [removeClient] takes out. *)
Definition rosterStep (task : Task) (w w' : World) : Prop :=
  (roster w' = roster w ∧ listServerNames w' = listServerNames w)
  ∨ (∃ t name clientConfig,
       task = AddServer t name clientConfig
       ∧ hasServer name w = false
       ∧ roster w' = roster w ++ [(clientIdOf (nextClientId (manager w)), name)]
       ∧ listServerNames w' = listServerNames w ++ [name])
  ∨ (∃ id info,
       task = RemoveClient id
       ∧ mapGet (clients (manager w)) id = Some info
       ∧ roster w' = filter (λ p : ClientIdentifier * string, p.1 ≠ id) (roster w)
       ∧ listServerNames w' = setDelete (listServerNames w) (serverName info)).

(** The record a task is about, as far as the timers go: the one that is
    removed, the one whose transport closes, the one whose timer fires. *)
Definition timerSubject (task : Task) (w : World) : option ClientIdentifier :=
  match task with
  | RemoveClient id => Some id
  | TransportClose t =>
      match onclose (hooksOf w t) with
      | ManagerHook id _ => Some id
      | _ => None
      end
  | TimerFires h => fst <$> timers w !! h
  | _ => None
  end.

(** What holds of the timers in every world a manager can be in, beside
    [tracked]: handles are given out once, a handle belongs to one record,
    and a timer is pending only for a record of the store, under
    auto-reconnect. *)
Record punctual (w : World) : Prop := {
  pending_old : ∀ h v, timers w !! h = Some v → (h < nextTimer w)%nat;
  kept_old :
    ∀ id h, reconnectTimers (manager w) !! id = Some h → (h < nextTimer w)%nat;
  kept_apart :
    ∀ id id' h,
      reconnectTimers (manager w) !! id = Some h →
      reconnectTimers (manager w) !! id' = Some h → id = id';
  pending_registered :
    ∀ h id a, timers w !! h = Some (id, a) →
              is_Some (mapGet (clients (manager w)) id);
  pending_enabled :
    ∀ h id a, timers w !! h = Some (id, a) →
              enabled (autoReconnect (config (manager w))) = true
}.

(** The names that are registered are the names of the records, in the
    order of the records, each once. *)
Definition namesMatch (w : World) : Prop :=
  serverNames (manager w) = map snd (roster w) ∧ NoDup (serverNames (manager w)).

(** The step from [w] to [w'] touches no timer and removes no record. *)
Definition quiet (w w' : World) : Prop :=
  sameTimers w w'
  ∧ nextTimer w' = nextTimer w
  ∧ ∀ id, is_Some (mapGet (clients (manager w)) id) →
          is_Some (mapGet (clients (manager w')) id).

(** A slot after an installation by the manager: a handler that is
    there stays. *)
Definition installed (id : ClientIdentifier) (name : string) (slot : Hook) : Hook :=
  match slot with
  | NoHook => ManagerHook id name
  | _ => slot
  end.

(** The handlers that the transport [t] has in [w] are its handlers in
    [w']. *)
Definition hooksKept (w w' : World) (t : TransportRef) : Prop :=
  (onclose (hooksOf w t) ≠ NoHook → onclose (hooksOf w' t) = onclose (hooksOf w t))
  ∧ (onerror (hooksOf w t) ≠ NoHook → onerror (hooksOf w' t) = onerror (hooksOf w t)).

(** What one task can make of a record that stays in the store: leave it,
    write an error to it, mark it disconnected, or reconnect it. *)
Inductive recordStep (info : ClientInfo) : ClientInfo → Prop :=
| record_same : recordStep info info
| record_failed e : recordStep info (withError (Some e) info)
| record_closed : recordStep info (withConnected false info)
| record_reconnected c :
    connected info = false →
    recordStep info (withError None (withConnected true (withClient c info))).

(** The tasks that attempt to reconnect the record [id]: a call of
    [reconnectClient], or a pending timer of the record that fires. *)
Definition reconnects (task : Task) (w : World) (id : ClientIdentifier) : Prop :=
  task = ReconnectClient id
  ∨ ∃ h a, task = TimerFires h ∧ timers w !! h = Some (id, a).

(** The attempt went through. *)
Definition succeeded {A : Type} (o : Outcome A) : bool :=
  match failure o with
  | None => true
  | Some _ => false
  end.

(** ** Further sample worlds *)

(** A server that refuses the first client and accepts the later ones. *)
Definition secondTry : Sdk :=
  {| sdk_connect := λ c _,
       if (client_ref c =? 0)%nat
       then Rejected (ThrownValue (JsStr "ECONNREFUSED")) else Resolved ();
     sdk_request := λ _ _ _, Resolved (JsObj []);
     sdk_close := λ _, Some (ThrownValue (JsStr "already closed")) |}.

(** [alpha] was added to a manager with the default configuration over
    the transport [1], which then closed. *)
Definition alphaClosed : World :=
  runAll betaEchoes [AddServer 1%nat "alpha" []; TransportClose 1%nat]
    (newWorld noConfig ∅).

(** [alpha] and [beta] were added under auto-reconnect over the transports
    [1] and [2]; then the transport of [alpha] closed. *)
Definition alphaClosedBetaUp : World :=
  runAll betaEchoes
    [AddServer 1%nat "alpha" []; AddServer 2%nat "beta" []; TransportClose 1%nat]
    (newWorld twoAttempts ∅).

(** [gamma] was added under auto-reconnect over the transport [9]. *)
Definition gammaUp : World :=
  runAll onlyOnce [AddServer 9%nat "gamma" []] (newWorld twoAttempts ∅).

(** [alpha] was added over the transport [1], which then reported an
    error and stayed open. *)
Definition alphaFailed : World :=
  runAll betaEchoes [AddServer 1%nat "alpha" []; TransportError 1%nat (Error "EPIPE")]
    (newWorld noConfig ∅).

(** The transport of [alpha] reported an error and then closed. *)
Definition alphaFailedClosed : World :=
  runAll betaEchoes
    [AddServer 1%nat "alpha" []; TransportError 1%nat (Error "EPIPE");
     TransportClose 1%nat]
    (newWorld noConfig ∅).

(** * The [Map], the [Set] and objects *)

Lemma eqb_decide (a b : string) : String.eqb a b = bool_decide (a = b).
Proof.
  destruct (String.eqb_spec a b) as [->|Hne].
  - by rewrite bool_decide_eq_true_2.
  - by rewrite bool_decide_eq_false_2.
Qed.

Lemma filter_all {A : Type} (P : A → Prop) `{!∀ x, Decision (P x)} (l : list A) :
  Forall P l → filter P l = l.
Proof.
  induction 1 as [|x l Hx Hl IH]; [done|].
  by rewrite filter_cons_True, IH.
Qed.

Section JsMapFacts.
Context {V : Type}.
Implicit Types (m : list (string * V)) (k : string) (v : V).

Lemma mapGet_Some_elem_of m k v : mapGet m k = Some v → (k, v) ∈ m.
Proof.
  induction m as [|[k' v'] m IH]; [done|]. cbn.
  destruct (String.eqb_spec k' k) as [->|Hne].
  - intros [= ->]. left.
  - intros H. right. by apply IH.
Qed.

Lemma mapGet_None_keys m k : mapGet m k = None ↔ k ∉ map fst m.
Proof.
  induction m as [|[k' v'] m IH]; cbn.
  - split; [intros _; apply not_elem_of_nil|done].
  - rewrite not_elem_of_cons, <- IH.
    destruct (String.eqb_spec k' k) as [->|Hne].
    + split; [done|]. intros [Hk _]. by destruct Hk.
    + split; [intros H; split; [congruence|done]|by intros [_ H]].
Qed.

Lemma elem_of_mapGet m k v : NoDup (map fst m) → (k, v) ∈ m → mapGet m k = Some v.
Proof.
  induction m as [|[k' v'] m IH]; cbn; intros Hnd Hin.
  - by apply elem_of_nil in Hin.
  - apply NoDup_cons in Hnd as [Hk' Hnd].
    apply elem_of_cons in Hin as [[= -> ->]|Hin].
    + by rewrite String.eqb_refl.
    + destruct (String.eqb_spec k' k) as [->|Hne]; [|by apply IH].
      exfalso. apply Hk'. apply list_elem_of_fmap. by exists (k, v).
Qed.

Lemma mapGet_mapSet m k v k' :
  mapGet (mapSet m k v) k' = if String.eqb k k' then Some v else mapGet m k'.
Proof.
  induction m as [|[k0 v0] m IH]; cbn.
  - done.
  - destruct (String.eqb_spec k0 k) as [->|Hne]; cbn.
    + destruct (String.eqb_spec k k'); done.
    + rewrite IH. destruct (String.eqb_spec k0 k') as [->|Hne'].
      * destruct (String.eqb_spec k k'); [congruence|done].
      * done.
Qed.

Lemma mapSet_keys_present m k v :
  k ∈ map fst m → map fst (mapSet m k v) = map fst m.
Proof.
  induction m as [|[k0 v0] m IH]; cbn; intros Hin.
  - by apply elem_of_nil in Hin.
  - destruct (String.eqb_spec k0 k) as [->|Hne]; cbn; [done|].
    apply elem_of_cons in Hin as [->|Hin]; [done|]. by rewrite IH.
Qed.

Lemma mapSet_keys_absent m k v :
  k ∉ map fst m → mapSet m k v = m ++ [(k, v)].
Proof.
  induction m as [|[k0 v0] m IH]; cbn; intros Hin; [done|].
  apply not_elem_of_cons in Hin as [Hne Hin].
  destruct (String.eqb_spec k0 k) as [->|_]; [done|]. by rewrite IH.
Qed.

Lemma mapGet_mapDelete m k k' :
  mapGet (mapDelete m k) k' = if String.eqb k k' then None else mapGet m k'.
Proof.
  unfold mapDelete. induction m as [|[k0 v0] m IH].
  - cbn. by destruct (String.eqb k k').
  - rewrite filter_cons. cbn [fst].
    destruct (decide (k0 ≠ k)) as [Hne|Heq]; cbn [mapGet].
    + rewrite IH. destruct (String.eqb_spec k0 k') as [->|Hne'].
      * destruct (String.eqb_spec k k'); [congruence|done].
      * done.
    + apply dec_stable in Heq as ->. rewrite IH.
      destruct (String.eqb_spec k k'); done.
Qed.

Lemma mapDelete_keys m k : map fst (mapDelete m k) = filter (λ k', k' ≠ k) (map fst m).
Proof.
  unfold mapDelete. induction m as [|[k0 v0] m IH]; [done|].
  cbn [map fst]. rewrite !filter_cons. cbn [fst].
  destruct (decide (k0 ≠ k)); cbn; by rewrite IH.
Qed.
End JsMapFacts.

Lemma setHas_elem_of s x : setHas s x = true ↔ x ∈ s.
Proof.
  unfold setHas. rewrite existsb_exists. split.
  - intros (y & Hin & Heq). apply String.eqb_eq in Heq as ->.
    by apply list_elem_of_In.
  - intros Hin. exists x. split; [by apply list_elem_of_In|apply String.eqb_refl].
Qed.

Lemma setHas_setDelete s x : setHas (setDelete s x) x = false.
Proof.
  apply not_true_is_false. rewrite setHas_elem_of. unfold setDelete.
  rewrite list_elem_of_filter. intros [Hne _]. by destruct Hne.
Qed.

Lemma propGet_propSet props k v k' :
  propGet (propSet props k v) k' = if String.eqb k k' then v else propGet props k'.
Proof.
  induction props as [|[k0 v0] props IH]; cbn; [done|].
  destruct (String.eqb_spec k0 k) as [->|Hne]; cbn.
  - destruct (String.eqb_spec k k'); done.
  - rewrite IH. destruct (String.eqb_spec k0 k') as [->|Hne']; [|done].
    destruct (String.eqb_spec k k'); [congruence|done].
Qed.

Lemma propSet_keys props k v :
  NoDup (map fst props) → NoDup (map fst (propSet props k v)).
Proof.
  induction props as [|[k0 v0] props IH]; cbn; intros Hnd.
  - apply NoDup_singleton.
  - apply NoDup_cons in Hnd as [Hk0 Hnd].
    destruct (String.eqb_spec k0 k) as [->|Hne]; cbn.
    + by apply NoDup_cons.
    + apply NoDup_cons. split; [|by apply IH].
      clear IH Hnd. induction props as [|[k1 v1] props IH]; cbn.
      * rewrite elem_of_cons. intros [?|H]; [done|by apply elem_of_nil in H].
      * cbn in Hk0. apply not_elem_of_cons in Hk0 as [Hne1 Hk0].
        destruct (String.eqb k1 k); cbn; rewrite not_elem_of_cons; auto.
Qed.

(** Reading a key of [{ ...target, ...source }]. *)
Lemma propGet_spread target source k :
  NoDup (map fst source) →
  propGet (spread target (JsObj source)) k =
  if bool_decide (k ∈ map fst source) then propGet source k else propGet target k.
Proof.
  unfold spread. cbn [ownProps]. revert target.
  induction source as [|[k0 v0] source IH]; intros target Hnd; cbn [fold_left].
  - rewrite bool_decide_eq_false_2; [done|apply not_elem_of_nil].
  - cbn [map fst] in *. apply NoDup_cons in Hnd as [Hk0 Hnd].
    rewrite IH by done. cbn [fst snd propGet].
    destruct (String.eqb_spec k0 k) as [->|Hne].
    + rewrite (bool_decide_eq_false_2 (k ∈ map fst source)) by done.
      rewrite propGet_propSet, String.eqb_refl.
      rewrite bool_decide_eq_true_2; [done|left].
    + destruct (decide (k ∈ map fst source)) as [Hin|Hnin].
      * rewrite !bool_decide_eq_true_2; [done|by right|done].
      * rewrite !bool_decide_eq_false_2; [|by apply not_elem_of_cons|done].
        rewrite propGet_propSet. by destruct (String.eqb_spec k0 k).
Qed.

Lemma propGet_absent props k : k ∉ map fst props → propGet props k = JsUndefined.
Proof.
  induction props as [|[k0 v0] props IH]; cbn; [done|].
  intros [Hne Hin]%not_elem_of_cons.
  destruct (String.eqb_spec k0 k); [done|by apply IH].
Qed.

Section JsMapMore.
Context {V : Type}.
Implicit Types (m : list (string * V)) (k : string) (v : V).

Lemma elem_of_mapSet m k v (entry : string * V) :
  entry ∈ mapSet m k v → entry ∈ m ∨ entry = (k, v).
Proof.
  induction m as [|[k0 v0] m IH]; cbn.
  - intros Hin. apply list_elem_of_singleton in Hin. by right.
  - destruct (String.eqb k0 k).
    + intros [->|Hin]%elem_of_cons; [by right|]. left. by right.
    + intros [->|Hin]%elem_of_cons; [left; left|].
      destruct (IH Hin) as [?|?]; [left; by right|by right].
Qed.

Lemma Forall_mapSet (P : string * V → Prop) m k v :
  Forall P m → P (k, v) → Forall P (mapSet m k v).
Proof.
  intros Hm Hkv. apply Forall_forall. intros entry Hin.
  apply elem_of_mapSet in Hin as [Hin| ->]; [|done].
  by apply (proj1 (Forall_forall _ _) Hm).
Qed.

Lemma mapGet_Some_keys m k v : mapGet m k = Some v → k ∈ map fst m.
Proof.
  intros Hget. apply list_elem_of_fmap. exists (k, v).
  split; [done|by apply mapGet_Some_elem_of].
Qed.

Lemma Forall_mapDelete (P : string * V → Prop) m k :
  Forall P m → Forall P (mapDelete m k).
Proof.
  intros Hm. apply Forall_forall. intros entry Hin.
  apply list_elem_of_filter in Hin as [_ Hin].
  by apply (proj1 (Forall_forall _ _) Hm).
Qed.
End JsMapMore.

Lemma clientIdOf_inj (j k : N) : clientIdOf j = clientIdOf k → j = k.
Proof.
  unfold clientIdOf. intros Heq.
  apply (inj (String.app "client-")) in Heq. by apply (inj pretty) in Heq.
Qed.

Lemma setHas_setAdd s x y :
  setHas (setAdd s x) y = setHas s y || String.eqb y x.
Proof.
  unfold setAdd. destruct (setHas s x) eqn:Hx.
  - destruct (String.eqb_spec y x) as [->|_]; [|by rewrite orb_false_r].
    by rewrite Hx.
  - unfold setHas. rewrite existsb_app. cbn. by rewrite orb_false_r.
Qed.

(** * Fan-out queries *)

Section FanOutFacts.
Context (sdk : Sdk).

Lemma runAggregating_aggregate q m timeout :
  runAggregating sdk q m timeout =
  aggregate sdk (aggregatingName q) (aggregatingParams m timeout)
    (aggregatingFound q) (aggregatingFailed q) m.
Proof. by destruct q. Qed.

(** The attempt of an aggregating query at a record whose call resolves
    to an object, as the SDK declares it: the array under the key of the
    query, if there is one. *)
Lemma listAnswer_object q m timeout info props :
  sdk_request sdk (client info) (aggregatingName q) (aggregatingParams m timeout)
  = Resolved (JsObj props) →
  listAnswer sdk q m timeout info
  = Resolved (arrayItems (propGet props match q with
                                        | ListPrompts => "prompts"
                                        | ListResources => "resources"
                                        | ListTools => "tools"
                                        end)).
Proof.
  unfold listAnswer, tryList. intros ->. by destruct q.
Qed.

Lemma connected_filter_cons (entry : ClientIdentifier * ClientInfo) entries :
  filter (λ e : ClientIdentifier * ClientInfo, connected e.2) (entry :: entries) =
  if connected entry.2
  then entry :: filter (λ e : ClientIdentifier * ClientInfo, connected e.2) entries
  else filter (λ e : ClientIdentifier * ClientInfo, connected e.2) entries.
Proof.
  rewrite filter_cons.
  destruct (decide (connected entry.2)) as [H|H];
    destruct (connected entry.2); simpl in H; done.
Qed.

Lemma aggregate_loop operation params found entries p :
  let answer := tryList sdk operation params found in
  let conn := filter (λ e : ClientIdentifier * ClientInfo, connected e.2) entries in
  fold_left (aggregateStep sdk operation params found) entries p =
  {| allItems := allItems p ++ concat (map (λ e, gathered (answer e.2)) conn);
     errors := errors p ++ map (λ f, (f.1.1, f.2)) (failuresOf answer conn);
     pass_emitted := pass_emitted p ++ map (reported operation) (failuresOf answer conn);
     pass_invoked := pass_invoked p ++ map (callTo operation params) conn;
     pass_store := pass_store p ++ map (afterAttempt answer) entries |}.
Proof.
  simpl. revert p. induction entries as [|[id info] entries IH]; intros p.
  - destruct p; simpl. by rewrite !app_nil_r.
  - rewrite connected_filter_cons. cbn [fold_left]. rewrite IH. clear IH.
    unfold aggregateStep, afterAttempt, failuresOf, failure, gathered.
    cbn [fst snd map].
    destruct (connected info) eqn:Hc; cbn [negb].
    + destruct (tryList sdk operation params found info) as [[items|]|t] eqn:Ht;
        cbn -[tryList]; rewrite ?Ht; cbn -[tryList];
        rewrite <- ?app_assoc; reflexivity.
    + cbn -[tryList]. rewrite <- ?app_assoc. reflexivity.
Qed.

(** Claim C1, as the code has it.  An aggregating query ([listPrompts],
    [listResources], [listTools]) calls every connected record, in the order
    of the map, records the error of each failed attempt on the record and
    emits one [operationError] for it.  It throws exactly when at least one
    attempt failed and the union of the listed items is empty: the aggregate
    error then carries every collected error, in order.  In every other
    case it returns the union, so in particular as soon as one record lists
    a non-empty array.  What decides is the number of items, not the number
    of calls that succeeded. *)
Theorem aggregating_outcome q m timeout :
  let r := runAggregating sdk q m timeout in
  let union := unionOf sdk q m timeout in
  let failed := failuresOf (listAnswer sdk q m timeout) (connectedEntries m) in
  invoked r
    = map (callTo (aggregatingName q) (aggregatingParams m timeout)) (connectedEntries m)
  ∧ emitted r = map (reported (aggregatingName q)) failed
  ∧ store r = map (afterAttempt (listAnswer sdk q m timeout)) (clients m)
  ∧ (failed ≠ [] ∧ union = [] →
     outcome r = Throw (AggregateError (map snd failed) (aggregatingFailed q)))
  ∧ (¬ (failed ≠ [] ∧ union = []) → outcome r = Return union)
  ∧ (∀ entry x items,
       entry ∈ connectedEntries m →
       listAnswer sdk q m timeout entry.2 = Resolved (Some (x :: items)) →
       outcome r = Return union).
Proof.
  cbn zeta. rewrite runAggregating_aggregate. unfold aggregate.
  rewrite aggregate_loop. cbn [outcome emitted invoked store emptyPass
    allItems errors pass_emitted pass_invoked pass_store app].
  fold (connectedEntries m). fold (listAnswer sdk q m timeout).
  fold (unionOf sdk q m timeout).
  set (failed := failuresOf _ _). set (union := unionOf _ _ _ _).
  rewrite !length_map.
  assert (Hsnd : map snd (map (λ f : ClientIdentifier * ClientInfo * JsError,
                                 (f.1.1, f.2)) failed) = map snd failed).
  { rewrite map_map. reflexivity. }
  rewrite Hsnd.
  assert (Hthrow : failed ≠ [] ∧ union = [] →
    (if (0 <? length failed)%nat && (length union =? 0)%nat
     then Throw (AggregateError (map snd failed) (aggregatingFailed q))
     else Return union)
    = Throw (AggregateError (map snd failed) (aggregatingFailed q))).
  { intros [Hf Hu]. rewrite Hu. destruct failed; [done|reflexivity]. }
  assert (Hreturn : ¬ (failed ≠ [] ∧ union = []) →
    (if (0 <? length failed)%nat && (length union =? 0)%nat
     then Throw (AggregateError (map snd failed) (aggregatingFailed q))
     else Return union) = Return union).
  { intros Hn. destruct failed as [|f failed'], union as [|u union']; try reflexivity.
    exfalso. apply Hn. split; done. }
  repeat split; try done.
  intros entry x items Hin Hans. apply Hreturn. intros [_ Hu].
  subst union. unfold unionOf in Hu.
  apply list_elem_of_split in Hin as (l1 & l2 & Heq).
  rewrite Heq, map_app, concat_app in Hu. cbn [map concat] in Hu.
  rewrite Hans in Hu. cbn [gathered] in Hu.
  apply app_eq_nil in Hu as [_ Hu]. discriminate.
Qed.

Lemma runFirst_firstOf q m timeout :
  runFirst sdk q m timeout =
  firstOf sdk (firstName q) (firstParams m q timeout) (firstShape q) (notFoundIn q) m.
Proof. by destruct q. Qed.

(** The attempt of [getPrompt] and of [readResource] is the remote call
    itself. *)
Lemma firstAnswer_plain q m timeout info :
  (∀ toolName args, q ≠ CallTool toolName args) →
  firstAnswer sdk q m timeout info
  = sdk_request sdk (client info) (firstName q) (firstParams m q timeout).
Proof.
  intros Hq. unfold firstAnswer, tryFirst.
  destruct q as [promptName args|resourceUri|toolName args]; cbn [firstShape].
  - by destruct (sdk_request _ _ _ _).
  - by destruct (sdk_request _ _ _ _).
  - by destruct (Hq toolName args).
Qed.

(** The attempt of [callTool] at a record whose call resolves to an
    object, as the SDK declares it: the object with a [result] key in front. *)
Lemma firstAnswer_tool toolName args m timeout info props :
  sdk_request sdk (client info) "callTool" (toolRequest m toolName args timeout)
  = Resolved (JsObj props) →
  firstAnswer sdk (CallTool toolName args) m timeout info
  = Resolved (JsObj (spread [("result", propGet props "result")] (JsObj props))).
Proof.
  unfold firstAnswer, tryFirst. cbn [firstName firstParams firstShape].
  by intros ->.
Qed.

(** A rejected call is a failed attempt, with the error of the call. *)
Lemma firstAnswer_rejected q m timeout info t :
  sdk_request sdk (client info) (firstName q) (firstParams m q timeout) = Rejected t →
  failure (firstAnswer sdk q m timeout info) = Some (typedError t).
Proof. unfold firstAnswer, tryFirst. by intros ->. Qed.

(** The loop passes over disconnected records. *)
Lemma firstResponder_connected operation params shape notFound entries errs events made :
  firstResponder sdk operation params shape notFound entries errs events made =
  firstResponder sdk operation params shape notFound
    (filter (λ e : ClientIdentifier * ClientInfo, connected e.2) entries)
    errs events made.
Proof.
  revert errs events made.
  induction entries as [|[id info] entries IH]; intros errs events made; [done|].
  rewrite connected_filter_cons. cbn [fst snd firstResponder].
  destruct (connected info) eqn:Hc; cbn [negb firstResponder].
  - rewrite Hc. cbn [negb]. destruct (tryFirst _ _ _ _ _); [done|apply IH].
  - apply IH.
Qed.

(** The loop goes on past connected records whose attempt fails. *)
Lemma firstResponder_failures operation params shape notFound pre post errs events made :
  let answer := tryFirst sdk operation params shape in
  Forall (λ e : ClientIdentifier * ClientInfo,
            connected e.2 ∧ is_Some (failure (answer e.2))) pre →
  firstResponder sdk operation params shape notFound (pre ++ post) errs events made =
  firstResponder sdk operation params shape notFound post
    (errs ++ map (λ f, (f.1.1, f.2)) (failuresOf answer pre))
    (events ++ map (reported operation) (failuresOf answer pre))
    (made ++ map (callTo operation params) pre)
  ∧ map fst (failuresOf answer pre) = pre.
Proof.
  cbn zeta. revert errs events made.
  induction pre as [|[id info] pre IH]; intros errs events made Hpre.
  - cbn. by rewrite !app_nil_r.
  - apply Forall_cons in Hpre as [[Hc [e He]] Hpre]. cbn [fst snd] in Hc, He.
    cbn [app firstResponder]. destruct (connected info); [|done]. cbn [negb].
    unfold failuresOf. cbn [omap list_omap fst snd].
    destruct (tryFirst sdk operation params shape info) as [v|t] eqn:Ht;
      [discriminate He|].
    cbn [failure fmap option_fmap option_map map fst snd reported callTo].
    destruct (IH (errs ++ [(id, typedError t)])
                (events ++ [operationError operation id (serverName info) (typedError t)])
                (made ++ [{| call_client := id; call_method := operation;
                             call_params := params |}]) Hpre) as [IH1 IH2].
    rewrite IH1. unfold failuresOf in *. rewrite IH2.
    rewrite <- !app_assoc. done.
Qed.

(** A first-responder query, by where the failures among the connected
    records end. *)
Lemma firstOf_split operation params shape notFound m pre post v :
  let answer := tryFirst sdk operation params shape in
  let r := firstOf sdk operation params shape notFound m in
  connectedEntries m = pre ++ post →
  Forall (λ e : ClientIdentifier * ClientInfo, is_Some (failure (answer e.2))) pre →
  match post with
  | [] => True
  | entry :: _ => answer entry.2 = Resolved v
  end →
  invoked r = map (callTo operation params) (pre ++ take 1 post)
  ∧ emitted r = map (reported operation) (failuresOf answer pre)
  ∧ map fst (failuresOf answer pre) = pre
  ∧ store r = clients m
  ∧ outcome r =
      match post with
      | [] => Throw (AggregateError (map snd (failuresOf answer pre)) notFound)
      | _ :: _ => Return v
      end.
Proof.
  cbn zeta. intros Hsplit Hpre Hpost. unfold firstOf.
  rewrite firstResponder_connected. fold (connectedEntries m). rewrite Hsplit.
  assert (Hconn : Forall (λ e : ClientIdentifier * ClientInfo, connected e.2)
                    (pre ++ post)).
  { rewrite <- Hsplit. apply Forall_forall. intros e He.
    apply list_elem_of_filter in He. tauto. }
  apply Forall_app in Hconn as [Hcpre Hcpost].
  assert (Hboth : Forall (λ e : ClientIdentifier * ClientInfo,
              connected e.2 ∧
              is_Some (failure (tryFirst sdk operation params shape e.2))) pre).
  { apply Forall_and. done. }
  destruct (firstResponder_failures operation params shape notFound pre post
              [] [] [] Hboth) as [Hloop Hfst].
  rewrite Hloop. cbn [app]. clear Hloop.
  destruct post as [|[id info] post].
  - cbn [firstResponder outcome emitted invoked store take app].
    rewrite map_map, !app_nil_r. done.
  - apply Forall_cons in Hcpost as [Hc _]. cbn [fst snd] in Hc, Hpost.
    cbn [firstResponder]. destruct (connected info); [|done]. cbn [negb].
    rewrite Hpost. cbn [outcome emitted invoked store take].
    rewrite map_app. done.
Qed.

(** Claim C2.  A first-responder query ([getPrompt], [readResource],
    [callTool]) goes through the connected records in the order of the map.
    Let the connected records be [pre ++ post], where the attempt fails at
    every record of [pre] and, if there is a next one, succeeds with [v] at
    the head of [post].  Then the calls made are exactly those to [pre] and
    to that head, in order, and no record after it is called; each record of
    [pre] has its error collected and one [operationError] emitted; the
    query returns [v], or, when [post] is empty, throws the aggregate error
    of all collected errors whose message names the target. *)
Theorem first_responder_outcome q m timeout pre post v :
  connectedEntries m = pre ++ post →
  Forall (λ entry : ClientIdentifier * ClientInfo,
            is_Some (failure (firstAnswer sdk q m timeout entry.2))) pre →
  match post with
  | [] => True
  | entry :: _ => firstAnswer sdk q m timeout entry.2 = Resolved v
  end →
  let r := runFirst sdk q m timeout in
  let failed := failuresOf (firstAnswer sdk q m timeout) pre in
  invoked r = map (callTo (firstName q) (firstParams m q timeout)) (pre ++ take 1 post)
  ∧ emitted r = map (reported (firstName q)) failed
  ∧ map fst failed = pre
  ∧ store r = clients m
  ∧ outcome r =
      match post with
      | [] => Throw (AggregateError (map snd failed) (notFoundIn q))
      | _ :: _ => Return v
      end.
Proof.
  intros Hsplit Hpre Hpost. cbn zeta. rewrite runFirst_firstOf.
  exact (firstOf_split _ _ _ _ m pre post v Hsplit Hpre Hpost).
Qed.

(** Claim C10.  When no record of the store is connected, the empty store
    included, a first-responder query throws the aggregate error with an
    empty list of errors and the not-found message of its target; it calls
    nobody and emits nothing. *)
Theorem first_responder_none_connected q m timeout :
  (∀ entry, entry ∈ clients m → connected entry.2 = false) →
  let r := runFirst sdk q m timeout in
  outcome r = Throw (AggregateError [] (notFoundIn q))
  ∧ invoked r = [] ∧ emitted r = [] ∧ store r = clients m.
Proof.
  intros Hnone. cbn zeta. rewrite runFirst_firstOf.
  assert (Hempty : connectedEntries m = [] ++ []).
  { unfold connectedEntries. cbn [app].
    induction (clients m) as [|e l IH]; [done|].
    rewrite connected_filter_cons, (Hnone e) by left.
    apply IH. intros e' He'. apply Hnone. by right. }
  destruct (firstOf_split (firstName q) (firstParams m q timeout) (firstShape q)
              (notFoundIn q) m [] [] JsUndefined Hempty (Forall_nil_2 _) I)
    as (Hi & He & _ & Hs & Ho).
  done.
Qed.

(** Two stores with the same connected records answer alike. *)
Lemma aggregate_same_connected operation params found failed m m' :
  connectedEntries m = connectedEntries m' →
  outcome (aggregate sdk operation params found failed m)
    = outcome (aggregate sdk operation params found failed m')
  ∧ invoked (aggregate sdk operation params found failed m)
    = invoked (aggregate sdk operation params found failed m')
  ∧ emitted (aggregate sdk operation params found failed m)
    = emitted (aggregate sdk operation params found failed m').
Proof.
  intros Heq. unfold aggregate. rewrite !aggregate_loop.
  cbn [allItems errors pass_emitted pass_invoked outcome invoked emitted].
  fold (connectedEntries m) (connectedEntries m'). rewrite Heq. done.
Qed.

Lemma firstOf_same_connected operation params shape notFound m m' :
  connectedEntries m = connectedEntries m' →
  outcome (firstOf sdk operation params shape notFound m)
    = outcome (firstOf sdk operation params shape notFound m')
  ∧ invoked (firstOf sdk operation params shape notFound m)
    = invoked (firstOf sdk operation params shape notFound m')
  ∧ emitted (firstOf sdk operation params shape notFound m)
    = emitted (firstOf sdk operation params shape notFound m').
Proof.
  intros Heq. unfold firstOf.
  rewrite (firstResponder_connected _ _ _ _ (clients m)).
  rewrite (firstResponder_connected _ _ _ _ (clients m')).
  fold (connectedEntries m) (connectedEntries m'). rewrite Heq.
  destruct (firstResponder _ _ _ _ _ _ _ _ _) as [[r events] made]. done.
Qed.

(** The calls of a first-responder loop go to connected records, with
    the one request. *)
Lemma firstResponder_calls operation params shape notFound entries errs events made :
  ∃ k, (firstResponder sdk operation params shape notFound entries errs events made).2
       = made ++ map (callTo operation params)
                   (take k (filter (λ e : ClientIdentifier * ClientInfo, connected e.2)
                              entries)).
Proof.
  revert errs events made.
  induction entries as [|[id info] entries IH]; intros errs events made.
  - exists 0%nat. cbn. by rewrite app_nil_r.
  - rewrite connected_filter_cons. cbn [fst snd firstResponder].
    destruct (connected info); cbn [negb]; [|apply IH].
    destruct (tryFirst sdk operation params shape info).
    + exists 1%nat. done.
    + edestruct IH as [k Hk]. exists (S k). rewrite Hk.
      cbn [take map]. rewrite <- app_assoc. done.
Qed.

Lemma firstOf_calls operation params shape notFound m :
  ∃ k, invoked (firstOf sdk operation params shape notFound m)
       = map (callTo operation params) (take k (connectedEntries m)).
Proof.
  unfold firstOf.
  destruct (firstResponder_calls operation params shape notFound (clients m) [] [] [])
    as [k Hk].
  exists k. destruct (firstResponder _ _ _ _ _ _ _ _ _) as [[r events] made].
  exact Hk.
Qed.
Lemma runAggregating_store q m timeout :
  store (runAggregating sdk q m timeout)
  = map (afterAttempt (listAnswer sdk q m timeout)) (clients m).
Proof.
  rewrite runAggregating_aggregate. unfold aggregate. by rewrite aggregate_loop.
Qed.

Lemma runFirst_store q m timeout : store (runFirst sdk q m timeout) = clients m.
Proof.
  rewrite runFirst_firstOf. unfold firstOf.
  by destruct (firstResponder _ _ _ _ _ _ _ _ _) as [[r events] made].
Qed.

Lemma mapGet_afterAttempt {A} (answer : ClientInfo → Outcome A)
    (cs : list (ClientIdentifier * ClientInfo)) k :
  mapGet (map (afterAttempt answer) cs) k
  = (λ v, (afterAttempt answer (k, v)).2) <$> mapGet cs k.
Proof.
  induction cs as [|[k0 v0] cs IH]; [done|].
  assert (Hkey : (afterAttempt answer (k0, v0)).1 = k0).
  { unfold afterAttempt. cbn. destruct (connected v0); [|done].
    by destruct (failure _). }
  cbn [map mapGet]. destruct (afterAttempt answer (k0, v0)) as [k1 v1] eqn:Hafter.
  cbn [fst] in Hkey. subst k1.
  destruct (String.eqb_spec k0 k) as [->|Hne]; [|exact IH].
  cbn. by rewrite Hafter.
Qed.

End FanOutFacts.

Lemma aggregating_throws_despite_success : ¬ returns_when_one_call_succeeds.
Proof.
  intros H.
  specialize (H emptyAlpha ListTools alphaBeta None
                ("client-1", sampleRecord 1 "alpha" true)
                (JsObj [("tools", JsArr [])])).
  assert (Hin : ("client-1", sampleRecord 1 "alpha" true) ∈ connectedEntries alphaBeta).
  { vm_compute. left. }
  specialize (H Hin eq_refl). vm_compute in H. discriminate H.
Qed.


Section FanOutAll.
Context (sdk : Sdk).

(** Every call of a fan-out query carries the one request of the query
    and goes to one of the first connected records. *)
Lemma fanOut_calls q m timeout :
  ∃ k, invoked (runFanOut sdk q m timeout)
       = map (callTo (fanOutName q) (fanOutParams m q timeout))
           (take k (connectedEntries m)).
Proof.
  destruct q as [q|q]; cbn [runFanOut fanOutName fanOutParams asValue invoked].
  - exists (length (connectedEntries m)). rewrite take_ge by done.
    rewrite runAggregating_aggregate. unfold aggregate. rewrite aggregate_loop.
    done.
  - rewrite runFirst_firstOf. apply firstOf_calls.
Qed.

Lemma fanOut_same_connected q m m' timeout :
  config m = config m' →
  connectedEntries m = connectedEntries m' →
  outcome (runFanOut sdk q m timeout) = outcome (runFanOut sdk q m' timeout)
  ∧ invoked (runFanOut sdk q m timeout) = invoked (runFanOut sdk q m' timeout)
  ∧ emitted (runFanOut sdk q m timeout) = emitted (runFanOut sdk q m' timeout).
Proof.
  intros Hcfg Hconn.
  destruct q as [q|q]; cbn [runFanOut asValue outcome invoked emitted].
  - rewrite !runAggregating_aggregate.
    assert (Hp : aggregatingParams m timeout = aggregatingParams m' timeout).
    { unfold aggregatingParams, effectiveTimeout. by rewrite Hcfg. }
    rewrite Hp.
    destruct (aggregate_same_connected sdk (aggregatingName q)
                (aggregatingParams m' timeout) (aggregatingFound q)
                (aggregatingFailed q) m m' Hconn) as (-> & -> & ->).
    done.
  - rewrite !runFirst_firstOf.
    assert (Hp : firstParams m q timeout = firstParams m' q timeout).
    { destruct q; cbn [firstParams];
        unfold promptRequest, promptArgs, resourceRequest, resourceOptions,
          toolRequest, effectiveTimeout; by rewrite Hcfg. }
    rewrite Hp.
    apply firstOf_same_connected, Hconn.
Qed.

Lemma connectedEntries_delete m id info :
  NoDup (map fst (clients m)) →
  mapGet (clients m) id = Some info →
  connected info = false →
  connectedEntries (setClients (mapDelete (clients m) id) m) = connectedEntries m.
Proof.
  unfold connectedEntries, mapDelete. cbn [clients setClients].
  induction (clients m) as [|[k0 v0] l IH]; [done|].
  cbn [map fst mapGet]. intros [Hk0 Hnd]%NoDup_cons Hget Hdis.
  rewrite filter_cons. cbn [fst].
  destruct (String.eqb_spec k0 id) as [->|Hne].
  - injection Hget as ->.
    rewrite decide_False by (intros H; by apply H).
    rewrite connected_filter_cons. cbn [snd]. rewrite Hdis.
    rewrite (filter_all (λ kv : ClientIdentifier * ClientInfo, kv.1 ≠ id) l); [done|].
    apply Forall_forall. intros [k v] Hin Heq. cbn [fst] in Heq. subst k.
    apply Hk0. apply list_elem_of_fmap. by exists (id, v).
  - rewrite decide_True by done.
    rewrite !connected_filter_cons. rewrite IH by done. done.
Qed.

(** Claim C3.  A registered record that is disconnected is no part of a
    fan-out query, aggregating or first-responder: no remote call goes to
    it, the query leaves it as it is, and result, calls and events are those
    of the same query on the store without the record. *)
Theorem disconnected_record_excluded q m timeout id info :
  NoDup (map fst (clients m)) →
  mapGet (clients m) id = Some info →
  connected info = false →
  let r := runFanOut sdk q m timeout in
  let r' := runFanOut sdk q (setClients (mapDelete (clients m) id) m) timeout in
  (id ∉ map call_client (invoked r))
  ∧ mapGet (store r) id = Some info
  ∧ outcome r = outcome r' ∧ invoked r = invoked r' ∧ emitted r = emitted r'.
Proof.
  intros Hnd Hget Hdis. cbn zeta. split; [|split].
  - destruct (fanOut_calls q m timeout) as [k ->].
    rewrite map_map. cbn [callTo call_client].
    intros Hin. apply list_elem_of_fmap in Hin as ([k' v'] & -> & Hin).
    apply (subseteq_take k) in Hin. apply list_elem_of_filter in Hin as [Hc Hin].
    cbn [fst snd] in *. apply (elem_of_mapGet _ _ _ Hnd) in Hin.
    rewrite Hget in Hin. injection Hin as <-. by rewrite Hdis in Hc.
  - destruct q as [q|q]; cbn [runFanOut asValue store].
    + rewrite runAggregating_store, mapGet_afterAttempt, Hget. cbn.
      unfold afterAttempt. cbn. by rewrite Hdis.
    + by rewrite runFirst_store.
  - apply fanOut_same_connected; [done|].
    symmetry. by apply connectedEntries_delete with info.
Qed.

Lemma promptRequest_timeout m promptName args timeout :
  NoDup (map fst args) →
  propGet (ownProps (promptRequest m promptName args timeout)) "timeout"
  = propGet (promptArgs m args timeout) "timeout".
Proof.
  intros Hnd. unfold promptRequest. cbn [ownProps].
  rewrite propGet_spread.
  - case_bool_decide as Hin; [done|].
    rewrite (propGet_absent _ _ Hin). done.
  - unfold promptArgs. repeat case_match; try done; by apply propSet_keys.
Qed.

(** The timeout in the request of a fan-out query. *)
Lemma fanOutParams_timeout q m timeout :
  uniqueKeys q →
  let explicit := optNum timeout in
  let fallback := optNum (defaultTimeout (config m)) in
  timeoutOf q (fanOutParams m q timeout) =
  match q with
  | Collect _ => jsOr explicit fallback
  | Resolve (GetPrompt _ args) =>
      if truthy explicit then explicit
      else if truthy fallback && negb (truthy (propGet args "timeout")) then fallback
      else propGet args "timeout"
  | Resolve _ =>
      if truthy (jsOr explicit fallback) then jsOr explicit fallback else JsUndefined
  end.
Proof.
  intros Hkeys. cbn zeta.
  destruct q as [q|[promptName args|resourceUri|toolName args]];
    cbn [timeoutOf fanOutParams timeoutOfFirst firstParams].
  - done.
  - rewrite promptRequest_timeout by done. unfold promptArgs.
    destruct (truthy (optNum timeout)); [by rewrite propGet_propSet|].
    destruct (truthy (optNum (defaultTimeout (config m)))
              && negb (truthy (propGet args "timeout")));
      [by rewrite propGet_propSet|done].
  - unfold resourceRequest, resourceOptions.
    destruct (truthy (effectiveTimeout m timeout)) eqn:Ht;
      unfold effectiveTimeout in Ht; rewrite Ht; done.
  - unfold toolRequest.
    destruct (truthy (effectiveTimeout m timeout)) eqn:Ht;
      unfold effectiveTimeout in Ht; rewrite Ht; done.
Qed.

(** Claim C9, as the code has it.  The timeout in a request of a fan-out
    query is the [timeout] argument when that is given and not zero;
    otherwise the non-zero timeout that the arguments of [getPrompt] already
    hold; otherwise the configured [defaultTimeout] when that is not zero;
    otherwise nothing that counts as a timeout.  A manager constructed
    without a [defaultTimeout] key has 30000. *)
Theorem request_timeout q m timeout call :
  uniqueKeys q →
  call ∈ invoked (runFanOut sdk q m timeout) →
  let explicit := optNum timeout in
  let own := ownTimeout q in
  let fallback := optNum (defaultTimeout (config m)) in
  let t := timeoutOf q (call_params call) in
  (truthy explicit = true → t = explicit)
  ∧ (truthy explicit = false → truthy own = true → t = own)
  ∧ (truthy explicit = false → truthy own = false → truthy fallback = true →
     t = fallback)
  ∧ (truthy explicit = false → truthy own = false → truthy fallback = false →
     truthy t = false)
  ∧ (∀ given, given_defaultTimeout given = None →
       defaultTimeout (config (newManager given)) = Some 30000%Z).
Proof.
  intros Hkeys Hcall. cbn zeta.
  destruct (fanOut_calls q m timeout) as [k Hk]. rewrite Hk in Hcall.
  apply list_elem_of_fmap in Hcall as (entry & -> & _). cbn [callTo call_params].
  rewrite fanOutParams_timeout by done.
  assert (Hdefault : ∀ given, given_defaultTimeout given = None →
            defaultTimeout (config (newManager given)) = Some 30000%Z).
  { intros given Hg. cbn. by rewrite Hg. }
  destruct q as [q|[promptName args|resourceUri|toolName args]]; cbn [ownTimeout];
    unfold jsOr;
    destruct (truthy (optNum timeout)) eqn:He;
    destruct (truthy (optNum (defaultTimeout (config m)))) eqn:Hf;
    try destruct (truthy (propGet args "timeout")) eqn:Ho;
    cbn [andb negb truthy]; rewrite ?He, ?Hf;
    repeat split; try done; try congruence.
Qed.
End FanOutAll.

Lemma first_responder_outcome_witness :
  let q := CallTool "echo" [("message", JsStr "hi")] in
  let r := runFirst betaEchoes q alphaBeta None in
  invoked r
    = map (callTo "callTool" (firstParams alphaBeta q None))
        [("client-1", sampleRecord 1 "alpha" true);
         ("client-2", sampleRecord 2 "beta" true)]
  ∧ emitted r = [operationError "callTool" "client-1" "alpha" (Error "Method not found")]
  ∧ outcome r
    = Return (JsObj [("result", JsUndefined); ("content", JsArr [JsStr "hi"])]).
Proof.
  cbn zeta.
  destruct (first_responder_outcome betaEchoes
              (CallTool "echo" [("message", JsStr "hi")]) alphaBeta None
              [("client-1", sampleRecord 1 "alpha" true)]
              [("client-2", sampleRecord 2 "beta" true)]
              (JsObj [("result", JsUndefined); ("content", JsArr [JsStr "hi"])]))
    as (Hi & He & _ & _ & Ho).
  - reflexivity.
  - apply Forall_cons. split; [|done]. vm_compute. eexists. reflexivity.
  - reflexivity.
  - split; [exact Hi|]. split; [exact He|exact Ho].
Defined.

Lemma first_responder_none_connected_witness :
  outcome (runFirst betaEchoes (ReadResource "file:///notes") bothDown None)
  = Throw (AggregateError [] (notFoundIn (ReadResource "file:///notes"))).
Proof.
  apply (first_responder_none_connected betaEchoes (ReadResource "file:///notes")
           bothDown None).
  intros entry Hin. cbn in Hin.
  apply elem_of_cons in Hin as [->|Hin]; [reflexivity|].
  apply elem_of_cons in Hin as [->|Hin]; [reflexivity|].
  by apply elem_of_nil in Hin.
Defined.

Lemma disconnected_record_excluded_witness :
  "client-2" ∉ map call_client (invoked (runFanOut betaEchoes (Collect ListTools) betaDown None)).
Proof.
  apply (disconnected_record_excluded betaEchoes (Collect ListTools) betaDown None
           "client-2" (sampleRecord 2 "beta" false)).
  - cbn. apply NoDup_cons. split.
    + rewrite list_elem_of_singleton. discriminate.
    + apply NoDup_singleton.
  - reflexivity.
  - reflexivity.
Defined.

Lemma request_timeout_witness :
  timeoutOf (Resolve (GetPrompt "summary" [("timeout", JsNum 5)]))
    (promptRequest alphaBeta "summary" [("timeout", JsNum 5)] None)
  = JsNum 5.
Proof.
  apply (request_timeout betaEchoes
           (Resolve (GetPrompt "summary" [("timeout", JsNum 5)])) alphaBeta None
           (callTo "getPrompt"
              (promptRequest alphaBeta "summary" [("timeout", JsNum 5)] None)
              ("client-1", sampleRecord 1 "alpha" true))).
  - cbn. apply NoDup_singleton.
  - vm_compute. left.
  - reflexivity.
  - reflexivity.
Defined.

Lemma explicit_zero_timeout_replaced : ¬ explicit_timeout_is_applied.
Proof.
  intros H.
  specialize (H emptyAlpha (Collect ListTools) alphaBeta 0%Z
                (callTo "listTools" (JsObj [("timeout", JsNum 30000)])
                   ("client-1", sampleRecord 1 "alpha" true))).
  assert (Hin : callTo "listTools" (JsObj [("timeout", JsNum 30000)])
                  ("client-1", sampleRecord 1 "alpha" true)
                ∈ invoked (runFanOut emptyAlpha (Collect ListTools) alphaBeta (Some 0%Z))).
  { vm_compute. left. }
  specialize (H Hin). vm_compute in H. discriminate H.
Qed.

(** * What the tasks keep *)

Section Frames.
Context (sdk : Sdk).

Lemma sameTimers_refl w : sameTimers w w.
Proof. done. Qed.

Lemma setupTransportErrorHandling_manager t id name w :
  manager (setupTransportErrorHandling t id name w) = manager w
  ∧ timers (setupTransportErrorHandling t id name w) = timers w
  ∧ nextClient (setupTransportErrorHandling t id name w) = nextClient w
  ∧ nextTimer (setupTransportErrorHandling t id name w) = nextTimer w
  ∧ published (setupTransportErrorHandling t id name w) = published w.
Proof. done. Qed.

Lemma addServer_sameTimers t name clientConfig w :
  sameTimers w (addServer sdk t name clientConfig w).2.
Proof.
  unfold addServer, sameTimers. destruct (setHas _ _); [done|].
  cbn [newClient]. destruct (sdk_connect _ _ _); done.
Qed.

Lemma reconnectClient_sameTimers id w :
  sameTimers w (reconnectClient sdk id w).2.
Proof.
  unfold reconnectClient, sameTimers. destruct (mapGet _ _) as [info|]; [|done].
  destruct (connected info); [done|].
  cbn [newClient]. destruct (sdk_connect _ _ _); done.
Qed.

Lemma onerrorHandler_sameTimers id name e w :
  sameTimers w (onerrorHandler id name e w).
Proof. unfold onerrorHandler. destruct (mapGet _ _); done. Qed.

Lemma settle_sameTimers {A} (r : Run A) w : sameTimers w (settle r w).
Proof. done. Qed.

Lemma tracked_sameTimers w w' : sameTimers w w' → tracked w → tracked w'.
Proof.
  intros (Ht & Hr & Hc) Htr h id a. rewrite Ht, Hr, Hc. apply Htr.
Qed.

Lemma attemptsLeft_sameTimers w w' id :
  sameTimers w w' → attemptsLeft w' id = attemptsLeft w id.
Proof.
  intros (Ht & Hr & Hc). unfold attemptsLeft. by rewrite Ht, Hr, Hc.
Qed.

(** What [scheduleReconnect] does to the timers. *)
Lemma scheduleReconnect_timers id a w :
  let cleared :=
    match reconnectTimers (manager w) !! id with
    | Some h => delete h (timers w)
    | None => timers w
    end in
  let w' := scheduleReconnect id a w in
  config (manager w') = config (manager w)
  ∧ clients (manager w') = clients (manager w)
  ∧ nextClientId (manager w') = nextClientId (manager w)
  ∧ nextClient w' = nextClient w
  ∧ if (a >=? orZero (maxReconnectAttempts (config (manager w))))%Z
    then timers w' = cleared
         ∧ reconnectTimers (manager w') = reconnectTimers (manager w)
    else timers w' = <[nextTimer w := (id, a)]> cleared
         ∧ reconnectTimers (manager w')
           = <[id := nextTimer w]> (reconnectTimers (manager w)).
Proof.
  cbn zeta. unfold scheduleReconnect.
  destruct (reconnectTimers (manager w) !! id) as [h|];
    cbn [clearTimeout setTimers manager config];
    destruct (a >=? orZero (maxReconnectAttempts (config (manager w))))%Z;
    done.
Qed.

Lemma scheduleReconnect_config id a w :
  config (manager (scheduleReconnect id a w)) = config (manager w).
Proof. apply scheduleReconnect_timers. Qed.

Lemma tracked_scheduleReconnect id a w :
  (0 ≤ a)%Z → tracked w → tracked (scheduleReconnect id a w).
Proof.
  intros Ha Htr.
  destruct (scheduleReconnect_timers id a w) as (Hc & _ & _ & _ & Hcase).
  assert (Hcleared : ∀ h id' a',
    match reconnectTimers (manager w) !! id with
    | Some h0 => delete h0 (timers w)
    | None => timers w
    end !! h = Some (id', a') →
    timers w !! h = Some (id', a')
    ∧ (id' = id → False)).
  { intros h id' a' Hl.
    destruct (reconnectTimers (manager w) !! id) as [h0|] eqn:Hh0.
    - apply lookup_delete_Some in Hl as [Hne Hl]. split; [done|].
      intros ->. destruct (Htr _ _ _ Hl) as [Hr _]. congruence.
    - split; [done|]. intros ->. destruct (Htr _ _ _ Hl) as [Hr _]. congruence. }
  intros h id' a'. rewrite Hc.
  destruct (a >=? orZero (maxReconnectAttempts (config (manager w))))%Z eqn:Hmax;
    destruct Hcase as [-> ->].
  - intros Hl. apply Hcleared in Hl as [Hl _]. by apply Htr.
  - intros Hl. apply lookup_insert_Some in Hl as [[<- [= <- <-]]|[Hne Hl]].
    + rewrite lookup_insert_eq. split; [done|]. lia.
    + apply Hcleared in Hl as [Hl Hid].
      rewrite lookup_insert_ne by (intros ->; by apply Hid).
      by apply Htr.
Qed.

Lemma tracked_delete h w : tracked w → tracked (setTimers (delete h (timers w)) w).
Proof.
  intros Htr h' id a Hl. cbn in Hl. apply lookup_delete_Some in Hl as [_ Hl].
  by apply Htr.
Qed.

Lemma tracked_reconnectCallback id a w :
  (0 ≤ a)%Z → tracked w → tracked (reconnectCallback sdk id a w).
Proof.
  intros Ha Htr. unfold reconnectCallback.
  pose proof (reconnectClient_sameTimers id w) as Hsame.
  destruct (reconnectClient sdk id w) as [success w1]. cbn [snd] in Hsame.
  apply (tracked_sameTimers _ _ Hsame) in Htr.
  destruct (negb success && enabled _); [|done].
  apply tracked_scheduleReconnect; [lia|done].
Qed.

Lemma tracked_oncloseHandler id name w :
  tracked w → tracked (oncloseHandler id name w).
Proof.
  intros Htr. unfold oncloseHandler. destruct (mapGet _ _) as [info|]; [|done].
  cbn [emit manager setManager setClients config].
  destruct (enabled _); [|done].
  apply tracked_scheduleReconnect; [done|]. exact Htr.
Qed.

(** What [removeClient] does to the timers. *)
Lemma removeClient_timers id w :
  let w' := (removeClient sdk id w).2 in
  config (manager w') = config (manager w)
  ∧ (mapGet (clients (manager w)) id = None → w' = w)
  ∧ (is_Some (mapGet (clients (manager w)) id) →
     timers w'
     = match reconnectTimers (manager w) !! id with
       | Some h => delete h (timers w)
       | None => timers w
       end
     ∧ reconnectTimers (manager w') = delete id (reconnectTimers (manager w))).
Proof.
  cbn zeta. unfold removeClient.
  destruct (mapGet (clients (manager w)) id) as [info|] eqn:Hget.
  - split; [|split; [done|intros _]].
    + destruct (reconnectTimers (manager w) !! id);
        destruct (connected info); try destruct (sdk_close _ _);
        cbn; unfold mapHas; rewrite Hget; done.
    + destruct (reconnectTimers (manager w) !! id) eqn:Hr;
        destruct (connected info); try destruct (sdk_close _ _);
        cbn; unfold mapHas; rewrite Hget; cbn; rewrite ?Hr;
        (split; [done|]); try done; symmetry; by apply delete_id.
  - split; [done|]. split; [done|]. intros [? ?]. done.
Qed.

Lemma tracked_removeClient id w : tracked w → tracked (removeClient sdk id w).2.
Proof.
  intros Htr. destruct (removeClient_timers id w) as (Hc & Hnone & Hsome).
  destruct (mapGet (clients (manager w)) id) as [info|] eqn:Hget.
  - destruct Hsome as [Ht Hr]; [done|]. intros h id' a. rewrite Hc, Ht, Hr.
    intros Hl.
    assert (Hl' : timers w !! h = Some (id', a) ∧ id' ≠ id).
    { destruct (reconnectTimers (manager w) !! id) as [h0|] eqn:Hh0.
      - apply lookup_delete_Some in Hl as [Hne Hl]. split; [done|].
        intros ->. destruct (Htr _ _ _ Hl) as [Hr' _]. congruence.
      - split; [done|]. intros ->. destruct (Htr _ _ _ Hl) as [Hr' _]. congruence. }
    destruct Hl' as [Hl' Hne]. rewrite lookup_delete_ne by done. by apply Htr.
  - by rewrite Hnone.
Qed.

Lemma run_config task w : config (manager (run sdk task w)) = config (manager w).
Proof.
  destruct task; cbn [run].
  - apply addServer_sameTimers.
  - apply reconnectClient_sameTimers.
  - apply removeClient_timers.
  - done.
  - done.
  - done.
  - destruct (onerror _); try done. apply onerrorHandler_sameTimers.
  - destruct (onclose _) as [| |id name]; try done. unfold oncloseHandler.
    destruct (mapGet _ _); [|done]. destruct (enabled _); [|done].
    by rewrite scheduleReconnect_config.
  - destruct (timers w !! timer) as [[id a]|]; [|done].
    unfold reconnectCallback.
    pose proof (reconnectClient_sameTimers id (setTimers (delete timer (timers w)) w))
      as (_ & _ & Hc).
    destruct (reconnectClient sdk id _) as [success w1]. cbn [snd] in Hc.
    destruct (negb success && enabled _); [|done].
    by rewrite scheduleReconnect_config.
Qed.

Lemma tracked_run task w : tracked w → tracked (run sdk task w).
Proof.
  intros Htr. destruct task; cbn [run].
  - eapply tracked_sameTimers; [apply addServer_sameTimers|done].
  - eapply tracked_sameTimers; [apply reconnectClient_sameTimers|done].
  - by apply tracked_removeClient.
  - eapply tracked_sameTimers; [apply settle_sameTimers|done].
  - eapply tracked_sameTimers; [apply settle_sameTimers|done].
  - eapply tracked_sameTimers; [apply settle_sameTimers|done].
  - destruct (onerror _); try done.
    eapply tracked_sameTimers; [apply onerrorHandler_sameTimers|done].
  - destruct (onclose _); try done. by apply tracked_oncloseHandler.
  - destruct (timers w !! timer) as [[id a]|] eqn:Hl; [|done].
    apply tracked_reconnectCallback; [by destruct (Htr _ _ _ Hl) as [_ [? _]]|].
    by apply tracked_delete.
Qed.
End Frames.

Section Registry.
Context (sdk : Sdk).
Implicit Types (cs : list (ClientIdentifier * ClientInfo)).

Lemma issued_mono n n' id : (n ≤ n')%N → issued n id → issued n' id.
Proof. intros Hle (k & -> & Hk). exists k. split; [done|lia]. Qed.

Lemma issued_next n : ¬ issued n (clientIdOf n).
Proof. intros (k & Heq & Hk). apply clientIdOf_inj in Heq. lia. Qed.

Lemma registry_mono cs n c n' c' :
  (n ≤ n')%N → (c ≤ c')%nat → registry cs n c → registry cs n' c'.
Proof.
  intros Hn Hc (Hnd & Hkeys & Hrefs). split; [done|]. split.
  - eapply Forall_impl; [exact Hkeys|]. intros id. by apply issued_mono.
  - eapply Forall_impl; [exact Hrefs|]. intros e He. cbn in *. lia.
Qed.

Lemma registry_update cs n c k v0 v :
  mapGet cs k = Some v0 → (client_ref (client v) < c)%nat →
  registry cs n c → registry (mapSet cs k v) n c.
Proof.
  intros Hget Hv (Hnd & Hkeys & Hrefs).
  assert (Hk : map fst (mapSet cs k v) = map fst cs).
  { apply mapSet_keys_present. by apply mapGet_Some_keys with v0. }
  split; [by rewrite Hk|]. split; [by rewrite Hk|].
  by apply Forall_mapSet.
Qed.

Lemma registry_update_same cs n c k v0 v :
  mapGet cs k = Some v0 → client v = client v0 →
  registry cs n c → registry (mapSet cs k v) n c.
Proof.
  intros Hget Hv Hreg. apply registry_update with v0; [done| |done].
  destruct Hreg as (_ & _ & Hrefs). rewrite Hv.
  apply mapGet_Some_elem_of in Hget.
  by apply (proj1 (Forall_forall _ _) Hrefs (k, v0)).
Qed.

Lemma registry_delete cs n c k : registry cs n c → registry (mapDelete cs k) n c.
Proof.
  intros (Hnd & Hkeys & Hrefs). unfold registry. rewrite mapDelete_keys.
  split; [by apply NoDup_filter|]. split.
  - apply Forall_forall. intros id [_ Hin]%list_elem_of_filter.
    by apply (proj1 (Forall_forall _ _) Hkeys).
  - by apply Forall_mapDelete.
Qed.

Lemma registry_add cs n c v :
  client_ref (client v) = c →
  registry cs n c → registry (mapSet cs (clientIdOf n) v) (N.succ n) (S c).
Proof.
  intros Hv (Hnd & Hkeys & Hrefs).
  assert (Hfresh : clientIdOf n ∉ map fst cs).
  { intros Hin. apply (issued_next n).
    by apply (proj1 (Forall_forall _ _) Hkeys). }
  rewrite mapSet_keys_absent by done. unfold registry. rewrite map_app. cbn [map fst].
  split; [|split].
  - apply NoDup_app. split; [done|]. split; [|apply NoDup_singleton].
    intros id Hin Hid. apply list_elem_of_singleton in Hid as ->. done.
  - apply Forall_app. split.
    + eapply Forall_impl; [exact Hkeys|]. intros id. apply issued_mono. lia.
    + apply Forall_singleton. exists n. split; [done|lia].
  - apply Forall_app. split.
    + eapply Forall_impl; [exact Hrefs|]. intros e He. cbn in *. lia.
    + apply Forall_singleton. cbn. lia.
Qed.

Lemma registry_afterAttempt {A} (answer : ClientInfo → Outcome A) cs n c :
  registry cs n c → registry (map (afterAttempt answer) cs) n c.
Proof.
  intros (Hnd & Hkeys & Hrefs).
  assert (Hk : map fst (map (afterAttempt answer) cs) = map fst cs).
  { rewrite map_map. apply map_ext. intros [k v]. unfold afterAttempt. cbn.
    destruct (connected v); [|done]. by destruct (failure _). }
  split; [by rewrite Hk|]. split; [by rewrite Hk|].
  apply Forall_fmap. eapply Forall_impl; [exact Hrefs|].
  intros [k v] He. unfold afterAttempt. cbn in *.
  destruct (connected v); [|done]. by destruct (failure _).
Qed.

Lemma registry_runTargeted q m id timeout n c :
  registry (clients m) n c → registry (store (runTargeted sdk q m id timeout)) n c.
Proof.
  intros Hreg.
  assert (H : ∀ operation method found,
    registry (store (clientList sdk operation method found m id timeout)) n c).
  { intros operation method found. unfold clientList.
    destruct (mapGet (clients m) id) as [info|] eqn:Hget; [|done].
    destruct (connected info); cbn [negb]; [|done].
    destruct (tryList _ _ _ _ _) as [[items|]|t]; try done.
    cbn [store]. by apply registry_update_same with info. }
  destruct q; apply H.
Qed.

Lemma registry_run task w : registryOf w → registryOf (run sdk task w).
Proof.
  unfold registryOf. intros Hreg. destruct task; cbn [run].
  - unfold addServer. destruct (setHas _ _); [done|].
    cbn [newClient]. destruct (sdk_connect _ _ _); cbn.
    + by apply registry_add.
    + eapply registry_mono; [| |exact Hreg]; lia.
  - unfold reconnectClient.
    destruct (mapGet (clients (manager w)) id) as [info|] eqn:Hget; [|done].
    destruct (connected info); [done|].
    cbn [newClient]. destruct (sdk_connect _ _ _); cbn.
    + apply registry_update with info; [done|cbn; lia|].
      eapply registry_mono; [| |exact Hreg]; lia.
    + eapply registry_mono; [| |exact Hreg]; lia.
  - unfold removeClient.
    destruct (mapGet (clients (manager w)) id) as [info|] eqn:Hget; [|done].
    destruct (reconnectTimers (manager w) !! id);
      destruct (connected info); try destruct (sdk_close _ _);
      cbn; unfold mapHas; rewrite Hget; cbn; by apply registry_delete.
  - cbn. rewrite runAggregating_store. by apply registry_afterAttempt.
  - cbn. by rewrite runFirst_store.
  - cbn. by apply registry_runTargeted.
  - destruct (onerror _) as [| |id name]; try done. unfold onerrorHandler.
    destruct (mapGet (clients (manager w)) id) as [info|] eqn:Hget; [|done].
    cbn. by apply registry_update_same with info.
  - destruct (onclose _) as [| |id name]; try done. unfold oncloseHandler.
    destruct (mapGet (clients (manager w)) id) as [info|] eqn:Hget; [|done].
    assert (Hupd : registry (mapSet (clients (manager w)) id (withConnected false info))
                     (nextClientId (manager w)) (nextClient w)).
    { by apply registry_update_same with info. }
    destruct (enabled _); [|done].
    destruct (scheduleReconnect_timers id 0
                (emit (transportClosed id name)
                   (setManager
                      (setClients
                         (mapSet (clients (manager w)) id (withConnected false info))
                         (manager w)) w)))
      as (_ & -> & -> & -> & _).
    done.
  - destruct (timers w !! timer) as [[id a]|]; [|done].
    unfold reconnectCallback.
    assert (Hrec : registryOf (reconnectClient sdk id
                                 (setTimers (delete timer (timers w)) w)).2).
    { unfold registryOf, reconnectClient. cbn [manager setTimers].
      destruct (mapGet (clients (manager w)) id) as [info|] eqn:Hget; [|done].
      destruct (connected info); [done|].
      cbn [newClient]. destruct (sdk_connect _ _ _); cbn.
      + apply registry_update with info; [done|cbn; lia|].
        eapply registry_mono; [| |exact Hreg]; lia.
      + eapply registry_mono; [| |exact Hreg]; lia. }
    destruct (reconnectClient sdk id _) as [success w1]. cbn [snd] in Hrec.
    destruct (negb success && enabled _); [|done].
    unfold registryOf in *.
    destruct (scheduleReconnect_timers id (a + 1) w1) as (_ & -> & -> & -> & _).
    done.
Qed.

Lemma consistent_new given ts : consistent (newWorld given ts).
Proof.
  split; cbn.
  - apply NoDup_nil_2.
  - done.
  - done.
  - intros h id a Hl. discriminate Hl.
Qed.

Lemma consistent_run task w : consistent w → consistent (run sdk task w).
Proof.
  intros [Hnd Hkeys Hrefs Htr].
  destruct (registry_run task w) as (Hnd' & Hkeys' & Hrefs'); [done|].
  split; [done|done|done|]. by apply tracked_run.
Qed.

Lemma reachable_consistent w : reachable sdk w → consistent w.
Proof.
  induction 1 as [given ts|task w _ IH]; [apply consistent_new|].
  by apply consistent_run.
Qed.
End Registry.

(** * Lifecycle *)

Section LifecycleFacts.
Context (sdk : Sdk).

(** Claim C4.  [addServer] with a name that is registered throws the
    duplicate-name error and leaves the whole world as it was: no identifier
    is consumed, no record is made, the names are the same, nothing is
    emitted, no hook is installed. *)
Theorem addServer_duplicate_name t name clientConfig w :
  hasServer name w = true →
  addServer sdk t name clientConfig w = (Throw (Error (alreadyExists name)), w).
Proof.
  unfold hasServer, addServer, alreadyExists. intros ->. reflexivity.
Qed.

(** Claim C5, as the code has it.  When the handshake of [addServer]
    fails, [connectionError] is emitted with the cause, the call throws the
    cause (wrapped in an [Error] when it is none), no record is made, the
    name stays unregistered and free for a retry, and no timer is touched.
    The identifier of the attempt is consumed all the same: [nextClientId]
    has moved on by one. *)
Theorem addServer_failed_handshake t name clientConfig w cause :
  hasServer name w = false →
  handshake sdk t name clientConfig w = Rejected cause →
  let r := addServer sdk t name clientConfig w in
  r.1 = Throw (typedError cause)
  ∧ published r.2 = published w ++ [connectionError name (typedError cause)]
  ∧ clients (manager r.2) = clients (manager w)
  ∧ serverNames (manager r.2) = serverNames (manager w)
  ∧ hasServer name r.2 = false
  ∧ reconnectTimers (manager r.2) = reconnectTimers (manager w)
  ∧ timers r.2 = timers w
  ∧ nextClientId (manager r.2) = N.succ (nextClientId (manager w)).
Proof.
  unfold hasServer, handshake, addServer. intros Hname Hconnect. cbn zeta.
  rewrite Hname. cbn [newClient fst snd nextClient setManager] in *.
  rewrite Hconnect. cbn -[setHas]. rewrite Hname. done.
Qed.
End LifecycleFacts.

Lemma addServer_duplicate_name_witness :
  addServer unreachable 3 "alpha" [] alphaBetaWorld
  = (Throw (Error (alreadyExists "alpha")), alphaBetaWorld).
Proof.
  apply (addServer_duplicate_name unreachable 3 "alpha" [] alphaBetaWorld).
  reflexivity.
Defined.

Lemma addServer_failed_handshake_witness :
  nextClientId (manager (addServer unreachable 3 "gamma" [] alphaBetaWorld).2) = 4%N.
Proof.
  apply (addServer_failed_handshake unreachable 3 "gamma" [] alphaBetaWorld
           (ThrownValue (JsStr "ECONNREFUSED"))); reflexivity.
Defined.

Lemma failed_handshake_burns_an_id : ¬ failed_handshake_burns_no_id.
Proof.
  intros H.
  specialize (H unreachable 3%nat "gamma" [] (newWorld noConfig ∅)
                (ThrownValue (JsStr "ECONNREFUSED")) eq_refl eq_refl).
  vm_compute in H. discriminate H.
Qed.

(** * The reconnect timers *)

Section Timers.
Context (sdk : Sdk).

Lemma tracked_atMostOnePending w id : tracked w → atMostOnePending w id.
Proof.
  intros Htr h1 h2 a1 a2 H1 H2.
  destruct (Htr _ _ _ H1) as [Hr1 _]. destruct (Htr _ _ _ H2) as [Hr2 _].
  congruence.
Qed.

Lemma attemptsLeft_pending w id h a :
  tracked w → timers w !! h = Some (id, a) →
  attemptsLeft w id
  = Z.to_nat (orZero (maxReconnectAttempts (config (manager w))) - a)
  ∧ (0 < attemptsLeft w id)%nat.
Proof.
  intros Htr Hl. destruct (Htr _ _ _ Hl) as [Hr Ha].
  unfold attemptsLeft. rewrite Hr, Hl, bool_decide_eq_true_2 by done.
  split; [done|lia].
Qed.

Lemma attemptsLeft_none w id :
  tracked w → attemptsLeft w id = 0%nat → nonePending w id.
Proof.
  intros Htr Hzero h a Hl.
  destruct (attemptsLeft_pending w id h a Htr Hl) as [_ Hpos]. lia.
Qed.

Lemma attemptsLeft_bound w id :
  tracked w →
  (attemptsLeft w id
   ≤ Z.to_nat (orZero (maxReconnectAttempts (config (manager w)))))%nat.
Proof.
  intros Htr. unfold attemptsLeft.
  destruct (reconnectTimers (manager w) !! id) as [h|]; [|lia].
  destruct (timers w !! h) as [[id' a]|] eqn:Hl; [|lia].
  case_bool_decide; [|lia]. destruct (Htr _ _ _ Hl) as [_ Ha]. lia.
Qed.

(** Fewer timers, fewer attempts. *)
Lemma attemptsLeft_fewer w w' id :
  config (manager w') = config (manager w) →
  reconnectTimers (manager w') !! id = reconnectTimers (manager w) !! id →
  (∀ h a, timers w' !! h = Some (id, a) → timers w !! h = Some (id, a)) →
  (attemptsLeft w' id ≤ attemptsLeft w id)%nat.
Proof.
  intros Hc Hr Hsub. unfold attemptsLeft. rewrite Hc, Hr.
  destruct (reconnectTimers (manager w) !! id) as [h|]; [|done].
  destruct (timers w' !! h) as [[id' a]|] eqn:Hl; [|lia].
  case_bool_decide as Hid; [|lia]. subst id'.
  rewrite (Hsub _ _ Hl), bool_decide_eq_true_2 by done. done.
Qed.

Lemma cleared_lookup w id0 h v :
  match reconnectTimers (manager w) !! id0 with
  | Some h0 => delete h0 (timers w)
  | None => timers w
  end !! h = Some v →
  timers w !! h = Some v.
Proof.
  destruct (reconnectTimers (manager w) !! id0); [|done].
  by intros [_ ?]%lookup_delete_Some.
Qed.

Lemma attemptsLeft_schedule_other id0 a w id :
  id0 ≠ id →
  (attemptsLeft (scheduleReconnect id0 a w) id ≤ attemptsLeft w id)%nat.
Proof.
  intros Hne.
  destruct (scheduleReconnect_timers id0 a w) as (Hc & _ & _ & _ & Hcase).
  apply attemptsLeft_fewer; [done| |].
  - destruct (a >=? _)%Z; destruct Hcase as [_ ->]; [done|].
    by rewrite lookup_insert_ne.
  - intros h a'. destruct (a >=? _)%Z; destruct Hcase as [-> _].
    + apply cleared_lookup.
    + intros [[_ [= ? _]]|[_ Hl]]%lookup_insert_Some; [done|].
      by apply cleared_lookup in Hl.
Qed.

Lemma attemptsLeft_schedule_self id a w :
  attemptsLeft (scheduleReconnect id a w) id
  = if (a >=? orZero (maxReconnectAttempts (config (manager w))))%Z
    then 0%nat
    else Z.to_nat (orZero (maxReconnectAttempts (config (manager w))) - a).
Proof.
  destruct (scheduleReconnect_timers id a w) as (Hc & _ & _ & _ & Hcase).
  unfold attemptsLeft. rewrite Hc.
  destruct (a >=? _)%Z; destruct Hcase as [-> ->].
  - destruct (reconnectTimers (manager w) !! id) as [h|]; [|done].
    by rewrite lookup_delete_eq.
  - by rewrite !lookup_insert_eq, bool_decide_eq_true_2.
Qed.

Lemma attemptsLeft_removeClient id0 w id :
  (attemptsLeft (removeClient sdk id0 w).2 id ≤ attemptsLeft w id)%nat.
Proof.
  destruct (removeClient_timers sdk id0 w) as (Hc & Hnone & Hsome).
  destruct (mapGet (clients (manager w)) id0) as [info|]; [|by rewrite Hnone].
  destruct Hsome as [Ht Hr]; [done|].
  destruct (decide (id0 = id)) as [->|Hne].
  - unfold attemptsLeft at 1. rewrite Hr, lookup_delete_eq. lia.
  - apply attemptsLeft_fewer; [done| |].
    + rewrite Hr. by apply lookup_delete_ne.
    + intros h a. rewrite Ht. apply cleared_lookup.
Qed.

(** One task that is no disconnect of the record: a firing of its timer
    uses up an attempt, nothing else adds one. *)
Lemma attemptsLeft_run task w id :
  tracked w →
  disconnects id task w = false →
  ((if firesFor id task w then 1 else 0) + attemptsLeft (run sdk task w) id
   ≤ attemptsLeft w id)%nat.
Proof.
  intros Htr Hdis. destruct task; cbn [run firesFor disconnects] in *.
  - by rewrite (attemptsLeft_sameTimers _ _ _ (addServer_sameTimers sdk _ _ _ w)).
  - by rewrite (attemptsLeft_sameTimers _ _ _ (reconnectClient_sameTimers sdk _ w)).
  - apply attemptsLeft_removeClient.
  - by rewrite (attemptsLeft_sameTimers _ _ _ (settle_sameTimers _ w)).
  - by rewrite (attemptsLeft_sameTimers _ _ _ (settle_sameTimers _ w)).
  - by rewrite (attemptsLeft_sameTimers _ _ _ (settle_sameTimers _ w)).
  - destruct (onerror _); try done.
    by rewrite (attemptsLeft_sameTimers _ _ _ (onerrorHandler_sameTimers _ _ _ w)).
  - destruct (onclose _) as [| |id0 name]; try done.
    apply bool_decide_eq_false in Hdis. unfold oncloseHandler.
    destruct (mapGet _ _) as [info|]; [|done].
    destruct (enabled _); [|done].
    etransitivity; [by apply attemptsLeft_schedule_other|]. done.
  - destruct (timers w !! timer) as [[id0 a]|] eqn:Hl; [|done].
    unfold reconnectCallback.
    pose proof (reconnectClient_sameTimers sdk id0
                  (setTimers (delete timer (timers w)) w)) as Hsame.
    destruct (reconnectClient sdk id0 _) as [success w1]. cbn [snd] in Hsame.
    pose proof (attemptsLeft_sameTimers _ _ id Hsame) as Hleft.
    destruct Hsame as (_ & _ & Hc). cbn [manager setTimers] in Hc.
    case_bool_decide as Hid.
    + subst id0. destruct (attemptsLeft_pending w id timer a Htr Hl) as [Hw Hpos].
      destruct (Htr _ _ _ Hl) as [Hr Ha].
      assert (Hgone : attemptsLeft (setTimers (delete timer (timers w)) w) id = 0%nat).
      { unfold attemptsLeft. cbn [manager setTimers timers].
        by rewrite Hr, lookup_delete_eq. }
      destruct (negb success && enabled _).
      * rewrite attemptsLeft_schedule_self, Hc, Hw.
        destruct (a + 1 >=? _)%Z eqn:Hmax; lia.
      * rewrite Hleft, Hgone. lia.
    + assert (Hdel : (attemptsLeft (setTimers (delete timer (timers w)) w) id
                      ≤ attemptsLeft w id)%nat).
      { apply attemptsLeft_fewer; [done|done|]. cbn [timers setTimers].
        by intros h a' [_ ?]%lookup_delete_Some. }
      destruct (negb success && enabled _).
      * etransitivity; [by apply attemptsLeft_schedule_other|]. lia.
      * lia.
Qed.

Lemma tracked_runAll tasks w : tracked w → tracked (runAll sdk tasks w).
Proof.
  revert w. induction tasks as [|task tasks IH]; intros w Htr; [done|].
  cbn. apply IH. by apply tracked_run.
Qed.

Lemma attemptsLeft_runAll tasks w id :
  tracked w →
  undisturbed sdk id tasks w = true →
  (firings sdk id tasks w + attemptsLeft (runAll sdk tasks w) id
   ≤ attemptsLeft w id)%nat.
Proof.
  revert w. induction tasks as [|task tasks IH]; intros w Htr Hun; [cbn; lia|].
  cbn [undisturbed] in Hun. apply andb_true_iff in Hun as [Hdis Hun].
  apply negb_true_iff in Hdis.
  pose proof (attemptsLeft_run task w id Htr Hdis) as Hstep.
  specialize (IH (run sdk task w) (tracked_run sdk task w Htr) Hun).
  cbn [firings runAll fold_left] in *. unfold runAll in IH. lia.
Qed.

(** Claim C6.  In every world a manager can reach, at most one reconnect
    timer is pending for a record, before and after any tasks.  Over tasks
    none of which is a disconnect of the record, each firing of its timer
    uses up one of the attempts that are left, and nothing adds one; there
    are never more than [maxReconnectAttempts] left, and exactly that many
    right after a disconnect with auto-reconnect.  Once none is left, so
    after [maxReconnectAttempts] firings, no timer is pending for the
    record, and none is scheduled or fires until the next disconnect. *)
Theorem reconnect_attempts_bounded w id tasks :
  reachable sdk w →
  undisturbed sdk id tasks w = true →
  let w' := runAll sdk tasks w in
  atMostOnePending w id
  ∧ atMostOnePending w' id
  ∧ (firings sdk id tasks w + attemptsLeft w' id ≤ attemptsLeft w id)%nat
  ∧ (attemptsLeft w id
     ≤ Z.to_nat (orZero (maxReconnectAttempts (config (manager w)))))%nat
  ∧ (attemptsLeft w' id = 0%nat → nonePending w' id)
  ∧ (∀ t name,
       onclose (hooksOf w t) = ManagerHook id name →
       is_Some (mapGet (clients (manager w)) id) →
       enabled (autoReconnect (config (manager w))) = true →
       attemptsLeft (run sdk (TransportClose t) w) id
       = Z.to_nat (orZero (maxReconnectAttempts (config (manager w))))).
Proof.
  intros Hreach Hun. cbn zeta.
  pose proof (timers_tracked _ (reachable_consistent sdk w Hreach)) as Htr.
  pose proof (tracked_runAll tasks w Htr) as Htr'.
  split; [by apply tracked_atMostOnePending|].
  split; [by apply tracked_atMostOnePending|].
  split; [by apply attemptsLeft_runAll|].
  split; [by apply attemptsLeft_bound|].
  split; [by apply attemptsLeft_none|].
  intros t name Hhook [info Hget] Hauto. cbn [run]. rewrite Hhook.
  unfold oncloseHandler. rewrite Hget.
  cbn [emit setManager setClients manager config]. rewrite Hauto.
  rewrite attemptsLeft_schedule_self. cbn [emit setManager setClients manager config].
  destruct (0 >=? _)%Z eqn:Hmax; lia.
Qed.
End Timers.

Lemma reconnect_attempts_bounded_witness :
  nonePending
    (runAll onlyOnce [TimerFires 1; TimerFires 2; TimerFires 3; TimerFires 2] gammaClosed)
    "client-1".
Proof.
  apply (reconnect_attempts_bounded onlyOnce gammaClosed "client-1"
           [TimerFires 1; TimerFires 2; TimerFires 3; TimerFires 2]).
  - apply (reachable_run onlyOnce (TransportClose 9)).
    apply (reachable_run onlyOnce (AddServer 9 "gamma" [])).
    apply reachable_new.
  - vm_compute. reflexivity.
  - vm_compute. reflexivity.
Defined.

(** * Identifiers, removal and reconnection *)

Section Identity.
Context (sdk : Sdk).

(** The counter of identifiers never goes back. *)
Lemma run_nextClientId task w :
  (nextClientId (manager w) ≤ nextClientId (manager (run sdk task w)))%N.
Proof.
  destruct task; cbn [run].
  - unfold addServer. destruct (setHas _ _); [done|].
    cbn [newClient]. destruct (sdk_connect _ _ _); cbn; lia.
  - unfold reconnectClient. destruct (mapGet _ _) as [info|]; [|done].
    destruct (connected info); [done|].
    cbn [newClient]. by destruct (sdk_connect _ _ _).
  - unfold removeClient. destruct (mapGet _ _) as [info|] eqn:Hget; [|done].
    destruct (reconnectTimers (manager w) !! id);
      destruct (connected info); try destruct (sdk_close _ _);
      cbn; unfold mapHas; rewrite Hget; done.
  - done.
  - done.
  - done.
  - destruct (onerror _); try done. unfold onerrorHandler.
    by destruct (mapGet _ _).
  - destruct (onclose _) as [| |id name]; try done. unfold oncloseHandler.
    destruct (mapGet _ _); [|done]. destruct (enabled _); [|done].
    destruct (scheduleReconnect_timers id 0
                (emit (transportClosed id name)
                   (setManager
                      (setClients
                         (mapSet (clients (manager w)) id (withConnected false c))
                         (manager w)) w)))
      as (_ & _ & -> & _).
    done.
  - destruct (timers w !! timer) as [[id a]|]; [|done].
    unfold reconnectCallback.
    assert (Hrec : (nextClientId (manager w)
                    ≤ nextClientId (manager (reconnectClient sdk id
                        (setTimers (delete timer (timers w)) w)).2))%N).
    { unfold reconnectClient. cbn [manager setTimers].
      destruct (mapGet _ _) as [info|]; [|done].
      destruct (connected info); [done|].
      cbn [newClient]. by destruct (sdk_connect _ _ _). }
    destruct (reconnectClient sdk id _) as [success w1]. cbn [snd] in Hrec.
    destruct (negb success && enabled _); [|done].
    destruct (scheduleReconnect_timers id (a + 1) w1) as (_ & _ & -> & _).
    done.
Qed.

Lemma runAll_nextClientId tasks w :
  (nextClientId (manager w) ≤ nextClientId (manager (runAll sdk tasks w)))%N.
Proof.
  revert w. induction tasks as [|task tasks IH]; intros w; [done|].
  cbn. etransitivity; [apply (run_nextClientId task)|apply IH].
Qed.

(** The identifier that a successful [addServer] returns is the next
    one. *)
Lemma addServer_returns t name clientConfig w id :
  (addServer sdk t name clientConfig w).1 = Return id →
  id = clientIdOf (nextClientId (manager w)).
Proof.
  unfold addServer. destruct (setHas _ _); [done|].
  cbn [newClient]. destruct (sdk_connect _ _ _); cbn; congruence.
Qed.

(** What a successful handshake makes of [addServer]. *)
Lemma addServer_connected t name clientConfig w :
  hasServer name w = false →
  handshake sdk t name clientConfig w = Resolved () →
  let id := clientIdOf (nextClientId (manager w)) in
  let added := addServer sdk t name clientConfig w in
  added.1 = Return id
  ∧ hasServer name added.2 = true
  ∧ clients (manager added.2)
    = mapSet (clients (manager w)) id
        {| client := (newClient name (mergeClientConfig clientConfig) w).1;
           serverName := name; transport := t; connected := true; error := None |}
  ∧ published added.2 = published w ++ [serverAdded id name].
Proof.
  unfold hasServer, handshake, addServer. intros Hname Hconnect. cbn zeta.
  rewrite Hname. cbn [newClient fst snd nextClient setManager] in *.
  rewrite Hconnect. cbn -[setHas]. rewrite setHas_setAdd, String.eqb_refl, orb_true_r. done.
Qed.

(** Claim C8.  [removeClient] of a registered record returns [true] and
    frees its name; a second [removeClient] of the same identifier returns
    [false].  An [addServer] with the freed name whose handshake succeeds
    registers the name again under an identifier other than the removed
    one; and whatever happens later, no [addServer] ever returns the removed
    identifier again. *)
Theorem removeClient_frees_name id info w :
  reachable sdk w →
  mapGet (clients (manager w)) id = Some info →
  let removed := removeClient sdk id w in
  removed.1 = true
  ∧ hasServer (serverName info) removed.2 = false
  ∧ mapGet (clients (manager removed.2)) id = None
  ∧ (removeClient sdk id removed.2).1 = false
  ∧ (∀ t clientConfig,
       handshake sdk t (serverName info) clientConfig removed.2 = Resolved () →
       let added := addServer sdk t (serverName info) clientConfig removed.2 in
       ∃ id', added.1 = Return id' ∧ id' ≠ id
              ∧ hasServer (serverName info) added.2 = true
              ∧ (serverName <$> mapGet (clients (manager added.2)) id')
                = Some (serverName info))
  ∧ (∀ tasks t name clientConfig id',
       (addServer sdk t name clientConfig (runAll sdk tasks removed.2)).1 = Return id' →
       id' ≠ id).
Proof.
  intros Hreach Hget. cbn zeta.
  destruct (reachable_consistent sdk w Hreach) as [_ Hkeys _ _].
  assert (Hid : issued (nextClientId (manager w)) id).
  { apply (proj1 (Forall_forall _ _) Hkeys). by apply mapGet_Some_keys with info. }
  assert (Hrem : (removeClient sdk id w).1 = true
            ∧ serverNames (manager (removeClient sdk id w).2)
              = setDelete (serverNames (manager w)) (serverName info)
            ∧ clients (manager (removeClient sdk id w).2)
              = mapDelete (clients (manager w)) id
            ∧ nextClientId (manager (removeClient sdk id w).2)
              = nextClientId (manager w)).
  { unfold removeClient. rewrite Hget.
    destruct (reconnectTimers (manager w) !! id);
      destruct (connected info); try destruct (sdk_close _ _);
      cbn; unfold mapHas; rewrite Hget; done. }
  destruct Hrem as (Htrue & Hnames & Hclients & Hnext).
  assert (Hfree : hasServer (serverName info) (removeClient sdk id w).2 = false).
  { unfold hasServer. rewrite Hnames. apply setHas_setDelete. }
  assert (Hgone : mapGet (clients (manager (removeClient sdk id w).2)) id = None).
  { rewrite Hclients, mapGet_mapDelete. by rewrite String.eqb_refl. }
  split; [done|]. split; [done|]. split; [done|]. split.
  { unfold removeClient at 1. by rewrite Hgone. }
  assert (Hnew : ∀ tasks t name clientConfig id',
    (addServer sdk t name clientConfig (runAll sdk tasks (removeClient sdk id w).2)).1
    = Return id' → id' ≠ id).
  { intros tasks t name clientConfig id' Hret ->.
    apply addServer_returns in Hret.
    destruct Hid as (k & Hk & Hlt).
    pose proof (runAll_nextClientId tasks (removeClient sdk id w).2) as Hmono.
    rewrite Hnext in Hmono.
    assert (Heq : clientIdOf k
                  = clientIdOf (nextClientId
                      (manager (runAll sdk tasks (removeClient sdk id w).2))))
      by congruence.
    apply clientIdOf_inj in Heq. lia. }
  split; [|exact Hnew].
  intros t clientConfig Hconnect.
  destruct (addServer_connected t (serverName info) clientConfig
              (removeClient sdk id w).2 Hfree Hconnect) as (Hret & Hhas & Hcs & _).
  cbn zeta. eexists. split; [exact Hret|]. split.
  { apply (Hnew [] t (serverName info) clientConfig). exact Hret. }
  split; [done|].
  rewrite Hcs, mapGet_mapSet, String.eqb_refl. done.
Qed.
End Identity.

Section Reconnect.
Context (sdk : Sdk).

(** Claim C7.  [reconnectClient] of an unknown identifier returns [false],
    of a connected record [true], both without any effect.  For a
    disconnected record it makes a client that no record holds and connects
    it over the transport of the record.  On success it returns [true], the
    record holds the new client, is connected and has no error, and
    [clientReconnected] is emitted.  On failure it returns [false], emits
    [reconnectionError], and every record is as before, this one still
    disconnected.  Either way no timer is scheduled and no other record
    changes. *)
Theorem reconnectClient_outcome id w :
  reachable sdk w →
  let r := reconnectClient sdk id w in
  match mapGet (clients (manager w)) id with
  | None => r = (false, w)
  | Some info =>
      if connected info then r = (true, w)
      else
        let c := (newClient (serverName info) DEFAULT_CLIENT_CONFIG w).1 in
        (∀ entry, entry ∈ clients (manager w) →
                  client_ref (client entry.2) ≠ client_ref c)
        ∧ timers r.2 = timers w
        ∧ reconnectTimers (manager r.2) = reconnectTimers (manager w)
        ∧ map fst (clients (manager r.2)) = map fst (clients (manager w))
        ∧ (∀ id', id' ≠ id →
             mapGet (clients (manager r.2)) id' = mapGet (clients (manager w)) id')
        ∧ match reconnection sdk info w with
          | Resolved _ =>
              r.1 = true
              ∧ mapGet (clients (manager r.2)) id
                = Some {| client := c; serverName := serverName info;
                          transport := transport info; connected := true;
                          error := None |}
              ∧ published r.2 = published w ++ [clientReconnected id (serverName info)]
          | Rejected cause =>
              r.1 = false
              ∧ clients (manager r.2) = clients (manager w)
              ∧ published r.2
                = published w ++ [reconnectionError id (typedError cause)]
          end
  end.
Proof.
  intros Hreach. cbn zeta.
  destruct (reachable_consistent sdk w Hreach) as [_ _ Hrefs _].
  unfold reconnectClient, reconnection.
  destruct (mapGet (clients (manager w)) id) as [info|] eqn:Hget; [|done].
  destruct (connected info) eqn:Hconn; [done|].
  cbn [newClient fst]. split.
  { intros entry Hin Heq.
    apply (proj1 (Forall_forall _ _) Hrefs) in Hin. cbn in Heq. lia. }
  destruct (sdk_connect sdk _ (transport info)) as [[]|cause]; cbn.
  - split; [done|]. split; [done|]. split.
    { apply mapSet_keys_present. by apply mapGet_Some_keys with info. }
    split.
    { intros id' Hne. rewrite mapGet_mapSet.
      destruct (String.eqb_spec id id'); [done|done]. }
    rewrite mapGet_mapSet, String.eqb_refl. done.
  - done.
Qed.
End Reconnect.

Lemma reconnectClient_outcome_witness :
  (reconnectClient onlyOnce "client-1" gammaClosed).1 = false
  ∧ clients (manager (reconnectClient onlyOnce "client-1" gammaClosed).2)
    = clients (manager gammaClosed)
  ∧ published (reconnectClient onlyOnce "client-1" gammaClosed).2
    = published gammaClosed
      ++ [reconnectionError "client-1" (Error "Connection closed")].
Proof.
  assert (Hreach : reachable onlyOnce gammaClosed).
  { apply (reachable_run onlyOnce (TransportClose 9)).
    apply (reachable_run onlyOnce (AddServer 9 "gamma" [])).
    apply reachable_new. }
  pose proof (reconnectClient_outcome onlyOnce "client-1" gammaClosed Hreach) as H.
  vm_compute in H. vm_compute. tauto.
Defined.

Lemma removeClient_frees_name_witness :
  (removeClient onlyOnce "client-1" gammaClosed).1 = true
  ∧ hasServer "gamma" (removeClient onlyOnce "client-1" gammaClosed).2 = false.
Proof.
  assert (Hreach : reachable onlyOnce gammaClosed).
  { apply (reachable_run onlyOnce (TransportClose 9)).
    apply (reachable_run onlyOnce (AddServer 9 "gamma" [])).
    apply reachable_new. }
  destruct (removeClient_frees_name onlyOnce "client-1"
              (withConnected false (sampleRecordOf 0 "gamma" 9)) gammaClosed Hreach)
    as (H1 & H2 & _).
  - reflexivity.
  - split; [exact H1|exact H2].
Defined.

(** * Targeted queries *)

Section TargetedFacts.
Context (sdk : Sdk).

Lemma runTargeted_clientList q m id timeout :
  runTargeted sdk q m id timeout
  = clientList sdk (targetedName q) (aggregatingName (aggregatingOf q))
      (aggregatingFound (aggregatingOf q)) m id timeout.
Proof. by destruct q. Qed.

(** X1.  A targeted query ([getClientTools], [getClientResources],
    [getClientPrompts]) for an identifier under which no connected record
    is registered throws a plain error, not-found for an unknown identifier
    and not-connected for a disconnected record; it makes no remote call,
    emits nothing and leaves every record as it is. *)
Theorem targeted_query_refused q m id timeout :
  (∀ info, mapGet (clients m) id = Some info → connected info = false) →
  let r := runTargeted sdk q m id timeout in
  outcome r
  = Throw (Error (match mapGet (clients m) id with
                  | None => notFoundId id
                  | Some _ => notConnectedId id
                  end))
  ∧ invoked r = [] ∧ emitted r = [] ∧ store r = clients m.
Proof.
  intros Hdown. cbn zeta. rewrite runTargeted_clientList. unfold clientList.
  destruct (mapGet (clients m) id) as [info|]; [|done].
  by rewrite (Hdown info eq_refl).
Qed.

(** X2.  A targeted query for a connected record makes exactly one remote
    call, to that record, with the request of the aggregating query of the
    same kind.  When the attempt succeeds it returns what the record
    contributes to that aggregating query and changes nothing.  When it
    fails it throws the error of the attempt itself, not an aggregate,
    emits one [operationError] under the name of the targeted query, and
    records the error on the record; no other record changes. *)
Theorem targeted_query_connected q m id timeout info :
  mapGet (clients m) id = Some info →
  connected info = true →
  let r := runTargeted sdk q m id timeout in
  let answer := listAnswer sdk (aggregatingOf q) m timeout info in
  invoked r
  = [callTo (aggregatingName (aggregatingOf q)) (aggregatingParams m timeout) (id, info)]
  ∧ (∀ id', id' ≠ id → mapGet (store r) id' = mapGet (clients m) id')
  ∧ match failure answer with
    | None =>
        outcome r = Return (gathered answer)
        ∧ emitted r = [] ∧ store r = clients m
    | Some e =>
        outcome r = Throw e
        ∧ emitted r = [operationError (targetedName q) id (serverName info) e]
        ∧ mapGet (store r) id = Some (withError (Some e) info)
    end.
Proof.
  intros Hget Hconn. cbn zeta. rewrite runTargeted_clientList.
  unfold clientList, listAnswer. rewrite Hget, Hconn. cbn [negb].
  fold (aggregatingParams m timeout).
  destruct (tryList sdk _ _ _ info) as [[items|]|t]; cbn; try done.
  split; [done|]. split.
  - intros id' Hne. rewrite mapGet_mapSet. by destruct (String.eqb_spec id id').
  - by rewrite mapGet_mapSet, String.eqb_refl.
Qed.
End TargetedFacts.

Lemma targeted_query_refused_witness :
  outcome (runTargeted betaEchoes GetClientTools betaDown "client-2" None)
  = Throw (Error (notConnectedId "client-2")).
Proof.
  apply (targeted_query_refused betaEchoes GetClientTools betaDown "client-2" None).
  intros info [= <-]. reflexivity.
Defined.

Lemma targeted_query_connected_witness :
  outcome (runTargeted emptyAlpha GetClientTools alphaBeta "client-2" None)
  = Throw (Error "Connection closed").
Proof.
  pose proof (targeted_query_connected emptyAlpha GetClientTools alphaBeta
                "client-2" None (sampleRecord 2 "beta" true) eq_refl eq_refl)
    as (_ & _ & H).
  exact (proj1 H).
Defined.

(** * The names and the order of the records *)

Section Roster.
Context (sdk : Sdk).

Lemma mapSet_projection {X} (P : ClientInfo → X)
    (cs : list (ClientIdentifier * ClientInfo)) k v0 v :
  mapGet cs k = Some v0 → P v = P v0 →
  map (λ entry : ClientIdentifier * ClientInfo, (entry.1, P entry.2)) (mapSet cs k v)
  = map (λ entry : ClientIdentifier * ClientInfo, (entry.1, P entry.2)) cs.
Proof.
  intros Hget HP. induction cs as [|[k0 v1] cs IH]; [done|].
  cbn in Hget |- *. destruct (String.eqb_spec k0 k) as [->|Hne].
  - injection Hget as ->. cbn. by rewrite HP.
  - cbn. by rewrite IH.
Qed.

(** What [scheduleReconnect] leaves alone. *)
Lemma scheduleReconnect_rest id a w :
  clients (manager (scheduleReconnect id a w)) = clients (manager w)
  ∧ serverNames (manager (scheduleReconnect id a w)) = serverNames (manager w)
  ∧ transports (scheduleReconnect id a w) = transports w
  ∧ published (scheduleReconnect id a w) = published w.
Proof.
  unfold scheduleReconnect.
  destruct (reconnectTimers (manager w) !! id);
    cbn [clearTimeout setTimers manager config];
    destruct (a >=? _)%Z; done.
Qed.

Lemma reconnectClient_roster id w :
  roster (reconnectClient sdk id w).2 = roster w
  ∧ serverNames (manager (reconnectClient sdk id w).2) = serverNames (manager w).
Proof.
  unfold roster, reconnectClient.
  destruct (mapGet (clients (manager w)) id) as [info|] eqn:Hget; [|done].
  destruct (connected info); [done|].
  cbn [newClient]. destruct (sdk_connect _ _ _); [|done].
  cbn. split; [|done]. by apply mapSet_projection with info.
Qed.

Lemma afterAttempt_projection {A X} (answer : ClientInfo → Outcome A)
    (P : ClientInfo → X) (cs : list (ClientIdentifier * ClientInfo)) :
  (∀ e info, P (withError e info) = P info) →
  map (λ entry : ClientIdentifier * ClientInfo, (entry.1, P entry.2))
    (map (afterAttempt answer) cs)
  = map (λ entry : ClientIdentifier * ClientInfo, (entry.1, P entry.2)) cs.
Proof.
  intros HP. rewrite map_map. apply map_ext. intros [k v].
  unfold afterAttempt. cbn. destruct (connected v); [|done].
  destruct (failure _); [|done]. cbn. by rewrite HP.
Qed.

Lemma runTargeted_projection {X} (P : ClientInfo → X) q m id timeout :
  (∀ e info, P (withError e info) = P info) →
  map (λ entry : ClientIdentifier * ClientInfo, (entry.1, P entry.2))
    (store (runTargeted sdk q m id timeout))
  = map (λ entry : ClientIdentifier * ClientInfo, (entry.1, P entry.2)) (clients m).
Proof.
  intros HP. rewrite runTargeted_clientList. unfold clientList.
  destruct (mapGet (clients m) id) as [info|] eqn:Hget; [|done].
  destruct (connected info); cbn [negb]; [|done].
  destruct (tryList _ _ _ _ _) as [[items|]|t]; try done.
  cbn [store]. by apply mapSet_projection with info.
Qed.

Lemma roster_keys w : map fst (roster w) = map fst (clients (manager w)).
Proof. unfold roster. by rewrite map_map. Qed.

Lemma roster_names w :
  map snd (roster w)
  = map (λ entry : ClientIdentifier * ClientInfo, serverName entry.2)
      (clients (manager w)).
Proof. unfold roster. by rewrite map_map. Qed.

Lemma run_roster task w :
  reachable sdk w →
  let w' := run sdk task w in
  (roster w' = roster w ∧ listServerNames w' = listServerNames w)
  ∨ (∃ t name clientConfig,
       task = AddServer t name clientConfig
       ∧ hasServer name w = false
       ∧ roster w' = roster w ++ [(clientIdOf (nextClientId (manager w)), name)]
       ∧ listServerNames w' = listServerNames w ++ [name])
  ∨ (∃ id info,
       task = RemoveClient id
       ∧ mapGet (clients (manager w)) id = Some info
       ∧ roster w' = filter (λ p : ClientIdentifier * string, p.1 ≠ id) (roster w)
       ∧ listServerNames w' = setDelete (listServerNames w) (serverName info)).
Proof.
  intros Hreach. cbn zeta.
  destruct (reachable_consistent sdk w Hreach) as [_ Hkeys _ _].
  unfold listServerNames. destruct task; cbn [run].
  - unfold addServer. destruct (setHas (serverNames (manager w)) name) eqn:Hname;
      [by left|].
    cbn [newClient]. destruct (sdk_connect _ _ _); [|by left].
    right. left. exists t, name, clientConfig. split; [done|]. split; [done|].
    unfold roster. cbn. rewrite mapSet_keys_absent.
    + rewrite map_app. unfold setAdd. rewrite Hname. split; reflexivity.
    + intros Hin. apply (issued_next (nextClientId (manager w))).
      by apply (proj1 (Forall_forall _ _) Hkeys).
  - left. apply reconnectClient_roster.
  - unfold removeClient.
    destruct (mapGet (clients (manager w)) id) as [info|] eqn:Hget; [|by left].
    right. right. exists id, info. split; [done|]. split; [done|].
    assert (Hroster : map (λ entry : ClientIdentifier * ClientInfo,
                             (entry.1, serverName entry.2))
                        (mapDelete (clients (manager w)) id)
                      = filter (λ p : ClientIdentifier * string, p.1 ≠ id) (roster w)).
    { unfold roster, mapDelete. clear Hget Hkeys.
      induction (clients (manager w)) as [|[k v] cs IH]; [done|].
      rewrite filter_cons, map_cons, filter_cons. cbn [fst].
      destruct (decide (k ≠ id)); [rewrite map_cons|]; by rewrite IH. }
    destruct (reconnectTimers (manager w) !! id);
      destruct (connected info); try destruct (sdk_close _ _);
      cbn; unfold mapHas; rewrite Hget; cbn; done.
  - left. split; [|done]. unfold roster. cbn. rewrite runAggregating_store.
    by apply afterAttempt_projection.
  - left. split; [|done]. unfold roster. cbn. by rewrite runFirst_store.
  - left. split; [|done]. unfold roster. cbn. by apply runTargeted_projection.
  - left. destruct (onerror _) as [| |id name]; try done. unfold onerrorHandler.
    destruct (mapGet (clients (manager w)) id) as [info|] eqn:Hget; [|done].
    split; [|done]. unfold roster. cbn. by apply mapSet_projection with info.
  - left. destruct (onclose _) as [| |id name]; try done. unfold oncloseHandler.
    destruct (mapGet (clients (manager w)) id) as [info|] eqn:Hget; [|done].
    assert (Hset : map (λ entry : ClientIdentifier * ClientInfo,
                          (entry.1, serverName entry.2))
                     (mapSet (clients (manager w)) id (withConnected false info))
                   = roster w) by (by apply mapSet_projection with info).
    destruct (enabled _); [|done].
    unfold roster.
    destruct (scheduleReconnect_rest id 0
                (emit (transportClosed id name)
                   (setManager
                      (setClients
                         (mapSet (clients (manager w)) id (withConnected false info))
                         (manager w)) w))) as (-> & -> & _).
    done.
  - left. destruct (timers w !! timer) as [[id a]|]; [|done].
    unfold reconnectCallback.
    pose proof (reconnectClient_roster id (setTimers (delete timer (timers w)) w))
      as Hrec.
    destruct (reconnectClient sdk id _) as [success w1]. cbn [snd] in Hrec.
    destruct (negb success && enabled _); [|done].
    unfold roster in *.
    destruct (scheduleReconnect_rest id (a + 1) w1) as (-> & -> & _). done.
Qed.

Lemma filter_by_key_or_value {K V} `{EqDecision K, EqDecision V}
    (l : list (K * V)) k v :
  NoDup (map fst l) → NoDup (map snd l) → (k, v) ∈ l →
  map snd (filter (λ p : K * V, p.1 ≠ k) l) = filter (λ y, y ≠ v) (map snd l).
Proof.
  induction l as [|[k0 v0] l IH]; [done|].
  cbn [map fst snd]. intros [Hk0 Hks]%NoDup_cons [Hv0 Hvs]%NoDup_cons Hin.
  rewrite !filter_cons. cbn [fst].
  apply elem_of_cons in Hin as [[= <- <-]|Hin].
  - rewrite !decide_False by (intros H; by apply H).
    rewrite !filter_all; [done| |].
    + apply Forall_forall. intros y Hy ->. done.
    + apply Forall_forall. intros [k1 v1] Hp Heq. cbn in Heq. subst k1.
      apply Hk0. apply list_elem_of_fmap. by exists (k, v1).
  - assert (k0 ≠ k).
    { intros ->. apply Hk0. apply list_elem_of_fmap. by exists (k, v). }
    assert (v0 ≠ v).
    { intros ->. apply Hv0. apply list_elem_of_fmap. by exists (k, v). }
    rewrite !decide_True by done. cbn [map snd]. by rewrite IH.
Qed.

Lemma namesMatch_run task w :
  reachable sdk w → namesMatch w → namesMatch (run sdk task w).
Proof.
  intros Hreach [Hnames Hnd].
  destruct (reachable_consistent sdk w Hreach) as [Hkeys _ _ _].
  destruct (run_roster task w Hreach)
    as [[Hr Hn]|[(t & name & cfg & _ & Hfree & Hr & Hn)
                |(id & info & _ & Hget & Hr & Hn)]];
    unfold namesMatch, listServerNames in *; rewrite Hr, Hn.
  - done.
  - rewrite map_app, <- Hnames. split; [done|].
    apply NoDup_app. split; [done|]. split; [|apply NoDup_singleton].
    intros y Hy ->%list_elem_of_singleton.
    apply setHas_elem_of in Hy. unfold hasServer in Hfree. congruence.
  - split; [|by apply NoDup_filter].
    unfold setDelete. rewrite Hnames. symmetry.
    apply filter_by_key_or_value.
    + by rewrite roster_keys.
    + by rewrite <- Hnames.
    + apply mapGet_Some_elem_of in Hget. unfold roster.
      apply list_elem_of_fmap. by exists (id, info).
Qed.

Lemma reachable_namesMatch w : reachable sdk w → namesMatch w.
Proof.
  induction 1 as [given ts|task w Hreach IH].
  - split; [done|apply NoDup_nil_2].
  - by apply namesMatch_run.
Qed.

(** X3.  A task leaves the identifiers of the records, their server names
    and their order as they are, with two exceptions: an [addServer] that
    succeeds puts the new record last, under the next identifier, and a
    [removeClient] of a registered record takes that record out.  The set
    of registered names follows: the new name goes last, the name of the
    removed record is deleted. *)
Theorem roster_changes task w :
  reachable sdk w → rosterStep task w (run sdk task w).
Proof. apply run_roster. Qed.

Lemma firstNamed_roster name (cs : list (ClientIdentifier * ClientInfo)) id :
  NoDup (map (λ entry : ClientIdentifier * ClientInfo, serverName entry.2) cs) →
  firstNamed name cs = Some id
  ↔ (id, name) ∈ map (λ entry : ClientIdentifier * ClientInfo,
                        (entry.1, serverName entry.2)) cs.
Proof.
  induction cs as [|[k v] cs IH]; cbn [map firstNamed fst snd].
  - intros _. split; [done|]. by intros ?%elem_of_nil.
  - intros [Hv Hnd]%NoDup_cons. rewrite elem_of_cons.
    destruct (String.eqb_spec (serverName v) name) as [<-|Hne].
    + split; [intros [= ->]; by left|].
      intros [[= -> ]|Hin]; [done|]. exfalso. apply Hv.
      apply list_elem_of_fmap in Hin as ([k1 v1] & [= -> Heq] & Hin).
      apply list_elem_of_fmap. exists (k1, v1). by rewrite Heq.
    + rewrite IH by done. split; [by right|]. intros [[= _ ?]|?]; [done|done].
Qed.

End Roster.

(** * More on the timers *)

Section Punctual.
Context (sdk : Sdk).

Lemma is_Some_mapSet (cs : list (ClientIdentifier * ClientInfo)) k v id :
  is_Some (mapGet cs id) → is_Some (mapGet (mapSet cs k v) id).
Proof. rewrite mapGet_mapSet. by destruct (String.eqb k id). Qed.

Lemma quiet_refl w : quiet w w.
Proof. done. Qed.

Lemma addServer_quiet t name clientConfig w :
  quiet w (addServer sdk t name clientConfig w).2.
Proof.
  split; [apply addServer_sameTimers|].
  unfold addServer. destruct (setHas _ _); [done|].
  cbn [newClient]. destruct (sdk_connect _ _ _); [|done].
  split; [done|]. intros id. apply is_Some_mapSet.
Qed.

Lemma reconnectClient_quiet id w : quiet w (reconnectClient sdk id w).2.
Proof.
  split; [apply reconnectClient_sameTimers|].
  unfold reconnectClient. destruct (mapGet _ _) as [info|]; [|done].
  destruct (connected info); [done|].
  cbn [newClient]. destruct (sdk_connect _ _ _); [|done].
  split; [done|]. intros id'. apply is_Some_mapSet.
Qed.

Lemma onerrorHandler_quiet id name e w : quiet w (onerrorHandler id name e w).
Proof.
  split; [apply onerrorHandler_sameTimers|].
  unfold onerrorHandler. destruct (mapGet _ _); [|done].
  split; [done|]. intros id'. apply is_Some_mapSet.
Qed.

Lemma settle_quiet {A} (r : Run A) w :
  (∀ id, is_Some (mapGet (clients (manager w)) id) → is_Some (mapGet (store r) id)) →
  quiet w (settle r w).
Proof. intros Hkeys. split; [apply settle_sameTimers|]. split; [done|]. exact Hkeys. Qed.

Lemma runAggregating_keys q m timeout id :
  is_Some (mapGet (clients m) id) →
  is_Some (mapGet (store (runAggregating sdk q m timeout)) id).
Proof.
  rewrite runAggregating_store, mapGet_afterAttempt. intros [v ->]. by eexists.
Qed.

Lemma runTargeted_keys q m id0 timeout id :
  is_Some (mapGet (clients m) id) →
  is_Some (mapGet (store (runTargeted sdk q m id0 timeout)) id).
Proof.
  rewrite runTargeted_clientList. unfold clientList.
  destruct (mapGet (clients m) id0) as [info|]; [|done].
  destruct (connected info); cbn [negb]; [|done].
  destruct (tryList _ _ _ _ _) as [[items|]|t]; try done.
  apply is_Some_mapSet.
Qed.

Lemma punctual_quiet w w' : quiet w w' → punctual w → punctual w'.
Proof.
  intros ((Ht & Hr & Hc) & Hn & Hkeys) [H1 H2 H3 H4 H5].
  split; rewrite ?Ht, ?Hr, ?Hc, ?Hn; try done.
  intros h id a Hl. apply Hkeys. by apply H4 with h a.
Qed.

Lemma tracked_quiet w w' : quiet w w' → tracked w → tracked w'.
Proof. intros [Hsame _]. by apply tracked_sameTimers. Qed.

Lemma scheduleReconnect_nextTimer id a w :
  nextTimer (scheduleReconnect id a w)
  = if (a >=? orZero (maxReconnectAttempts (config (manager w))))%Z
    then nextTimer w else S (nextTimer w).
Proof.
  unfold scheduleReconnect.
  destruct (reconnectTimers (manager w) !! id);
    cbn [clearTimeout setTimers manager config];
    destruct (a >=? _)%Z; done.
Qed.

Lemma punctual_scheduleReconnect id a w :
  enabled (autoReconnect (config (manager w))) = true →
  is_Some (mapGet (clients (manager w)) id) →
  punctual w → punctual (scheduleReconnect id a w).
Proof.
  intros Hen Hreg [H1 H2 H3 H4 H5].
  destruct (scheduleReconnect_timers id a w) as (Hc & Hcs & _ & _ & Hcase).
  pose proof (scheduleReconnect_nextTimer id a w) as Hn.
  assert (Hcleared : ∀ h v,
    match reconnectTimers (manager w) !! id with
    | Some h0 => delete h0 (timers w)
    | None => timers w
    end !! h = Some v → timers w !! h = Some v).
  { intros h v. by apply cleared_lookup. }
  destruct (a >=? _)%Z; destruct Hcase as [Ht Hr];
    split; rewrite ?Hc, ?Hcs, ?Ht, ?Hr, ?Hn.
  - intros h v Hl. by apply H1 with v, Hcleared.
  - done.
  - done.
  - intros h id' a' Hl. by apply H4 with h a', Hcleared.
  - intros h id' a' Hl. by apply H5 with h id' a', Hcleared.
  - intros h v [[<- _]|[_ Hl]]%lookup_insert_Some; [lia|].
    apply Hcleared, H1 in Hl. lia.
  - intros id' h [[<- <-]|[_ Hl]]%lookup_insert_Some; [lia|].
    apply H2 in Hl. lia.
  - intros id1 id2 h [[<- <-]|[Hne1 Hl1]]%lookup_insert_Some
      [[<- Heq]|[Hne2 Hl2]]%lookup_insert_Some; try done.
    + apply H2 in Hl2. lia.
    + apply H2 in Hl1. lia.
    + by apply H3 with h.
  - intros h id' a' [[_ [= <- _]]|[_ Hl]]%lookup_insert_Some; [done|].
    by apply H4 with h a', Hcleared.
  - done.
Qed.

Lemma punctual_delete h w : punctual w → punctual (setTimers (delete h (timers w)) w).
Proof.
  intros [H1 H2 H3 H4 H5]. split; cbn; try done.
  - intros h' v [_ Hl]%lookup_delete_Some. by apply H1 with v.
  - intros h' id a [_ Hl]%lookup_delete_Some. by apply H4 with h' a.
  - intros h' id a [_ Hl]%lookup_delete_Some. by apply H5 with h' id a.
Qed.

(** What [removeClient] does to a registered record. *)
Lemma removeClient_registered id info w :
  mapGet (clients (manager w)) id = Some info →
  let w' := (removeClient sdk id w).2 in
  (removeClient sdk id w).1 = true
  ∧ clients (manager w') = mapDelete (clients (manager w)) id
  ∧ serverNames (manager w') = setDelete (serverNames (manager w)) (serverName info)
  ∧ nextClientId (manager w') = nextClientId (manager w)
  ∧ nextTimer w' = nextTimer w
  ∧ nextClient w' = nextClient w
  ∧ transports w' = transports w
  ∧ published w'
    = published w
      ++ (if connected info
          then match sdk_close sdk (transport info) with
               | Some t => [closeError id (typedError t)]
               | None => []
               end
          else [])
      ++ [clientRemoved id (serverName info)].
Proof.
  intros Hget. cbn zeta. unfold removeClient. rewrite Hget.
  destruct (reconnectTimers (manager w) !! id);
    destruct (connected info); try destruct (sdk_close _ _);
    cbn; unfold mapHas; rewrite Hget; cbn; rewrite <- ?app_assoc; done.
Qed.

Lemma punctual_removeClient id w :
  tracked w → punctual w → punctual (removeClient sdk id w).2.
Proof.
  intros Htr [H1 H2 H3 H4 H5].
  destruct (removeClient_timers sdk id w) as (Hc & Hnone & Hsome).
  destruct (mapGet (clients (manager w)) id) as [info|] eqn:Hget;
    [|by rewrite Hnone].
  destruct Hsome as [Ht Hr]; [done|].
  destruct (removeClient_registered id info w Hget)
    as (_ & Hcs & _ & _ & Hn & _).
  assert (Hpending : ∀ h id' a,
    timers (removeClient sdk id w).2 !! h = Some (id', a) →
    timers w !! h = Some (id', a) ∧ id' ≠ id).
  { intros h id' a. rewrite Ht. intros Hl.
    destruct (reconnectTimers (manager w) !! id) as [h0|] eqn:Hh0.
    - apply lookup_delete_Some in Hl as [Hne Hl]. split; [done|].
      intros ->. destruct (Htr _ _ _ Hl) as [Hr' _]. congruence.
    - split; [done|]. intros ->. destruct (Htr _ _ _ Hl) as [Hr' _]. congruence. }
  split; rewrite ?Hc, ?Hn, ?Hr, ?Hcs.
  - intros h [id' a] [Hl _]%Hpending. by apply H1 with (id', a).
  - intros id' h [_ Hl]%lookup_delete_Some. by apply H2 with id'.
  - intros id1 id2 h [_ Hl1]%lookup_delete_Some [_ Hl2]%lookup_delete_Some.
    by apply H3 with h.
  - intros h id' a [Hl Hne]%Hpending. rewrite mapGet_mapDelete.
    destruct (String.eqb_spec id id'); [done|]. by apply H4 with h a.
  - intros h id' a [Hl _]%Hpending. by apply H5 with h id' a.
Qed.

Lemma punctual_run task w :
  tracked w → punctual w → punctual (run sdk task w).
Proof.
  intros Htr Hp. destruct task; cbn [run].
  - eapply punctual_quiet; [apply addServer_quiet|done].
  - eapply punctual_quiet; [apply reconnectClient_quiet|done].
  - by apply punctual_removeClient.
  - eapply punctual_quiet; [|done]. apply settle_quiet.
    intros id. apply runAggregating_keys.
  - eapply punctual_quiet; [|done]. apply settle_quiet.
    intros id. by rewrite runFirst_store.
  - eapply punctual_quiet; [|done]. apply settle_quiet.
    intros id'. apply runTargeted_keys.
  - destruct (onerror _); try done.
    eapply punctual_quiet; [apply onerrorHandler_quiet|done].
  - destruct (onclose _) as [| |id name]; try done. unfold oncloseHandler.
    destruct (mapGet (clients (manager w)) id) as [info|] eqn:Hget; [|done].
    assert (Hq : quiet w
              (emit (transportClosed id name)
                 (setManager
                    (setClients
                       (mapSet (clients (manager w)) id (withConnected false info))
                       (manager w)) w))).
    { split; [done|]. split; [done|]. intros id'. apply is_Some_mapSet. }
    destruct (enabled _) eqn:Hen; [|by apply (punctual_quiet w)].
    apply punctual_scheduleReconnect; [done| |by apply (punctual_quiet w)].
    cbn. by rewrite mapGet_mapSet, String.eqb_refl.
  - destruct (timers w !! timer) as [[id a]|] eqn:Hl; [|done].
    unfold reconnectCallback.
    pose proof (reconnectClient_quiet id (setTimers (delete timer (timers w)) w))
      as Hq.
    destruct (reconnectClient sdk id _) as [success w1]. cbn [snd] in Hq.
    pose proof (punctual_quiet _ _ Hq (punctual_delete timer w Hp)) as Hp1.
    destruct (negb success && enabled _) eqn:Hen; [|done].
    apply andb_true_iff in Hen as [_ Hen].
    apply punctual_scheduleReconnect; [done| |done].
    apply Hq. cbn. by apply (pending_registered w Hp timer id a).
Qed.

Lemma reachable_punctual w : reachable sdk w → punctual w.
Proof.
  induction 1 as [given ts|task w Hreach IH].
  - split; cbn; try done.
  - apply punctual_run; [|done].
    apply (timers_tracked _ (reachable_consistent sdk w Hreach)).
Qed.
End Punctual.

Section TimerFacts.
Context (sdk : Sdk).

Lemma reachable_pending w h id a :
  reachable sdk w →
  timers w !! h = Some (id, a) →
  is_Some (mapGet (clients (manager w)) id)
  ∧ reconnectTimers (manager w) !! id = Some h
  ∧ enabled (autoReconnect (config (manager w))) = true
  ∧ (0 ≤ a < orZero (maxReconnectAttempts (config (manager w))))%Z.
Proof.
  intros Hreach Hl.
  destruct (reachable_punctual sdk w Hreach) as [_ _ _ H4 H5].
  destruct (timers_tracked _ (reachable_consistent sdk w Hreach) h id a Hl) as [Hr Ha].
  split; [by apply H4 with h a|]. split; [done|]. split; [|done].
  by apply H5 with h id a.
Qed.


(** X6.  Without auto-reconnect, or with [maxReconnectAttempts] undefined,
    zero or negative, a manager never has a reconnect timer pending,
    whatever happens to it. *)
Theorem no_timer_without_reconnect w :
  reachable sdk w →
  enabled (autoReconnect (config (manager w))) = false
  ∨ (orZero (maxReconnectAttempts (config (manager w))) ≤ 0)%Z →
  timers w = ∅.
Proof.
  intros Hreach Hoff. apply map_empty. intros h.
  destruct (timers w !! h) as [[id a]|] eqn:Hl; [|done]. exfalso.
  destruct (reachable_punctual sdk w Hreach) as [_ _ _ _ H5].
  destruct (timers_tracked _ (reachable_consistent sdk w Hreach) h id a Hl) as [_ Ha].
  destruct Hoff as [Hoff|Hoff]; [|lia].
  rewrite (H5 h id a Hl) in Hoff. done.
Qed.

(** The pending timers of the other records under [scheduleReconnect]. *)
Lemma scheduleReconnect_others id0 a0 w id h a :
  id ≠ id0 → tracked w → punctual w →
  timers (scheduleReconnect id0 a0 w) !! h = Some (id, a)
  ↔ timers w !! h = Some (id, a).
Proof.
  intros Hne Htr [H1 _ H3 _ _].
  destruct (scheduleReconnect_timers id0 a0 w) as (_ & _ & _ & _ & Hcase).
  assert (Hcleared :
    match reconnectTimers (manager w) !! id0 with
    | Some h0 => delete h0 (timers w)
    | None => timers w
    end !! h = Some (id, a) ↔ timers w !! h = Some (id, a)).
  { destruct (reconnectTimers (manager w) !! id0) as [h0|] eqn:Hh0; [|done].
    rewrite lookup_delete_Some. split; [by intros [_ ?]|]. intros Hl.
    split; [|done]. intros <-. destruct (Htr _ _ _ Hl) as [Hr _].
    apply Hne. by apply H3 with h0. }
  destruct (a0 >=? _)%Z; destruct Hcase as [-> _]; [done|].
  rewrite lookup_insert_Some, Hcleared. split.
  - intros [[_ [= ? _]]|[_ ?]]; [done|done].
  - intros Hl. right. split; [|done]. apply H1 in Hl. lia.
Qed.

Lemma run_others task w id h a :
  tracked w → punctual w →
  timerSubject task w ≠ Some id →
  timers (run sdk task w) !! h = Some (id, a) ↔ timers w !! h = Some (id, a).
Proof.
  intros Htr Hp Hsub. destruct task; cbn [run timerSubject] in *.
  - by rewrite (proj1 (addServer_sameTimers sdk _ _ _ w)).
  - by rewrite (proj1 (reconnectClient_sameTimers sdk _ w)).
  - destruct (removeClient_timers sdk id0 w) as (_ & Hnone & Hsome).
    destruct (mapGet (clients (manager w)) id0) as [info|]; [|by rewrite Hnone].
    destruct Hsome as [-> _]; [done|].
    destruct (reconnectTimers (manager w) !! id0) as [h0|] eqn:Hh0; [|done].
    rewrite lookup_delete_Some. split; [by intros [_ ?]|]. intros Hl.
    split; [|done]. intros <-. destruct (Htr _ _ _ Hl) as [Hr _].
    apply Hsub. f_equal. by apply (kept_apart w Hp) with h0.
  - done.
  - done.
  - done.
  - destruct (onerror _); try done.
    by rewrite (proj1 (onerrorHandler_sameTimers _ _ _ w)).
  - destruct (onclose _) as [| |id0 name]; try done. unfold oncloseHandler.
    destruct (mapGet (clients (manager w)) id0) as [info|] eqn:Hget; [|done].
    assert (Hq : quiet w
              (emit (transportClosed id0 name)
                 (setManager
                    (setClients
                       (mapSet (clients (manager w)) id0 (withConnected false info))
                       (manager w)) w))).
    { split; [done|]. split; [done|]. intros id'. apply is_Some_mapSet. }
    destruct (enabled _); [|done].
    rewrite scheduleReconnect_others; [done|congruence| |].
    + by apply (tracked_quiet w).
    + by apply (punctual_quiet w).
  - destruct (timers w !! timer) as [[id0 a0]|] eqn:Hl; [|done].
    cbn in Hsub.
    assert (Hdel : timers (setTimers (delete timer (timers w)) w) !! h = Some (id, a)
                   ↔ timers w !! h = Some (id, a)).
    { cbn. rewrite lookup_delete_Some. split; [by intros [_ ?]|]. intros Hl'.
      split; [|done]. intros <-. congruence. }
    unfold reconnectCallback.
    pose proof (reconnectClient_quiet sdk id0 (setTimers (delete timer (timers w)) w))
      as Hq.
    destruct (reconnectClient sdk id0 _) as [success w1]. cbn [snd] in Hq.
    pose proof (proj1 (proj1 Hq)) as Ht.
    destruct (negb success && enabled _).
    + rewrite scheduleReconnect_others; [by rewrite Ht|congruence| |].
      * apply (tracked_quiet _ _ Hq). by apply tracked_delete.
      * apply (punctual_quiet _ _ Hq). by apply punctual_delete.
    + by rewrite Ht.
Qed.

(** X7.  The reconnect timers of a record are touched only by a task that
    is about this record: its removal, the close of its transport, its own
    timer going off.  Every other task, in particular the removal or the
    reconnecting of another record, leaves the pending timers of the record
    as they are. *)
Theorem timers_of_other_records_untouched task w id h a :
  reachable sdk w →
  timerSubject task w ≠ Some id →
  timers (run sdk task w) !! h = Some (id, a) ↔ timers w !! h = Some (id, a).
Proof.
  intros Hreach. apply run_others.
  - apply (timers_tracked _ (reachable_consistent sdk w Hreach)).
  - by apply (reachable_punctual sdk).
Qed.

(** X8.  When the reconnect timer of a disconnected record goes off, a
    connect is attempted over the transport of the record.  If it fails,
    [reconnectionError] is emitted, the record stays as it was, and the
    next attempt is scheduled under a new handle with the attempt count one
    higher, unless that count has reached [maxReconnectAttempts]: then no
    timer is pending for the record.  If it succeeds, the record is
    connected, its error is cleared, [clientReconnected] is emitted and no
    timer is pending for the record. *)
Theorem reconnect_timer_fires w h id a info :
  reachable sdk w →
  timers w !! h = Some (id, a) →
  mapGet (clients (manager w)) id = Some info →
  connected info = false →
  let w' := run sdk (TimerFires h) w in
  match reconnection sdk info w with
  | Rejected cause =>
      published w' = published w ++ [reconnectionError id (typedError cause)]
      ∧ clients (manager w') = clients (manager w)
      ∧ if (a + 1 <? orZero (maxReconnectAttempts (config (manager w))))%Z
        then ∀ h' a', timers w' !! h' = Some (id, a')
                      ↔ h' = nextTimer w ∧ a' = (a + 1)%Z
        else nonePending w' id
  | Resolved _ =>
      published w' = published w ++ [clientReconnected id (serverName info)]
      ∧ (∃ c, mapGet (clients (manager w')) id
              = Some (withError None (withConnected true (withClient c info))))
      ∧ nonePending w' id
  end.
Proof.
  intros Hreach Hl Hget Hconn. cbn zeta.
  pose proof (timers_tracked _ (reachable_consistent sdk w Hreach)) as Htr.
  destruct (reachable_pending w h id a Hreach Hl) as (_ & Hr & Hen & Ha).
  assert (Hgone : ∀ h' a', delete h (timers w) !! h' ≠ Some (id, a')).
  { intros h' a' [Hne Hl']%lookup_delete_Some.
    destruct (Htr _ _ _ Hl') as [Hr' _]. congruence. }
  unfold reconnection. cbn [run]. rewrite Hl.
  unfold reconnectCallback, reconnectClient. cbn [manager setTimers].
  rewrite Hget, Hconn. cbn [newClient fst nextClient setTimers].
  destruct (sdk_connect sdk _ (transport info)) as [[]|cause]; cbn [negb andb].
  - cbn. split; [done|]. split.
    + eexists. by rewrite mapGet_mapSet, String.eqb_refl.
    + intros h' a'. apply Hgone.
  - cbn [andb negb emit manager config setupTransportErrorHandling setTransports
         setTimers].
    rewrite Hen.
    match goal with |- context [scheduleReconnect id (a + 1) ?w1] =>
      destruct (scheduleReconnect_timers id (a + 1) w1) as (_ & Hcs & _ & _ & Hcase);
      destruct (scheduleReconnect_rest id (a + 1) w1) as (_ & _ & _ & Hpub);
      rewrite Hcs, Hpub; cbn in Hcase |- *
    end.
    rewrite Hr in Hcase.
    split; [done|]. split; [done|].
    rewrite Z.geb_leb, Z.ltb_antisym in *.
    destruct (_ <=? a + 1)%Z; cbn [negb]; destruct Hcase as [Ht _];
      unfold nonePending; intros h' a'; rewrite Ht.
    + intros [_ Hl']%lookup_delete_Some. by apply Hgone in Hl'.
    + rewrite lookup_insert_Some. split.
      * intros [[<- [= <-]]|[_ [_ Hl']%lookup_delete_Some]]; [done|].
        by apply Hgone in Hl'.
      * intros [-> ->]. by left.
Qed.
End TimerFacts.

Lemma gammaClosed_reachable : reachable onlyOnce gammaClosed.
Proof.
  apply (reachable_run onlyOnce (TransportClose 9)).
  apply (reachable_run onlyOnce (AddServer 9 "gamma" [])).
  apply reachable_new.
Qed.

Lemma alphaClosed_reachable : reachable betaEchoes alphaClosed.
Proof.
  apply (reachable_run betaEchoes (TransportClose 1)).
  apply (reachable_run betaEchoes (AddServer 1 "alpha" [])).
  apply reachable_new.
Qed.

Lemma alphaClosedBetaUp_reachable : reachable betaEchoes alphaClosedBetaUp.
Proof.
  apply (reachable_run betaEchoes (TransportClose 1)).
  apply (reachable_run betaEchoes (AddServer 2 "beta" [])).
  apply (reachable_run betaEchoes (AddServer 1 "alpha" [])).
  apply reachable_new.
Qed.


Lemma no_timer_without_reconnect_witness : timers alphaClosed = ∅.
Proof.
  apply (no_timer_without_reconnect betaEchoes alphaClosed).
  - exact alphaClosed_reachable.
  - left. reflexivity.
Defined.

Lemma timers_of_other_records_untouched_witness :
  timers (run betaEchoes (RemoveClient "client-2") alphaClosedBetaUp) !! 1%nat
  = Some ("client-1", 0%Z).
Proof.
  apply (timers_of_other_records_untouched betaEchoes (RemoveClient "client-2")
           alphaClosedBetaUp "client-1" 1%nat 0%Z).
  - exact alphaClosedBetaUp_reachable.
  - discriminate.
  - reflexivity.
Defined.

Lemma reconnect_timer_fires_witness :
  published (run onlyOnce (TimerFires 1) gammaClosed)
  = published gammaClosed
    ++ [reconnectionError "client-1" (Error "Connection closed")].
Proof.
  pose proof (reconnect_timer_fires onlyOnce gammaClosed 1%nat "client-1" 0%Z
                (withConnected false (sampleRecordOf 0 "gamma" 9))
                gammaClosed_reachable eq_refl eq_refl eq_refl) as H.
  exact (proj1 H).
Defined.

(** * The hooks of the transports *)

Section Hooks.
Context (sdk : Sdk).

Lemma setup_hooksOf t0 id name w t :
  hooksOf (setupTransportErrorHandling t0 id name w) t
  = if decide (t = t0)
    then {| onerror := installed id name (onerror (hooksOf w t));
            onclose := installed id name (onclose (hooksOf w t)) |}
    else hooksOf w t.
Proof.
  unfold setupTransportErrorHandling, hooksOf at 1. cbn [transports setTransports].
  case_decide as Ht.
  - subst t0. rewrite lookup_insert_eq. cbn [default].
    destruct (hooksOf w t) as [[] []]; reflexivity.
  - by rewrite lookup_insert_ne.
Qed.

Lemma hooksOf_emit e w t : hooksOf (emit e w) t = hooksOf w t.
Proof. done. Qed.

Lemma hooksKept_refl w t : hooksKept w w t.
Proof. done. Qed.

Lemma hooksKept_transports w w' t : transports w' = transports w → hooksKept w w' t.
Proof. unfold hooksKept, hooksOf. by intros ->. Qed.

Lemma hooksKept_setup t0 id name w0 w w' t :
  transports w0 = transports w →
  transports w' = transports (setupTransportErrorHandling t0 id name w0) →
  hooksKept w w' t.
Proof.
  intros H0 H'. unfold hooksKept.
  assert (Hw' : hooksOf w' t = hooksOf (setupTransportErrorHandling t0 id name w0) t)
    by (unfold hooksOf; by rewrite H').
  assert (Hw0 : hooksOf w0 t = hooksOf w t) by (unfold hooksOf; by rewrite H0).
  rewrite Hw', setup_hooksOf, Hw0. case_decide; [|done]. cbn.
  split; intros Hslot; by destruct (_ (hooksOf w t)).
Qed.

Lemma hooksKept_trans w1 w2 w3 t :
  hooksKept w1 w2 t → hooksKept w2 w3 t → hooksKept w1 w3 t.
Proof.
  intros [Hc12 He12] [Hc23 He23]. split; intros Hslot.
  - rewrite <- (Hc12 Hslot). apply Hc23. by rewrite (Hc12 Hslot).
  - rewrite <- (He12 Hslot). apply He23. by rewrite (He12 Hslot).
Qed.

Lemma reconnectClient_hooksKept id w t : hooksKept w (reconnectClient sdk id w).2 t.
Proof.
  unfold reconnectClient. destruct (mapGet _ _) as [info|]; [|done].
  destruct (connected info); [done|].
  cbn [newClient]. destruct (sdk_connect _ _ _); cbn [snd];
    eapply hooksKept_setup; try reflexivity; done.
Qed.

Lemma removeClient_transports id w :
  transports (removeClient sdk id w).2 = transports w.
Proof.
  destruct (mapGet (clients (manager w)) id) as [info|] eqn:Hget.
  - by destruct (removeClient_registered sdk id info w Hget)
      as (_ & _ & _ & _ & _ & _ & ? & _).
  - unfold removeClient. by rewrite Hget.
Qed.

Lemma run_hooksKept task w t : hooksKept w (run sdk task w) t.
Proof.
  destruct task; cbn [run].
  - unfold addServer. destruct (setHas _ _); [done|].
    cbn [newClient]. destruct (sdk_connect _ _ _); cbn [snd];
      eapply hooksKept_setup; try reflexivity; done.
  - apply reconnectClient_hooksKept.
  - apply hooksKept_transports, removeClient_transports.
  - done.
  - done.
  - done.
  - apply hooksKept_transports. destruct (onerror _) as [| |id name]; try done.
    unfold onerrorHandler. by destruct (mapGet _ _).
  - apply hooksKept_transports. destruct (onclose _) as [| |id name]; try done.
    unfold oncloseHandler. destruct (mapGet _ _); [|done].
    destruct (enabled _); [|done].
    by destruct (scheduleReconnect_rest id 0
                   (emit (transportClosed id name)
                      (setManager
                         (setClients
                            (mapSet (clients (manager w)) id (withConnected false c))
                            (manager w)) w))) as (_ & _ & -> & _).
  - destruct (timers w !! timer) as [[id a]|]; [|done].
    unfold reconnectCallback.
    pose proof (reconnectClient_hooksKept id (setTimers (delete timer (timers w)) w) t)
      as Hrec.
    destruct (reconnectClient sdk id _) as [success w1]. cbn [snd] in Hrec.
    apply (hooksKept_trans w (setTimers (delete timer (timers w)) w)); [done|].
    destruct (negb success && enabled _); [|done].
    apply (hooksKept_trans _ w1); [done|].
    apply hooksKept_transports.
    by destruct (scheduleReconnect_rest id (a + 1) w1) as (_ & _ & -> & _).
Qed.


(** X10.  A transport that went through a failed [addServer] stays bound
    to the identifier of that attempt.  When the caller retries with the
    same transport and the handshake succeeds, the new record gets the next
    identifier, no handler is installed for it, and a close of the
    transport changes nothing: the record stays connected and no event is
    emitted. *)
Theorem retry_on_same_transport t name clientConfig clientConfig' w cause :
  reachable sdk w →
  hasServer name w = false →
  onclose (hooksOf w t) = NoHook →
  handshake sdk t name clientConfig w = Rejected cause →
  let w1 := (addServer sdk t name clientConfig w).2 in
  handshake sdk t name clientConfig' w1 = Resolved () →
  let added := addServer sdk t name clientConfig' w1 in
  let id := clientIdOf (N.succ (nextClientId (manager w))) in
  added.1 = Return id
  ∧ isClientHealthy id added.2 = true
  ∧ onclose (hooksOf added.2 t) = ManagerHook (clientIdOf (nextClientId (manager w))) name
  ∧ run sdk (TransportClose t) added.2 = added.2.
Proof.
  intros Hreach Hfree Hslot Hfail. cbn zeta.
  destruct (reachable_consistent sdk w Hreach) as [_ Hkeys _ _].
  assert (Hw1 : (addServer sdk t name clientConfig w).2
                = emit (connectionError name (typedError cause))
                    (setupTransportErrorHandling t
                       (clientIdOf (nextClientId (manager w))) name
                       (newClient name (mergeClientConfig clientConfig)
                          (setManager
                             (setNextClientId (N.succ (nextClientId (manager w)))
                                (manager w)) w)).2)).
  { unfold addServer, handshake, hasServer in *. rewrite Hfree.
    cbn [newClient fst snd nextClient setManager] in *. by rewrite Hfail. }
  rewrite Hw1. set (w1 := emit _ _) in *. intros Hok.
  assert (Hfree1 : hasServer name w1 = false) by exact Hfree.
  destruct (addServer_connected sdk t name clientConfig' w1 Hfree1 Hok)
    as (Hret & _ & Hcs & _).
  assert (Hhook1 : onclose (hooksOf w1 t)
                   = ManagerHook (clientIdOf (nextClientId (manager w))) name).
  { unfold w1. rewrite (hooksOf_emit _ _ t), setup_hooksOf.
    rewrite decide_True by done. cbn [onclose].
    change (hooksOf (newClient _ _ _).2 t) with (hooksOf w t). by rewrite Hslot. }
  assert (Hhook2 : onclose (hooksOf (addServer sdk t name clientConfig' w1).2 t)
                   = ManagerHook (clientIdOf (nextClientId (manager w))) name).
  { rewrite <- Hhook1. apply (run_hooksKept (AddServer t name clientConfig') w1 t).
    by rewrite Hhook1. }
  split; [exact Hret|]. split.
  { unfold isClientHealthy. rewrite Hcs, mapGet_mapSet, String.eqb_refl. done. }
  split; [exact Hhook2|].
  cbn [run]. rewrite Hhook2. unfold oncloseHandler. rewrite Hcs, mapGet_mapSet.
  destruct (String.eqb_spec (clientIdOf (nextClientId (manager w1)))
              (clientIdOf (nextClientId (manager w)))) as [Heq|_].
  { apply clientIdOf_inj in Heq. cbn in Heq. lia. }
  change (clients (manager w1)) with (clients (manager w)).
  assert (Hnone : mapGet (clients (manager w)) (clientIdOf (nextClientId (manager w)))
                  = None).
  { apply mapGet_None_keys. intros Hin. apply (issued_next (nextClientId (manager w))).
    by apply (proj1 (Forall_forall _ _) Hkeys). }
  by rewrite Hnone.
Qed.
End Hooks.

(** * The handlers, removal and registration *)

Section Handlers.
Context (sdk : Sdk).

(** The identifiers that a fan-out goes to depend on the [connected] flags
    only. *)
Lemma connected_keys (cs cs' : list (ClientIdentifier * ClientInfo)) :
  map (λ entry : ClientIdentifier * ClientInfo, (entry.1, connected entry.2)) cs'
  = map (λ entry : ClientIdentifier * ClientInfo, (entry.1, connected entry.2)) cs →
  map fst (filter (λ entry : ClientIdentifier * ClientInfo, connected entry.2) cs')
  = map fst (filter (λ entry : ClientIdentifier * ClientInfo, connected entry.2) cs).
Proof.
  revert cs'. induction cs as [|[k v] cs IH]; intros [|[k' v'] cs']; try done.
  cbn [map fst snd]. intros [= -> Hc Hrest].
  rewrite !connected_filter_cons. cbn [snd]. rewrite Hc.
  destruct (connected v); cbn [map fst]; by rewrite (IH cs').
Qed.

Lemma connectedEntries_keys m id info :
  NoDup (map fst (clients m)) →
  mapGet (clients m) id = Some info →
  id ∈ map fst (connectedEntries m) ↔ connected info = true.
Proof.
  intros Hnd Hget. unfold connectedEntries. split.
  - intros ([k v] & -> & [Hc Hin]%list_elem_of_filter)%list_elem_of_fmap.
    cbn in *. apply (elem_of_mapGet _ _ _ Hnd) in Hin.
    rewrite Hget in Hin. injection Hin as <-. by destruct (connected info).
  - intros Hc. apply list_elem_of_fmap. exists (id, info). split; [done|].
    apply list_elem_of_filter. split; [cbn; by rewrite Hc|].
    by apply mapGet_Some_elem_of.
Qed.

(** X11.  When a transport runs the [onclose] handler that the manager
    installed, and the record of the handler is in the store, the record
    is marked disconnected and nothing else of it changes,
    [transportClosed] is emitted, no other record changes, and fan-out
    queries no longer go to the record.  Without auto-reconnect no timer is
    touched.  When the record is not in the store any more, nothing
    happens at all. *)
Theorem transport_close_handled t id name w :
  reachable sdk w →
  onclose (hooksOf w t) = ManagerHook id name →
  let w' := run sdk (TransportClose t) w in
  match mapGet (clients (manager w)) id with
  | None => w' = w
  | Some info =>
      mapGet (clients (manager w')) id = Some (withConnected false info)
      ∧ (∀ id', id' ≠ id →
           mapGet (clients (manager w')) id' = mapGet (clients (manager w)) id')
      ∧ published w' = published w ++ [transportClosed id name]
      ∧ (id ∉ map fst (connectedEntries (manager w')))
      ∧ (enabled (autoReconnect (config (manager w))) = false →
         timers w' = timers w
         ∧ reconnectTimers (manager w') = reconnectTimers (manager w))
  end.
Proof.
  intros Hreach Hhook. cbn zeta. cbn [run]. rewrite Hhook. unfold oncloseHandler.
  destruct (mapGet (clients (manager w)) id) as [info|] eqn:Hget; [|done].
  destruct (reachable_consistent sdk w Hreach) as [Hnd _ _ _].
  set (w2 := emit _ _).
  assert (Hcs : ∀ w', clients (manager w') = clients (manager w2) →
    mapGet (clients (manager w')) id = Some (withConnected false info)
    ∧ (∀ id', id' ≠ id →
         mapGet (clients (manager w')) id' = mapGet (clients (manager w)) id')
    ∧ (id ∉ map fst (connectedEntries (manager w')))).
  { intros w' Hw'.
    assert (Hm : clients (manager w')
                 = mapSet (clients (manager w)) id (withConnected false info))
      by (by rewrite Hw').
    split; [by rewrite Hm, mapGet_mapSet, String.eqb_refl|]. split.
    - intros id' Hne. rewrite Hm, mapGet_mapSet. by destruct (String.eqb_spec id id').
    - rewrite (connectedEntries_keys (manager w') id (withConnected false info));
        [done| |].
      + rewrite Hm, mapSet_keys_present; [done|]. by apply mapGet_Some_keys with info.
      + by rewrite Hm, mapGet_mapSet, String.eqb_refl. }
  change (enabled (autoReconnect (config (manager w2))))
    with (enabled (autoReconnect (config (manager w)))).
  destruct (enabled _) eqn:Hen.
  - destruct (scheduleReconnect_rest id 0 w2) as (Hc & _ & _ & Hp).
    destruct (Hcs _ Hc) as (H1 & H2 & H3). rewrite Hp. done.
  - destruct (Hcs w2 eq_refl) as (H1 & H2 & H3). done.
Qed.

(** X12.  When a transport runs the [onerror] handler that the manager
    installed, and the record of the handler is in the store, the error is
    recorded on the record and [transportError] is emitted.  The record
    keeps its connection state, so fan-out queries go to the same records
    as before, but [isClientHealthy] is false for it afterwards.  No other
    record and no timer changes.  When the record is not in the
    store any more, nothing happens at all. *)
Theorem transport_error_handled t id name e w :
  onerror (hooksOf w t) = ManagerHook id name →
  let w' := run sdk (TransportError t e) w in
  match mapGet (clients (manager w)) id with
  | None => w' = w
  | Some info =>
      mapGet (clients (manager w')) id = Some (withError (Some e) info)
      ∧ (∀ id', id' ≠ id →
           mapGet (clients (manager w')) id' = mapGet (clients (manager w)) id')
      ∧ published w' = published w ++ [transportError id name e]
      ∧ map fst (connectedEntries (manager w')) = map fst (connectedEntries (manager w))
      ∧ isClientHealthy id w' = false
      ∧ timers w' = timers w
  end.
Proof.
  intros Hhook. cbn zeta. cbn [run]. rewrite Hhook. unfold onerrorHandler.
  destruct (mapGet (clients (manager w)) id) as [info|] eqn:Hget; [|done].
  cbn. split; [by rewrite mapGet_mapSet, String.eqb_refl|]. split.
  { intros id' Hne. rewrite mapGet_mapSet. by destruct (String.eqb_spec id id'). }
  split; [done|]. split.
  { apply connected_keys. by apply mapSet_projection with info. }
  split; [|done].
  unfold isClientHealthy. cbn. rewrite mapGet_mapSet, String.eqb_refl. cbn.
  apply andb_false_r.
Qed.

End Handlers.

Section Registration.
Context (sdk : Sdk).

Lemma reachable_firstNamed w name id :
  reachable sdk w →
  getClientIdByServerName name w = Some id
  ↔ ∃ info, mapGet (clients (manager w)) id = Some info ∧ serverName info = name.
Proof.
  intros Hreach. destruct (reachable_namesMatch sdk w Hreach) as [Hnames Hnd].
  destruct (reachable_consistent sdk w Hreach) as [Hkeys _ _ _].
  rewrite roster_names in Hnames. unfold getClientIdByServerName.
  rewrite firstNamed_roster by (by rewrite <- Hnames). split.
  - intros ([k v] & [= -> ->] & Hin)%list_elem_of_fmap.
    exists v. split; [|done]. by apply elem_of_mapGet.
  - intros (info & Hget & <-). apply list_elem_of_fmap. exists (id, info).
    split; [done|]. by apply mapGet_Some_elem_of.
Qed.

(** X14.  An [addServer] for a free name whose handshake succeeds returns
    an identifier that no record has, puts the new record last in the
    order of the fan-out, and registers the name last.  The record is found
    by its name and by its identifier, is connected, healthy and without
    error; [serverAdded] is emitted; no other record and no timer
    changes. *)
Theorem addServer_registers t name clientConfig w :
  reachable sdk w →
  hasServer name w = false →
  handshake sdk t name clientConfig w = Resolved () →
  let added := addServer sdk t name clientConfig w in
  let id := clientIdOf (nextClientId (manager w)) in
  added.1 = Return id
  ∧ (id ∉ listClientIds w)
  ∧ listClientIds added.2 = listClientIds w ++ [id]
  ∧ listServerNames added.2 = listServerNames w ++ [name]
  ∧ getClientIdByServerName name added.2 = Some id
  ∧ getClientInfo id added.2
    = Some {| view_serverName := name; view_transport := t;
              view_connected := true; view_error := None |}
  ∧ isClientHealthy id added.2 = true
  ∧ published added.2 = published w ++ [serverAdded id name]
  ∧ (∀ id', id' ≠ id →
       mapGet (clients (manager added.2)) id' = mapGet (clients (manager w)) id')
  ∧ timers added.2 = timers w.
Proof.
  intros Hreach Hfree Hok. cbn zeta.
  destruct (reachable_consistent sdk w Hreach) as [_ Hkeys _ _].
  destruct (addServer_connected sdk t name clientConfig w Hfree Hok)
    as (Hret & Hhas & Hcs & Hpub).
  assert (Hnew : clientIdOf (nextClientId (manager w)) ∉ map fst (clients (manager w))).
  { intros Hin. apply (issued_next (nextClientId (manager w))).
    by apply (proj1 (Forall_forall _ _) Hkeys). }
  assert (Hget : mapGet (clients (manager (addServer sdk t name clientConfig w).2))
                   (clientIdOf (nextClientId (manager w)))
                 = Some {| client := (newClient name (mergeClientConfig clientConfig) w).1;
                           serverName := name; transport := t; connected := true;
                           error := None |}).
  { by rewrite Hcs, mapGet_mapSet, String.eqb_refl. }
  split; [done|]. split; [done|]. split.
  { unfold listClientIds. rewrite Hcs, mapSet_keys_absent by done.
    by rewrite map_app. }
  split.
  { unfold listServerNames, addServer. unfold hasServer in Hfree. rewrite Hfree.
    unfold handshake in Hok. cbn [newClient fst snd nextClient setManager] in *.
    rewrite Hok. cbn. unfold setAdd. by rewrite Hfree. }
  split.
  { apply reachable_firstNamed.
    - apply (reachable_run sdk (AddServer t name clientConfig) w Hreach).
    - eexists. split; [exact Hget|done]. }
  split; [unfold getClientInfo; by rewrite Hget|].
  split; [unfold isClientHealthy; by rewrite Hget|].
  split; [done|]. split.
  { intros id' Hne. rewrite Hcs, mapGet_mapSet.
    by destruct (String.eqb_spec (clientIdOf (nextClientId (manager w))) id'). }
  apply addServer_sameTimers.
Qed.

(** An identifier that was handed out and is not in the store stays out. *)
Lemma run_stays_removed task w id :
  reachable sdk w →
  issued (nextClientId (manager w)) id →
  mapGet (clients (manager w)) id = None →
  mapGet (clients (manager (run sdk task w))) id = None.
Proof.
  intros Hreach Hid Hnone. apply mapGet_None_keys. apply mapGet_None_keys in Hnone.
  rewrite <- roster_keys in *.
  destruct (run_roster sdk task w Hreach)
    as [[-> _]|[(t & name & cfg & _ & _ & -> & _)|(id0 & info & _ & _ & -> & _)]].
  - done.
  - rewrite map_app. cbn. rewrite elem_of_app, list_elem_of_singleton.
    intros [? | ->]; [done|]. by apply (issued_next (nextClientId (manager w))).
  - intros ([k v] & -> & [_ Hin]%list_elem_of_filter)%list_elem_of_fmap.
    apply Hnone. apply list_elem_of_fmap. by exists (k, v).
Qed.

Lemma runAll_stays_removed tasks w id :
  reachable sdk w →
  issued (nextClientId (manager w)) id →
  mapGet (clients (manager w)) id = None →
  mapGet (clients (manager (runAll sdk tasks w))) id = None.
Proof.
  revert w. induction tasks as [|task tasks IH]; intros w Hreach Hid Hnone; [done|].
  change (runAll sdk (task :: tasks) w) with (runAll sdk tasks (run sdk task w)).
  apply IH.
  - by apply reachable_run.
  - eapply issued_mono; [apply run_nextClientId|done].
  - by apply run_stays_removed.
Qed.

(** X15.  An identifier that has been handed out and is no longer in the
    store, because its record was removed or its handshake failed, never
    comes back: after any tasks no record has it, [getClientInfo] finds
    nothing under it, and it is not healthy. *)
Theorem removed_id_stays_removed tasks w id :
  reachable sdk w →
  issued (nextClientId (manager w)) id →
  mapGet (clients (manager w)) id = None →
  let w' := runAll sdk tasks w in
  mapGet (clients (manager w')) id = None
  ∧ getClientInfo id w' = None
  ∧ isClientHealthy id w' = false
  ∧ (id ∉ listClientIds w').
Proof.
  intros Hreach Hid Hnone. cbn zeta.
  assert (Hgone : mapGet (clients (manager (runAll sdk tasks w))) id = None)
    by by apply runAll_stays_removed.
  split; [done|]. unfold getClientInfo, isClientHealthy, listClientIds.
  rewrite Hgone. split; [done|]. split; [done|]. by apply mapGet_None_keys.
Qed.

End Registration.

Section Records.
Context (sdk : Sdk).

Local Ltac settled :=
  cbn [fst snd]; split; [by constructor|];
  split; cbn; first [intros ?; by left | done | intros; congruence].

Lemma reconnectClient_record id0 w id info :
  mapGet (clients (manager w)) id = Some info →
  ∃ info', mapGet (clients (manager (reconnectClient sdk id0 w).2)) id = Some info'
           ∧ recordStep info info'
           ∧ (info' = info
              ∨ id0 = id ∧ connected info = false
                ∧ (reconnectClient sdk id0 w).1 = true
                ∧ published (reconnectClient sdk id0 w).2
                  = published w ++ [clientReconnected id (serverName info)]).
Proof.
  intros Hget. unfold reconnectClient.
  destruct (mapGet (clients (manager w)) id0) as [info0|] eqn:Hget0.
  2:{ exists info. split; [done|]. split; [constructor|by left]. }
  destruct (connected info0) eqn:Hconn.
  { exists info. split; [done|]. split; [constructor|by left]. }
  cbn [newClient]. destruct (sdk_connect _ _ _).
  - cbn [snd fst emit manager setManager setClients clients setupTransportErrorHandling
         setTransports published].
    rewrite mapGet_mapSet. destruct (String.eqb_spec id0 id) as [->|Hne].
    + assert (info0 = info) as -> by congruence.
      eexists. split; [done|]. split; [by constructor|]. right. done.
    + exists info. split; [done|]. split; [constructor|by left].
  - exists info. split; [done|]. split; [constructor|by left].
Qed.

Lemma run_record task w id info :
  reachable sdk w →
  mapGet (clients (manager w)) id = Some info →
  match mapGet (clients (manager (run sdk task w))) id with
  | None => task = RemoveClient id
  | Some info' =>
      recordStep info info'
      ∧ (connected info' = true →
         connected info = true
         ∨ reconnects task w id
           ∧ published (run sdk task w)
             = published w ++ [clientReconnected id (serverName info)])
      ∧ (connected info' = false →
         connected info = false
         ∨ ∃ t name, task = TransportClose t
                     ∧ onclose (hooksOf w t) = ManagerHook id name)
  end.
Proof.
  intros Hreach Hget.
  destruct (reachable_consistent sdk w Hreach) as [_ Hkeys _ _].
  destruct task as [t name cfg|id0|id0|q timeout|q timeout|q id0 timeout|t e|t|h];
    cbn [run].
  - unfold addServer. destruct (setHas _ _); [cbn; rewrite Hget; settled|].
    cbn [newClient]. destruct (sdk_connect _ _ _); cbn; [|rewrite Hget; settled].
    rewrite mapGet_mapSet.
    destruct (String.eqb_spec (clientIdOf (nextClientId (manager w))) id) as [<-|_];
      [|rewrite Hget; settled].
    exfalso. apply (issued_next (nextClientId (manager w))).
    apply (proj1 (Forall_forall _ _) Hkeys). by apply (mapGet_Some_keys _ _ info).
  - destruct (reconnectClient_record id0 w id info Hget)
      as (info' & -> & Hstep & [->|(-> & Hconn & _ & Hpub)]); [settled|].
    split; [done|]. split; [|by left]. intros _. right. split; [by left|done].
  - destruct (mapGet (clients (manager w)) id0) as [info0|] eqn:Hget0.
    + destruct (removeClient_registered sdk id0 info0 w Hget0) as (_ & -> & _).
      rewrite mapGet_mapDelete. destruct (String.eqb_spec id0 id) as [->|_]; [done|].
      rewrite Hget. settled.
    + unfold removeClient. rewrite Hget0. cbn. rewrite Hget. settled.
  - cbn. rewrite runAggregating_store, mapGet_afterAttempt, Hget. cbn.
    unfold afterAttempt. cbn. destruct (connected info) eqn:Hconn; [|settled].
    destruct (failure _); cbn [fst snd]; (split; [by constructor|]);
      split; cbn; intros; first [by left | congruence].
  - cbn. rewrite runFirst_store, Hget. settled.
  - cbn. rewrite runTargeted_clientList. unfold clientList.
    destruct (mapGet (clients (manager w)) id0) as [info0|] eqn:Hget0;
      [|cbn; rewrite Hget; settled].
    destruct (connected info0); cbn [negb]; [|cbn; rewrite Hget; settled].
    destruct (tryList _ _ _ _ _) as [[items|]|thrown]; cbn;
      try (rewrite Hget; settled).
    rewrite mapGet_mapSet. destruct (String.eqb_spec id0 id) as [->|_];
      [|rewrite Hget; settled].
    assert (info0 = info) as -> by congruence. settled.
  - destruct (onerror (hooksOf w t)) as [| |id0 name]; try (rewrite Hget; settled).
    unfold onerrorHandler.
    destruct (mapGet (clients (manager w)) id0) as [info0|] eqn:Hget0;
      [|rewrite Hget; settled].
    cbn. rewrite mapGet_mapSet. destruct (String.eqb_spec id0 id) as [->|_];
      [|rewrite Hget; settled].
    assert (info0 = info) as -> by congruence. settled.
  - destruct (onclose (hooksOf w t)) as [| |id0 name] eqn:Hhook;
      try (rewrite Hget; settled).
    unfold oncloseHandler.
    destruct (mapGet (clients (manager w)) id0) as [info0|] eqn:Hget0;
      [|rewrite Hget; settled].
    assert (Hset : mapGet (mapSet (clients (manager w)) id0 (withConnected false info0)) id
                   = Some (if String.eqb id0 id then withConnected false info0 else info)).
    { rewrite mapGet_mapSet. by destruct (String.eqb id0 id). }
    destruct (enabled _);
      [rewrite (proj1 (scheduleReconnect_rest _ _ _))|]; cbn; rewrite Hset;
      (destruct (String.eqb_spec id0 id) as [->|_]; [|settled];
       assert (info0 = info) as -> by congruence;
       split; [constructor|]; split; [done|]; intros _; right; by exists t, name).
  - destruct (timers w !! h) as [[id0 a]|] eqn:Hh; [|rewrite Hget; settled].
    unfold reconnectCallback.
    destruct (reconnectClient_record id0 (setTimers (delete h (timers w)) w) id info Hget)
      as (info' & Hget' & Hstep & Hwhich).
    destruct (reconnectClient sdk id0 _) as [success w1]. cbn [snd fst] in *.
    destruct Hwhich as [->|(-> & Hconn & -> & Hpub)].
    + destruct (negb success && _);
        [rewrite (proj1 (scheduleReconnect_rest _ _ _))|]; rewrite Hget'; settled.
    + cbn [negb andb]. rewrite Hget'. split; [done|]. split; [|by left].
      intros _. right. split; [|done]. right. by exists h, a.
Qed.

(** A record that is in the store after some tasks has been there all
    along, and has the server name and the transport it had. *)
Lemma runAll_record tasks w id info info' :
  reachable sdk w →
  mapGet (clients (manager w)) id = Some info →
  mapGet (clients (manager (runAll sdk tasks w))) id = Some info' →
  serverName info' = serverName info ∧ transport info' = transport info.
Proof.
  revert w info. induction tasks as [|task tasks IH]; intros w info Hreach Hget Hend.
  { cbn in Hend. by assert (info' = info) as -> by congruence. }
  change (runAll sdk (task :: tasks) w) with (runAll sdk tasks (run sdk task w)) in Hend.
  pose proof (run_record task w id info Hreach Hget) as Hstep.
  destruct (mapGet (clients (manager (run sdk task w))) id) as [info1|] eqn:Hget1.
  - destruct Hstep as (Hstep & _ & _).
    destruct (IH (run sdk task w) info1) as [-> ->]; [by apply reachable_run|done..|].
    by destruct Hstep.
  - exfalso. destruct (reachable_consistent sdk w Hreach) as [_ Hkeys _ _].
    rewrite (runAll_stays_removed sdk) in Hend; [done|by apply reachable_run| |done].
    eapply issued_mono; [apply run_nextClientId|].
    apply (proj1 (Forall_forall _ _) Hkeys). by apply (mapGet_Some_keys _ _ info).
Qed.

(** X16.  An identifier stands for one server and one transport as long as
    it is registered: whatever tasks run, a record that [getClientInfo]
    still finds has the server name and the transport it was added with. *)
Theorem record_identity_is_fixed tasks w id v v' :
  reachable sdk w →
  getClientInfo id w = Some v →
  getClientInfo id (runAll sdk tasks w) = Some v' →
  view_serverName v' = view_serverName v ∧ view_transport v' = view_transport v.
Proof.
  unfold getClientInfo. intros Hreach Hv Hv'.
  destruct (mapGet (clients (manager w)) id) as [info|] eqn:Hget; [|done].
  destruct (mapGet (clients (manager (runAll sdk tasks w))) id) as [info'|] eqn:Hget';
    [|done].
  destruct (runAll_record tasks w id info info' Hreach Hget Hget') as [Hname Ht].
  injection Hv as <-. injection Hv' as <-. done.
Qed.

(** X17.  The error of a record is cleared by nothing but a reconnect that
    succeeds: if a task leaves a record without error that had one, the
    record was disconnected, the task was [reconnectClient] for it or one
    of its timers firing, it is connected and healthy now, and
    [clientReconnected] was emitted. *)
Theorem error_cleared_only_by_reconnect task w id info info' :
  reachable sdk w →
  mapGet (clients (manager w)) id = Some info →
  is_Some (error info) →
  mapGet (clients (manager (run sdk task w))) id = Some info' →
  error info' = None →
  connected info = false
  ∧ reconnects task w id
  ∧ isClientHealthy id (run sdk task w) = true
  ∧ published (run sdk task w) = published w ++ [clientReconnected id (serverName info)].
Proof.
  intros Hreach Hget [e He] Hget' Hnone.
  pose proof (run_record task w id info Hreach Hget) as Hstep.
  unfold isClientHealthy. rewrite Hget' in *. destruct Hstep as (Hstep & Hup & _).
  destruct Hstep as [|e'| |c Hconn]; cbn in Hnone; try congruence.
  destruct Hup as [?|[Htask Hpub]]; [done|congruence|]. done.
Qed.

(** A connected record with an error stays so while no transport
    closes. *)
Lemma run_connected_error task w id info :
  reachable sdk w →
  mapGet (clients (manager w)) id = Some info →
  connected info = true →
  is_Some (error info) →
  (∀ t, task ≠ TransportClose t) →
  ∀ info', mapGet (clients (manager (run sdk task w))) id = Some info' →
           connected info' = true ∧ is_Some (error info').
Proof.
  intros Hreach Hget Hconn He Htask info' Hget'.
  pose proof (run_record task w id info Hreach Hget) as Hstep.
  rewrite Hget' in Hstep. destruct Hstep as (Hstep & _ & Hdown).
  destruct Hstep as [|e'| |c Hconn']; cbn in *; try done; try congruence.
  destruct Hdown as [?|(t & name & -> & _)]; [done|congruence|]. by destruct (Htask t).
Qed.

(** X18.  A transport error on a record that stays connected is never
    cleared: as long as no transport closes, whatever else runs, the record
    if still registered is connected, has an error and is not healthy, and
    [reconnectClient] for it returns [true] and changes nothing. *)
Theorem error_sticks_while_connected tasks w id info :
  reachable sdk w →
  mapGet (clients (manager w)) id = Some info →
  connected info = true →
  is_Some (error info) →
  Forall (λ task, ∀ t, task ≠ TransportClose t) tasks →
  let w' := runAll sdk tasks w in
  isClientHealthy id w' = false
  ∧ ∀ info', mapGet (clients (manager w')) id = Some info' →
             connected info' = true ∧ is_Some (error info')
             ∧ reconnectClient sdk id w' = (true, w').
Proof.
  intros Hreach Hget Hconn He Htasks. cbn zeta.
  assert (Hkept : ∀ info', mapGet (clients (manager (runAll sdk tasks w))) id = Some info' →
                           connected info' = true ∧ is_Some (error info')).
  { revert w info Hreach Hget Hconn He.
    induction Htasks as [|task tasks Htask _ IH]; intros w info Hreach Hget Hconn He info' Hget'.
    { cbn in Hget'. by assert (info' = info) as -> by congruence. }
    change (runAll sdk (task :: tasks) w) with (runAll sdk tasks (run sdk task w)) in Hget'.
    destruct (mapGet (clients (manager (run sdk task w))) id) as [info1|] eqn:Hget1.
    - destruct (run_connected_error task w id info Hreach Hget Hconn He Htask info1 Hget1).
      apply (IH (run sdk task w) info1); try done. by apply reachable_run.
    - destruct (reachable_consistent sdk w Hreach) as [_ Hkeys _ _].
      rewrite (runAll_stays_removed sdk) in Hget'; [done|by apply reachable_run| |done].
      eapply issued_mono; [apply run_nextClientId|].
      apply (proj1 (Forall_forall _ _) Hkeys). by apply (mapGet_Some_keys _ _ info). }
  split.
  - unfold isClientHealthy.
    destruct (mapGet (clients (manager (runAll sdk tasks w))) id) as [info'|] eqn:Hget';
      [|done].
    destruct (Hkept info' eq_refl) as [-> [e ->]]. done.
  - intros info' Hget'. destruct (Hkept info' Hget') as [Hc He']. split; [done|].
    split; [done|]. unfold reconnectClient. by rewrite Hget', Hc.
Qed.
End Records.

Section Health.
Context (sdk : Sdk).

(** X19.  What the fan-out queries do to the health of a record.  A
    first-responder query leaves [isClientHealthy] of every record as it
    is, also of the records whose call failed.  After an aggregating query
    a record is healthy exactly when it was healthy before and its call
    went through: a failed call is written to the record as its error. *)
Theorem health_after_queries id w timeout :
  (∀ q, isClientHealthy id (run sdk (First q timeout) w) = isClientHealthy id w)
  ∧ (∀ q, isClientHealthy id (run sdk (Aggregate q timeout) w)
          = isClientHealthy id w
            && match mapGet (clients (manager w)) id with
               | Some info => succeeded (listAnswer sdk q (manager w) timeout info)
               | None => true
               end).
Proof.
  unfold isClientHealthy. split; intros q; cbn.
  - by rewrite runFirst_store.
  - rewrite runAggregating_store, mapGet_afterAttempt.
    destruct (mapGet (clients (manager w)) id) as [info|]; [|done]. cbn.
    unfold afterAttempt, succeeded. cbn. destruct (connected info) eqn:Hconn; [|cbn; rewrite ?Hconn; done].
    destruct (failure _); cbn; rewrite ?Hconn; cbn; by destruct (error info).
Qed.
End Health.

(** * The further properties on the sample worlds *)

Lemma gammaUp_reachable : reachable onlyOnce gammaUp.
Proof.
  apply (reachable_run onlyOnce (AddServer 9 "gamma" [])). apply reachable_new.
Qed.

Lemma alphaFailed_reachable : reachable betaEchoes alphaFailed.
Proof.
  apply (reachable_run betaEchoes (TransportError 1 (Error "EPIPE"))).
  apply (reachable_run betaEchoes (AddServer 1 "alpha" [])).
  apply reachable_new.
Qed.

Lemma alphaFailedClosed_reachable : reachable betaEchoes alphaFailedClosed.
Proof.
  apply (reachable_run betaEchoes (TransportClose 1)).
  exact alphaFailed_reachable.
Qed.

Lemma roster_changes_witness :
  rosterStep (RemoveClient "client-2") alphaClosedBetaUp
    (run betaEchoes (RemoveClient "client-2") alphaClosedBetaUp).
Proof.
  apply (roster_changes betaEchoes (RemoveClient "client-2") alphaClosedBetaUp).
  exact alphaClosedBetaUp_reachable.
Defined.


Lemma transport_close_handled_witness :
  published (run onlyOnce (TransportClose 9) gammaUp)
  = published gammaUp ++ [transportClosed "client-1" "gamma"].
Proof.
  pose proof (transport_close_handled onlyOnce 9%nat "client-1" "gamma" gammaUp
                gammaUp_reachable eq_refl) as H.
  exact (proj1 (proj2 (proj2 H))).
Defined.

Lemma transport_error_handled_witness :
  isClientHealthy "client-1" (run onlyOnce (TransportError 9 (Error "EPIPE")) gammaUp)
  = false.
Proof.
  pose proof (transport_error_handled onlyOnce 9%nat "client-1" "gamma" (Error "EPIPE")
                gammaUp eq_refl) as H.
  exact (proj1 (proj2 (proj2 (proj2 (proj2 H))))).
Defined.


Lemma addServer_registers_witness :
  getClientIdByServerName "gamma"
    (addServer onlyOnce 9 "gamma" [] (newWorld twoAttempts ∅)).2
  = Some "client-1".
Proof.
  pose proof (addServer_registers onlyOnce 9%nat "gamma" [] (newWorld twoAttempts ∅)
                (reachable_new onlyOnce twoAttempts ∅) eq_refl eq_refl) as H.
  exact (proj1 (proj2 (proj2 (proj2 (proj2 H))))).
Defined.

Lemma removed_id_stays_removed_witness :
  getClientInfo "client-1"
    (runAll onlyOnce [AddServer 9 "gamma" []]
       (run onlyOnce (RemoveClient "client-1") gammaClosed))
  = None.
Proof.
  pose proof (removed_id_stays_removed onlyOnce [AddServer 9%nat "gamma" []]
                (run onlyOnce (RemoveClient "client-1") gammaClosed) "client-1") as H.
  apply H.
  - apply reachable_run. exact gammaClosed_reachable.
  - exists 1%N. split; reflexivity.
  - reflexivity.
Defined.

Lemma record_identity_is_fixed_witness :
  view_serverName
    {| view_serverName := "gamma"; view_transport := 9%nat;
       view_connected := false; view_error := None |} = "gamma"
  ∧ view_transport
      {| view_serverName := "gamma"; view_transport := 9%nat;
         view_connected := false; view_error := None |} = 9%nat.
Proof.
  apply (record_identity_is_fixed onlyOnce [TransportClose 9%nat] gammaUp "client-1"
           {| view_serverName := "gamma"; view_transport := 9%nat;
              view_connected := true; view_error := None |}).
  - exact gammaUp_reachable.
  - reflexivity.
  - reflexivity.
Defined.

Lemma error_cleared_only_by_reconnect_witness :
  isClientHealthy "client-1" (run betaEchoes (ReconnectClient "client-1") alphaFailedClosed)
  = true.
Proof.
  assert (H : connected (withConnected false
                (withError (Some (Error "EPIPE")) (sampleRecordOf 0 "alpha" 1))) = false
              ∧ reconnects (ReconnectClient "client-1") alphaFailedClosed "client-1"
              ∧ isClientHealthy "client-1"
                  (run betaEchoes (ReconnectClient "client-1") alphaFailedClosed) = true
              ∧ published (run betaEchoes (ReconnectClient "client-1") alphaFailedClosed)
                = published alphaFailedClosed ++ [clientReconnected "client-1" "alpha"]).
  { eapply (error_cleared_only_by_reconnect betaEchoes (ReconnectClient "client-1")
              alphaFailedClosed "client-1"
              (withConnected false
                 (withError (Some (Error "EPIPE")) (sampleRecordOf 0 "alpha" 1)))).
    - exact alphaFailedClosed_reachable.
    - reflexivity.
    - exists (Error "EPIPE"). reflexivity.
    - reflexivity.
    - reflexivity. }
  exact (proj1 (proj2 (proj2 H))).
Defined.

Lemma error_sticks_while_connected_witness :
  isClientHealthy "client-1"
    (runAll betaEchoes [ReconnectClient "client-1"; Aggregate ListTools None] alphaFailed)
  = false.
Proof.
  pose proof (error_sticks_while_connected betaEchoes
                [ReconnectClient "client-1"; Aggregate ListTools None] alphaFailed
                "client-1" (withError (Some (Error "EPIPE")) (sampleRecordOf 0 "alpha" 1))
                alphaFailed_reachable eq_refl eq_refl) as H.
  apply H.
  - exists (Error "EPIPE"). reflexivity.
  - repeat constructor; intros t; discriminate.
Defined.

Lemma retry_on_same_transport_witness :
  run secondTry (TransportClose 7)
    (addServer secondTry 7 "delta" []
       (addServer secondTry 7 "delta" [] (newWorld noConfig ∅)).2).2
  = (addServer secondTry 7 "delta" []
       (addServer secondTry 7 "delta" [] (newWorld noConfig ∅)).2).2.
Proof.
  apply (retry_on_same_transport secondTry 7%nat "delta" [] [] (newWorld noConfig ∅)
           (ThrownValue (JsStr "ECONNREFUSED"))).
  - apply reachable_new.
  - reflexivity.
  - reflexivity.
  - reflexivity.
  - reflexivity.
Defined.
